(** * libiio streaming examples: a shallow embedding and its properties

    The five example programs (AD4630, AD4696, AD7768 and the two ADRV9002
    ones) are clients of the IIO library.  Everything they do is a call into
    that library or into libc, so a program is modelled as a function that,
    given the answers of its environment (a [world]), produces the
    chronological list of calls it made and the way the process ended.

    Conventions.
    - C integers are [Z]; pointers are [Z] as well, [NULL] being [0].
    - The answer of the environment to a call is taken to be a value of
      the C return type of that call.
    - Format strings are kept as they are written in the source, with
      their backslash escapes unexpanded.
    - The platform is LP64 and little-endian; [>>] on a negative [int] is
      an arithmetic shift and [<<] wraps (what gcc defines). *)

From Stdlib Require Import ZArith QArith Qround List String Ascii Bool Lia.
From Stdlib Require Import DecimalString.
Import ListNotations.
Local Open Scope string_scope.
Local Open Scope list_scope.
Local Open Scope Z_scope.

(** ** Machine integers *)

Module Int.

(** Value of [x] as an unsigned integer of [bits] bits. *)
Definition unsigned (bits x : Z) : Z := x mod 2 ^ bits.

(** Value of [x] as a two's complement integer of [bits] bits. *)
Definition signed (bits x : Z) : Z :=
  (x + 2 ^ (bits - 1)) mod 2 ^ bits - 2 ^ (bits - 1).

Definition in_signed (bits x : Z) : Prop :=
  - 2 ^ (bits - 1) <= x < 2 ^ (bits - 1).

End Int.

(** Constants of the platform headers. *)
Definition NULL : Z := 0.
Definition EXIT_FAILURE : Z := 1.
Definition ENODEV : Z := 19.
Definition SIGINT : Z := 2.
Definition SIGTERM : Z := 15.
Definition SIG_ERR : Z := -1.
Definition SIG_UNBLOCK : Z := 1.

(** The double quote and the tabulation characters, for the format
    strings that have them. *)
Definition dquote : string := String (ascii_of_nat 34) EmptyString.
Definition tab : string := String (ascii_of_nat 9) EmptyString.

(** ** Calls, answers and traces *)

(** An argument of a printf-like call. *)
Inductive parg : Type :=
| PInt (z : Z)          (* an integer argument *)
| PStr (s : string)     (* a string of the program *)
| PExt (p : Z)          (* a string owned by the environment *)
| PDbl (bits : Z).      (* a double *)

(** The calls the examples make, with their arguments as in the source.
    A [double] is carried by its IEEE 754 bit pattern. *)
Inductive call : Type :=
| iio_create_default_context
| iio_create_context_from_uri (uri : string)
| iio_context_get_devices_count (ctx : Z)
| iio_context_find_device (ctx : Z) (name : string)
| iio_context_destroy (ctx : Z)
| iio_device_find_channel (dev : Z) (name : string) (output : bool)
| iio_device_reg_write (dev : Z) (address value : Z)
| iio_device_reg_read (dev : Z) (address : Z)
| iio_device_debug_attr_write (dev : Z) (attr src : string)
| iio_device_create_buffer (dev : Z) (samples_count : Z) (cyclic : bool)
| iio_channel_attr_read_longlong (chn : Z) (attr : string)
| iio_channel_attr_write_longlong (chn : Z) (attr : string) (val : Z)
| iio_channel_attr_read_double (chn : Z) (attr : string)
| iio_channel_attr_write_double (chn : Z) (attr : string) (val : Z)
| iio_channel_enable (chn : Z)
| iio_channel_disable (chn : Z)
| iio_channel_get_data_format (chn : Z)
| iio_channel_get_id (chn : Z)
| iio_channel_read_raw (chn buf dst len : Z)
| iio_buffer_destroy (buf : Z)
| iio_buffer_refill (buf : Z)
| iio_buffer_step (buf : Z)
| iio_buffer_end (buf : Z)
| iio_buffer_first (buf chn : Z)
| load_int16 (addr : Z)            (* read of a sample in the library's buffer *)
| store_int16 (addr value : Z)     (* write of a sample in the library's buffer *)
| signal (sig : Z)
| sigaction (sig : Z)
| sigprocmask (how : Z) (sigs : list Z)
| strerror_errno
| sleep (seconds : Z)
| malloc (size : Z)
| free (p : Z)
| printf (fmt : string) (args : list parg)
| fprintf_stderr (fmt : string) (args : list parg)
| perror (s : string).

(** The answer of the environment to a call: the returned value, what the
    call stored through its output pointers (the register value of
    [iio_device_reg_read], the attribute of an attribute read, the fields
    [length] and [repeat] of a data format, the bytes of
    [iio_channel_read_raw]) and the signals that arrived while the call was
    in progress. *)
Record resp : Type := mkResp {
  r_ret : Z;
  r_out : list Z;
  r_sigs : list Z
}.

(** What a signal handler does when it runs for a signal: the calls it
    makes, and whether it sets the flag [stop]. *)
Definition handler : Type := Z -> list call * bool.

(** A run of the handler: the signal, and what the handler did. *)
Definition hrun : Type := (Z * (list call * bool))%type.

(** What a run leaves behind.  [Ecall c r ran]: the program called [c], got
    [r], and meanwhile its signal handler ran as [ran] tells.
    [Etest_stop b]: the loop condition read the flag [stop] and found [b]. *)
Inductive event : Type :=
| Ecall (c : call) (r : resp) (ran : list hrun)
| Etest_stop (b : bool).

(** The environment: the answer to the [n]-th call of the run. *)
Definition world : Type := nat -> call -> resp.

(** How a process ends.  [Undefined]: the C semantics gives no meaning to
    what the program did.  [OutOfFuel]: the run was cut while looping. *)
Inductive outcome : Type :=
| Exited (status : Z)
| Aborted
| Undefined
| OutOfFuel.

Inductive res (A : Type) : Type :=
| Val (a : A)
| Stop (o : outcome).
Arguments Val {A} a.
Arguments Stop {A} o.

(** ** The state of a process *)

(** [glob]: the globals of the program; [stop]: the flag of the same name,
    which all five programs have; [handled]: the signals a handler is
    installed for; [trace]: the events so far, newest first; [clock]: the
    number of calls so far. *)
Record pstate (G : Type) : Type := mkState {
  glob : G;
  stop : bool;
  handled : list Z;
  trace : list event;
  clock : nat
}.
Arguments mkState {G} _ _ _ _ _.
Arguments glob {G} _.
Arguments stop {G} _.
Arguments handled {G} _.
Arguments trace {G} _.
Arguments clock {G} _.

Definition initial {G : Type} (g : G) : pstate G := mkState g false [] [] O.

(** The events of a run in the order they happened. *)
Definition history {G : Type} (s : pstate G) : list event := rev (trace s).

(** ** The monad of the programs *)

Definition M (G A : Type) : Type := world -> pstate G -> res A * pstate G.

Definition ret {G A : Type} (a : A) : M G A := fun _ s => (Val a, s).

Definition bind {G A B : Type} (m : M G A) (k : A -> M G B) : M G B :=
  fun w s =>
    match m w s with
    | (Val a, s') => k a w s'
    | (Stop o, s') => (Stop o, s')
    end.

Declare Scope prog_scope.
Delimit Scope prog_scope with prog.
Notation "x <- m ;; k" := (bind m (fun x => k))
  (at level 61, m at next level, right associativity) : prog_scope.
Notation "m ;; k" := (bind m (fun _ => k))
  (at level 61, right associativity) : prog_scope.
Local Open Scope prog_scope.

(** The process ends here. *)
Definition halt {G A : Type} (o : outcome) : M G A := fun _ s => (Stop o, s).

Definition get_glob {G : Type} : M G G := fun _ s => (Val (glob s), s).

Definition set_glob {G : Type} (f : G -> G) : M G unit :=
  fun _ s => (Val tt, mkState (f (glob s)) (stop s) (handled s) (trace s) (clock s)).

(** Installation of a handler for [sig]. *)
Definition install {G : Type} (sig : Z) : M G unit :=
  fun _ s => (Val tt, mkState (glob s) (stop s) (sig :: handled s) (trace s) (clock s)).

(** The signals of [sigs] a handler is installed for. *)
Definition caught (handled sigs : list Z) : list Z :=
  filter (fun sg => existsb (Z.eqb sg) handled) sigs.

(** Whether one of the runs of the handler set the flag. *)
Definition sets_stop (ran : list hrun) : bool :=
  existsb (fun x => snd (snd x)) ran.

(** A call made by a program whose signal handler is [h]: the environment
    answers, and the handler runs for each signal that arrived meanwhile
    and has a handler installed. *)
Definition do_call {G : Type} (h : handler) (c : call) : M G resp :=
  fun w s =>
    let r := w (clock s) c in
    let ran := map (fun sg => (sg, h sg)) (caught (handled s) (r_sigs r)) in
    (Val r,
     mkState (glob s) (sets_stop ran || stop s) (handled s)
             (Ecall c r ran :: trace s) (S (clock s))).

(** The test of a loop [while (!stop)]: the value read from the flag. *)
Definition test_stop {G : Type} : M G bool :=
  fun _ s =>
    (Val (stop s),
     mkState (glob s) (stop s) (handled s) (Etest_stop (stop s) :: trace s) (clock s)).

(** The process of a program whose [main] is [m]: the value [main]
    returns is the exit status. *)
Definition process {G : Type} (m : M G Z) : M G Z :=
  status <- m ;; halt (Exited status).

(** Running a program from the state [s], in the environment [w]: how it
    ended, and the state it left. *)
Definition run_from {G : Type} (m : M G Z) (w : world) (s : pstate G)
  : outcome * pstate G :=
  match process m w s with
  | (Stop o, s') => (o, s')
  | (Val status, s') => (Exited status, s')
  end.

(** Running a program from the initial state of its process. *)
Definition run {G : Type} (m : M G Z) (g : G) (w : world) : outcome * pstate G :=
  run_from m w (initial g).

(** ** Memory of the program: sample buffers *)

Module Mem.

(** A block obtained from [malloc]: one cell per byte, [None] while the
    byte has not been written. *)
Definition buffer : Type := list (option Z).

Definition alloc (size : Z) : buffer := repeat None (Z.to_nat size).

(** The block after the library stored the bytes [data] at its start. *)
Fixpoint fill (data : list Z) (b : buffer) : buffer :=
  match data, b with
  | d :: data', _ :: b' => Some (d mod 256) :: fill data' b'
  | _, _ => b
  end.

Definition byte_at (b : buffer) (off : Z) : option Z :=
  if off <? 0 then None
  else match nth_error b (Z.to_nat off) with
       | Some (Some x) => Some x
       | _ => None
       end.

Fixpoint set_nth (b : buffer) (i : nat) (x : Z) : option buffer :=
  match b, i with
  | [], _ => None
  | _ :: b', O => Some (Some x :: b')
  | y :: b', S i' =>
      match set_nth b' i' x with
      | Some b'' => Some (y :: b'')
      | None => None
      end
  end.

Definition set_byte (b : buffer) (off x : Z) : option buffer :=
  if off <? 0 then None else set_nth b (Z.to_nat off) x.

(** Little-endian read of [n] bytes at offset [off], as an unsigned
    number; [None] outside the block or on a byte never written. *)
Fixpoint load (n : nat) (b : buffer) (off : Z) : option Z :=
  match n with
  | O => Some 0
  | S n' =>
      match byte_at b off, load n' b (off + 1) with
      | Some x, Some hi => Some (x + 256 * hi)
      | _, _ => None
      end
  end.

(** Little-endian write of the low [n] bytes of [v] at offset [off];
    [None] outside the block. *)
Fixpoint store (n : nat) (b : buffer) (off v : Z) : option buffer :=
  match n with
  | O => Some b
  | S n' =>
      match set_byte b off (v mod 256) with
      | Some b' => store n' b' (off + 1) (v / 256)
      | None => None
      end
  end.

End Mem.

(** ** The part of libc the examples rely on *)

Module Libc.

Definition nul : ascii := ascii_of_nat 0.

(** The text [%d] prints for [z]. *)
Definition decimal (z : Z) : list ascii :=
  list_ascii_of_string (NilZero.string_of_int (Z.to_int z)).

(** Write of one character at index [i] of an array; [None] outside. *)
Definition poke (dst : list ascii) (i : nat) (c : ascii) : option (list ascii) :=
  if (i <? List.length dst)%nat then Some (firstn i dst ++ c :: skipn (S i) dst)
  else None.

(** The copying loop of [snprintf]: characters are stored while fewer
    than [size - 1] have been. *)
Fixpoint copy_bounded (dst : list ascii) (i size : nat) (text : list ascii)
  : option (list ascii * nat) :=
  match text with
  | [] => Some (dst, i)
  | c :: rest =>
      if (S i <? size)%nat then
        match poke dst i c with
        | Some d => copy_bounded d (S i) size rest
        | None => None
        end
      else Some (dst, i)
  end.

(** [snprintf(dst, size, fmt, ...)] where [text] is what the format
    expands to: the array after the call and the returned length.
    [None] if a character would be stored outside [dst]. *)
Definition snprintf (dst : list ascii) (size : nat) (text : list ascii)
  : option (list ascii * Z) :=
  match copy_bounded dst 0 size text with
  | Some (d, i) =>
      if (0 <? size)%nat then
        match poke d i nul with
        | Some d' => Some (d', Z.of_nat (List.length text))
        | None => None
        end
      else Some (d, Z.of_nat (List.length text))
  | None => None
  end.

(** The C string held by an array: the characters before the first NUL;
    [None] if there is no NUL. *)
Fixpoint cstring (a : list ascii) : option (list ascii) :=
  match a with
  | [] => None
  | c :: a' =>
      if Ascii.eqb c nul then Some []
      else match cstring a' with
           | Some s => Some (c :: s)
           | None => None
           end
  end.

End Libc.

(** ** Code common to the AD4630, AD4696 and AD7768 examples

    [shutdown], [handle_sig], [errchk], [rd_ch_lli], [get_ch_name] and the
    macro [IIO_ENSURE] are the same text in the three files. *)

Module ADC.

Definition BUFFER_LENGTH : Z := 400.

(** [enum iodev] *)
Inductive iodev : Type := RX | TX.

(** The globals [tmpstr], [ctx], [rxchan] and [rxbuf]. *)
Record globals : Type := mkGlobals {
  tmpstr : list ascii;
  ctx : Z;
  rxchan : Z;
  rxbuf : Z
}.

Definition globals0 : globals :=
  mkGlobals (repeat Libc.nul 64) NULL NULL NULL.

Definition set_tmpstr (t : list ascii) (g : globals) : globals :=
  mkGlobals t (ctx g) (rxchan g) (rxbuf g).
Definition set_ctx (p : Z) (g : globals) : globals :=
  mkGlobals (tmpstr g) p (rxchan g) (rxbuf g).
Definition set_rxchan (p : Z) (g : globals) : globals :=
  mkGlobals (tmpstr g) (ctx g) p (rxbuf g).
Definition set_rxbuf (p : Z) (g : globals) : globals :=
  mkGlobals (tmpstr g) (ctx g) (rxchan g) p.

(** [handle_sig]: the message it prints, and that it sets [stop]. *)
Definition handle_sig (sig : Z) : list call * bool :=
  ([printf "Waiting for process to finish... Got signal %d\n" [PInt sig]], true).

(** A call of this program, with its answer, and without. *)
Definition invoke (c : call) : M globals resp := do_call handle_sig c.
Definition invoke_ (c : call) : M globals unit := invoke c ;; ret tt.

(** The macro [IIO_ENSURE(expr)], expanded in [file] at [line]; [b] is
    the truth value of [expr]. *)
Definition IIO_ENSURE (file : string) (line : Z) (b : bool) : M globals unit :=
  if b then ret tt
  else
    invoke_ (fprintf_stderr "assertion failed (%s:%d)\n" [PStr file; PInt line]) ;;
    halt Aborted.

(** [shutdown]: cleanup and exit. *)
Definition shutdown {A : Type} : M globals A :=
  invoke_ (printf "* Destroying buffers\n" []) ;;
  g <- get_glob ;;
  (if rxbuf g =? NULL then ret tt else invoke_ (iio_buffer_destroy (rxbuf g))) ;;
  invoke_ (printf "* Disabling streaming channels\n" []) ;;
  g <- get_glob ;;
  (if rxchan g =? NULL then ret tt else invoke_ (iio_channel_disable (rxchan g))) ;;
  invoke_ (printf "* Destroying context\n" []) ;;
  g <- get_glob ;;
  (if ctx g =? NULL then ret tt else invoke_ (iio_context_destroy (ctx g))) ;;
  halt (Exited 0).

(** [errchk]: check return value of attr_read function. *)
Definition errchk (v : Z) (what : string) : M globals unit :=
  if v <? 0 then
    invoke_ (fprintf_stderr
             ("Error %d reading channel \" ++ dquote ++ "%s\" ++ dquote
              ++ "\nvalue may not be supported.\n")%string
             [PInt v; PStr what]) ;;
    shutdown
  else ret tt.

(** [rd_ch_lli]: read attribute, long long int. *)
Definition rd_ch_lli (chn : Z) (what : string) : M globals Z :=
  r <- invoke (iio_channel_attr_read_longlong chn what) ;;
  errchk (r_ret r) what ;;
  let val := nth 0 (r_out r) 0 in
  invoke_ (printf "\t %s: %lld\n" [PStr what; PInt val]) ;;
  ret val.

(** [get_ch_name]: [snprintf] into the 64 bytes of [tmpstr]; the result
    is the string the returned pointer designates. *)
Definition get_ch_name (type : string) (id : Z) : M globals string :=
  g <- get_glob ;;
  match Libc.snprintf (tmpstr g) 64
          (list_ascii_of_string type ++ Libc.decimal id) with
  | Some (t, _) =>
      set_glob (set_tmpstr t) ;;
      match Libc.cstring t with
      | Some name => ret (string_of_list_ascii name)
      | None => halt Undefined
      end
  | None => halt Undefined
  end.

(** The number of iterations of the printing loops: the bound
    [bytes / sample_size] of [for (sample = 0; sample < bytes /
    sample_size; ++sample)], computed on [unsigned long]. *)
Definition sample_count (bytes sample_size : Z) : Z :=
  Int.unsigned 64 bytes / sample_size.

(** [fmt->length / 8 * fmt->repeat], computed on [unsigned int]. *)
Definition sample_size_of (length repeat : Z) : Z :=
  Int.unsigned 32 (length / 8 * repeat).

End ADC.

(** ** examples/ad4630-iiostream.c *)

Module AD4630.
Import ADC.

Definition file : string := "ad4630-iiostream.c".

Definition CHANNEL_NUMBER : Z := 0.
Definition MODES_REG : Z := 32.
Definition OUT_DATA_MD : Z := 1.
Definition DDR_MD : Z := 0.
Definition CLK_MD : Z := 0.
Definition LANE_MD : Z := 2.

(** The value written to the modes register. *)
Definition modes_value : Z :=
  Z.lor (Z.lor (Z.lor (Z.shiftl LANE_MD 6) (Z.shiftl CLK_MD 4))
               (Z.shiftl DDR_MD 3))
        OUT_DATA_MD.

(** [get_ad4630]: returns AD4630-24 device. *)
Definition get_ad4630 (ctx : Z) : M globals Z :=
  r <- invoke (iio_context_find_device ctx "ad4630") ;;
  let dev := r_ret r in
  IIO_ENSURE file 152 (negb (dev =? NULL)) ;;
  ret dev.

(** [get_ad4630_stream_dev]: the returned truth value and [*dev]. *)
Definition get_ad4630_stream_dev (ctx : Z) (d : iodev) (dev : Z) : M globals (bool * Z) :=
  match d with
  | RX =>
      r <- invoke (iio_context_find_device ctx "ad4630") ;;
      ret (negb (r_ret r =? NULL), r_ret r)
  | TX => IIO_ENSURE file 161 false ;; ret (false, dev)
  end.

(** [get_ad4630_stream_ch]: the returned truth value and [*chn]. *)
Definition get_ad4630_stream_ch (ctx : Z) (d : iodev) (dev chid : Z) : M globals (bool * Z) :=
  name <- get_ch_name "voltage" chid ;;
  r <- invoke (iio_device_find_channel dev name false) ;;
  ret (negb (r_ret r =? NULL), r_ret r).

(** [get_channel]: the returned truth value and [*chn]. *)
Definition get_channel (ctx : Z) (d : iodev) (chid chn : Z) : M globals (bool * Z) :=
  match d with
  | RX =>
      dev <- get_ad4630 ctx ;;
      name <- get_ch_name "voltage" chid ;;
      r <- invoke (iio_device_find_channel dev name false) ;;
      ret (negb (r_ret r =? NULL), r_ret r)
  | TX => IIO_ENSURE file 177 false ;; ret (false, chn)
  end.

(** [cfg_ad4630_streaming_ch]: applies streaming configuration. *)
Definition cfg_ad4630_streaming_ch (ctx : Z) (type : iodev) (chid : Z) : M globals bool :=
  invoke_ (printf "* Acquiring AD4630 channel %d\n" [PInt chid]) ;;
  ok <- get_channel ctx type chid NULL ;;
  if negb (fst ok) then ret false else ret true.

(** The formatting of one sample, for each value of the compile-time
    constants: the 64-bit word [raw], moved down by 32 bits for the
    second channel, converted to [int32_t] and shifted. *)
Definition format_sample (out_data_md channel raw : Z) : Z :=
  let word := if channel =? 0 then raw else Z.shiftr raw 32 in
  let x := Int.signed 32 word in
  if out_data_md =? 0 then Z.shiftr x 8
  else if out_data_md =? 1 then Z.shiftr x 16
  else if out_data_md =? 2 then Z.shiftr x 8
  else if out_data_md =? 3 then Z.shiftr x 2
  else x.

(** The loop over the captured samples, from [sample] on.  [room] bounds
    the number of iterations by the size of the block: a read at the
    index [room] past the first one is outside of it. *)
Fixpoint print_samples (room : nat) (sample count : Z) (buf : Mem.buffer)
  : M globals Mem.buffer :=
  if sample <? count then
    match room with
    | O => halt Undefined
    | S room' =>
        match Mem.load 8 buf (8 * sample) with
        | None => halt Undefined
        | Some raw =>
            match Mem.store 4 buf (4 * sample)
                    (format_sample OUT_DATA_MD CHANNEL_NUMBER (Int.signed 64 raw)) with
            | None => halt Undefined
            | Some buf' =>
                match Mem.load 4 buf' (4 * sample) with
                | None => halt Undefined
                | Some v =>
                    invoke_ (printf "Buffer Sample: %ld\tCH0: 0x%x\n"
                               [PInt sample; PInt (Int.signed 32 v)]) ;;
                    print_samples room' (sample + 1) count buf'
                end
            end
        end
    end
  else ret buf.

(** One iteration of the loop [while (!stop)] of [main]. *)
Definition iteration : M globals unit :=
  g <- get_glob ;;
  r <- invoke (iio_buffer_refill (rxbuf g)) ;;
  let nbytes_rx := r_ret r in
  (if nbytes_rx <? 0 then
     invoke_ (printf "Error refilling buf %d\n" [PInt (Int.signed 32 nbytes_rx)]) ;;
     shutdown
   else ret tt) ;;
  rd_ch_lli (rxchan g) "common_mode_voltage" ;;
  fmt <- invoke (iio_channel_get_data_format (rxchan g)) ;;
  (if r_ret fmt =? NULL then halt Undefined else ret tt) ;;
  let length := nth 0 (r_out fmt) 0 in
  let repeat := nth 1 (r_out fmt) 0 in
  let sample_size := sample_size_of length repeat in
  invoke_ (printf "Fmt length = %u, fmt repeat = %u, sample size = %lu\n"
             [PInt length; PInt repeat; PInt sample_size]) ;;
  let size := Int.unsigned 64 (sample_size * BUFFER_LENGTH) in
  m <- invoke (malloc size) ;;
  let buf := r_ret m in
  (if buf =? NULL then
     invoke_ (perror "trying to allocate memory for buffer\n") ;;
     shutdown
   else ret tt) ;;
  rr <- invoke (iio_channel_read_raw (rxchan g) (rxbuf g) buf size) ;;
  let bytes := r_ret rr in
  let block := Mem.fill (r_out rr) (Mem.alloc size) in
  id <- invoke (iio_channel_get_id (rxchan g)) ;;
  invoke_ (printf "%s \n" [PExt (r_ret id)]) ;;
  (if sample_size =? 0 then halt Undefined else ret tt) ;;
  print_samples (List.length block) 0 (sample_count bytes sample_size) block ;;
  invoke_ (free buf) ;;
  invoke_ (printf "\n" []).

(** The loop [while (!stop)] of [main], cut after [fuel] iterations. *)
Fixpoint streaming (fuel : nat) : M globals unit :=
  match fuel with
  | O => halt OutOfFuel
  | S fuel' =>
      b <- test_stop ;;
      if b then ret tt else iteration ;; streaming fuel'
  end.

Definition main (fuel : nat) (argc : Z) (argv : list string) : M globals Z :=
  s <- invoke (signal SIGINT) ;;
  (if r_ret s =? SIG_ERR then ret tt else install SIGINT) ;;
  invoke_ (printf "* Acquiring IIO context\n" []) ;;
  (if argc =? 1 then
     r <- invoke iio_create_default_context ;;
     set_glob (set_ctx (r_ret r)) ;;
     IIO_ENSURE file 220 (negb (r_ret r =? NULL))
   else if argc =? 2 then
     r <- invoke (iio_create_context_from_uri (nth 1 argv "")) ;;
     set_glob (set_ctx (r_ret r)) ;;
     IIO_ENSURE file 223 (negb (r_ret r =? NULL))
   else ret tt) ;;
  g <- get_glob ;;
  n <- invoke (iio_context_get_devices_count (ctx g)) ;;
  IIO_ENSURE file 225 (0 <? r_ret n) ;;
  invoke_ (printf "* Acquiring AD4630-24 streaming devices\n" []) ;;
  d <- get_ad4630_stream_dev (ctx g) RX NULL ;;
  let rx := snd d in
  IIO_ENSURE file 228 (fst d) ;;
  invoke_ (iio_device_reg_write rx MODES_REG modes_value) ;;
  rv <- invoke (iio_device_reg_read rx MODES_REG) ;;
  let reg_val := nth 0 (r_out rv) 0 in
  invoke_ (printf "* Modes Register 0x20  = 0x%x\n" [PInt reg_val]) ;;
  invoke_ (printf "* Configuring AD4630-24 for streaming\n" []) ;;
  ok <- cfg_ad4630_streaming_ch (ctx g) RX CHANNEL_NUMBER ;;
  IIO_ENSURE file 237 ok ;;
  invoke_ (printf "* Initializing AD4630-24 IIO streaming channels\n" []) ;;
  c <- get_ad4630_stream_ch (ctx g) RX rx CHANNEL_NUMBER ;;
  set_glob (set_rxchan (snd c)) ;;
  IIO_ENSURE file 240 (fst c) ;;
  invoke_ (printf "* Enabling IIO streaming channels\n" []) ;;
  invoke_ (iio_channel_enable (snd c)) ;;
  invoke_ (printf "* Creating non-cyclic IIO buffers with 1 MiS\n" []) ;;
  b <- invoke (iio_device_create_buffer rx BUFFER_LENGTH false) ;;
  set_glob (set_rxbuf (r_ret b)) ;;
  (if r_ret b =? NULL then
     invoke_ (perror "Could not create RX buffer") ;;
     shutdown
   else ret tt) ;;
  invoke_ (printf "* Starting IO streaming (press CTRL+C to cancel)\n" []) ;;
  streaming fuel ;;
  invoke_ (iio_device_reg_write rx MODES_REG 130) ;;
  rv <- invoke (iio_device_reg_read rx MODES_REG) ;;
  let reg_val := nth 0 (r_out rv) 0 in
  invoke_ (printf "* Modes Register 0x20  = 0x%x\n" [PInt reg_val]) ;;
  @shutdown unit ;;
  ret 0.

End AD4630.

(** ** examples/ad4696-iiostream.c *)

Module AD4696.
Import ADC.

Definition file : string := "ad4696-iiostream.c".

Definition CHANNEL_NUMBER : Z := 0.
Definition MODE_REG_VAL : Z := 1.

(** [get_ad4696]: returns AD4696 device. *)
Definition get_ad4696 (ctx : Z) : M globals Z :=
  r <- invoke (iio_context_find_device ctx "axi-ad469x-adc") ;;
  let dev := r_ret r in
  IIO_ENSURE file 123 (negb (dev =? NULL)) ;;
  ret dev.

(** [get_ad4696_stream_dev]: the returned truth value and [*dev]. *)
Definition get_ad4696_stream_dev (ctx : Z) (d : iodev) (dev : Z) : M globals (bool * Z) :=
  match d with
  | RX =>
      r <- invoke (iio_context_find_device ctx "axi-ad469x-adc") ;;
      ret (negb (r_ret r =? NULL), r_ret r)
  | TX => IIO_ENSURE file 132 false ;; ret (false, dev)
  end.

(** [get_ad4696_stream_ch]: the returned truth value and [*chn]. *)
Definition get_ad4696_stream_ch (ctx : Z) (d : iodev) (dev chid : Z) : M globals (bool * Z) :=
  name <- get_ch_name "voltage" chid ;;
  r <- invoke (iio_device_find_channel dev name false) ;;
  ret (negb (r_ret r =? NULL), r_ret r).

(** [get_channel]: the returned truth value and [*chn]. *)
Definition get_channel (ctx : Z) (d : iodev) (chid chn : Z) : M globals (bool * Z) :=
  match d with
  | RX =>
      dev <- get_ad4696 ctx ;;
      name <- get_ch_name "voltage" chid ;;
      r <- invoke (iio_device_find_channel dev name false) ;;
      ret (negb (r_ret r =? NULL), r_ret r)
  | TX => IIO_ENSURE file 148 false ;; ret (false, chn)
  end.

(** [cfg_ad4696_streaming_ch]: applies streaming configuration. *)
Definition cfg_ad4696_streaming_ch (ctx : Z) (type : iodev) (chid : Z) : M globals bool :=
  invoke_ (printf "* Acquiring AD4696 channel %d\n" [PInt chid]) ;;
  ok <- get_channel ctx type chid NULL ;;
  if negb (fst ok) then ret false else ret true.

(** The loop over the captured samples, from [sample] on; [room] as in
    the AD4630 example. *)
Fixpoint print_samples (room : nat) (sample count : Z) (buf : Mem.buffer)
  : M globals unit :=
  if sample <? count then
    match room with
    | O => halt Undefined
    | S room' =>
        match Mem.load 2 buf (2 * sample) with
        | None => halt Undefined
        | Some v =>
            invoke_ (printf "Buffer Sample: %ld\tCH%d Data: 0x%x\n"
                       [PInt sample; PInt CHANNEL_NUMBER; PInt (Int.signed 16 v)]) ;;
            print_samples room' (sample + 1) count buf
        end
    end
  else ret tt.

(** One iteration of the loop [while (!stop)] of [main]. *)
Definition iteration : M globals unit :=
  g <- get_glob ;;
  r <- invoke (iio_buffer_refill (rxbuf g)) ;;
  let nbytes_rx := r_ret r in
  (if nbytes_rx <? 0 then
     invoke_ (printf "Error refilling buf %d\n" [PInt (Int.signed 32 nbytes_rx)]) ;;
     shutdown
   else ret tt) ;;
  fmt <- invoke (iio_channel_get_data_format (rxchan g)) ;;
  (if r_ret fmt =? NULL then halt Undefined else ret tt) ;;
  let length := nth 0 (r_out fmt) 0 in
  let repeat := nth 1 (r_out fmt) 0 in
  let sample_size := sample_size_of length repeat in
  invoke_ (printf "Fmt length = %u, fmt repeat = %u, sample size = %lu\n"
             [PInt length; PInt repeat; PInt sample_size]) ;;
  let size := Int.unsigned 64 (sample_size * BUFFER_LENGTH) in
  m <- invoke (malloc size) ;;
  let buf := r_ret m in
  (if buf =? NULL then
     invoke_ (perror "trying to allocate memory for buffer\n") ;;
     shutdown
   else ret tt) ;;
  rr <- invoke (iio_channel_read_raw (rxchan g) (rxbuf g) buf size) ;;
  let bytes := r_ret rr in
  let block := Mem.fill (r_out rr) (Mem.alloc size) in
  id <- invoke (iio_channel_get_id (rxchan g)) ;;
  invoke_ (printf "%s \n" [PExt (r_ret id)]) ;;
  (if sample_size =? 0 then halt Undefined else ret tt) ;;
  print_samples (List.length block) 0 (sample_count bytes sample_size) block ;;
  invoke_ (free buf) ;;
  invoke_ (printf "\n" []).

(** The loop [while (!stop)] of [main], cut after [fuel] iterations. *)
Fixpoint streaming (fuel : nat) : M globals unit :=
  match fuel with
  | O => halt OutOfFuel
  | S fuel' =>
      b <- test_stop ;;
      if b then ret tt else iteration ;; streaming fuel'
  end.

Definition main (fuel : nat) (argc : Z) (argv : list string) : M globals Z :=
  s <- invoke (signal SIGINT) ;;
  (if r_ret s =? SIG_ERR then ret tt else install SIGINT) ;;
  invoke_ (printf "* Acquiring IIO context\n" []) ;;
  (if argc =? 1 then
     r <- invoke iio_create_default_context ;;
     set_glob (set_ctx (r_ret r)) ;;
     IIO_ENSURE file 191 (negb (r_ret r =? NULL))
   else if argc =? 2 then
     r <- invoke (iio_create_context_from_uri (nth 1 argv "")) ;;
     set_glob (set_ctx (r_ret r)) ;;
     IIO_ENSURE file 194 (negb (r_ret r =? NULL))
   else ret tt) ;;
  g <- get_glob ;;
  n <- invoke (iio_context_get_devices_count (ctx g)) ;;
  IIO_ENSURE file 196 (0 <? r_ret n) ;;
  invoke_ (printf "* Acquiring AD4696 streaming devices\n" []) ;;
  d <- get_ad4696_stream_dev (ctx g) RX NULL ;;
  let rx := snd d in
  IIO_ENSURE file 199 (fst d) ;;
  invoke_ (printf "* Configuring AD4696 for streaming\n" []) ;;
  ok <- cfg_ad4696_streaming_ch (ctx g) RX CHANNEL_NUMBER ;;
  IIO_ENSURE file 202 ok ;;
  invoke_ (printf "* Initializing AD4696 IIO streaming channels\n" []) ;;
  c <- get_ad4696_stream_ch (ctx g) RX rx CHANNEL_NUMBER ;;
  set_glob (set_rxchan (snd c)) ;;
  IIO_ENSURE file 205 (fst c) ;;
  invoke_ (iio_device_reg_write rx 1024 MODE_REG_VAL) ;;
  rv <- invoke (iio_device_reg_read rx 1024) ;;
  let reg_val := nth 0 (r_out rv) 0 in
  invoke_ (printf "In Continuous Mode\nRegister 0x400 = 0x%x\n" [PInt reg_val]) ;;
  invoke_ (printf "* Enabling IIO streaming channels\n" []) ;;
  invoke_ (iio_channel_enable (snd c)) ;;
  invoke_ (printf "* Creating non-cyclic IIO buffers with 1 MiS\n" []) ;;
  b <- invoke (iio_device_create_buffer rx BUFFER_LENGTH false) ;;
  set_glob (set_rxbuf (r_ret b)) ;;
  (if r_ret b =? NULL then
     invoke_ (perror "Could not create RX buffer") ;;
     shutdown
   else ret tt) ;;
  invoke_ (printf "* Starting IO streaming (press CTRL+C to cancel)\n" []) ;;
  streaming fuel ;;
  @shutdown unit ;;
  ret 0.

End AD4696.

(** ** examples/ad7768-iiostream.c *)

Module AD7768.
Import ADC.

Definition file : string := "ad7768-iiostream.c".

Definition CHANNEL_NUMBER : Z := 4.

(** [get_ad7768]: returns AD7768 device. *)
Definition get_ad7768 (ctx : Z) : M globals Z :=
  r <- invoke (iio_context_find_device ctx "axi-ad7768-adc") ;;
  let dev := r_ret r in
  IIO_ENSURE file 126 (negb (dev =? NULL)) ;;
  ret dev.

(** [get_ad7768_stream_dev]: the returned truth value and [*dev]. *)
Definition get_ad7768_stream_dev (ctx : Z) (d : iodev) (dev : Z) : M globals (bool * Z) :=
  match d with
  | RX =>
      r <- invoke (iio_context_find_device ctx "axi-ad7768-adc") ;;
      ret (negb (r_ret r =? NULL), r_ret r)
  | TX => IIO_ENSURE file 135 false ;; ret (false, dev)
  end.

(** [get_ad7768_stream_ch]: the returned truth value and [*chn]. *)
Definition get_ad7768_stream_ch (ctx : Z) (d : iodev) (dev chid : Z) : M globals (bool * Z) :=
  name <- get_ch_name "voltage" chid ;;
  r <- invoke (iio_device_find_channel dev name false) ;;
  ret (negb (r_ret r =? NULL), r_ret r).

(** [get_channel]: the returned truth value and [*chn]. *)
Definition get_channel (ctx : Z) (d : iodev) (chid chn : Z) : M globals (bool * Z) :=
  match d with
  | RX =>
      dev <- get_ad7768 ctx ;;
      name <- get_ch_name "voltage" chid ;;
      r <- invoke (iio_device_find_channel dev name false) ;;
      ret (negb (r_ret r =? NULL), r_ret r)
  | TX => IIO_ENSURE file 151 false ;; ret (false, chn)
  end.

(** [cfg_ad7768_streaming_ch]: applies streaming configuration. *)
Definition cfg_ad7768_streaming_ch (ctx : Z) (type : iodev) (chid : Z) : M globals bool :=
  invoke_ (printf "* Acquiring AD7768 channel %d\n" [PInt chid]) ;;
  ok <- get_channel ctx type chid NULL ;;
  if negb (fst ok) then ret false else ret true.

(** The value printed for a sample: [((int32_t * )buf)[sample] << 8]. *)
Definition printed_value (raw : Z) : Z :=
  Int.signed 32 (Z.shiftl raw 8).

(** The loop over the captured samples, from [sample] on; [room] as in
    the AD4630 example.  ["%" PRId32 " "] is ["%d "]. *)
Fixpoint print_samples (room : nat) (sample count : Z) (buf : Mem.buffer)
  : M globals unit :=
  if sample <? count then
    match room with
    | O => halt Undefined
    | S room' =>
        match Mem.load 4 buf (4 * sample) with
        | None => halt Undefined
        | Some v =>
            invoke_ (printf "%d " [PInt (printed_value (Int.signed 32 v))]) ;;
            print_samples room' (sample + 1) count buf
        end
    end
  else ret tt.

(** One iteration of the loop [while (!stop)] of [main]. *)
Definition iteration : M globals unit :=
  g <- get_glob ;;
  r <- invoke (iio_buffer_refill (rxbuf g)) ;;
  let nbytes_rx := r_ret r in
  (if nbytes_rx <? 0 then
     invoke_ (printf "Error refilling buf %d\n" [PInt (Int.signed 32 nbytes_rx)]) ;;
     shutdown
   else ret tt) ;;
  fmt <- invoke (iio_channel_get_data_format (rxchan g)) ;;
  (if r_ret fmt =? NULL then halt Undefined else ret tt) ;;
  let length := nth 0 (r_out fmt) 0 in
  let repeat := nth 1 (r_out fmt) 0 in
  let sample_size := sample_size_of length repeat in
  invoke_ (printf "Fmt length = %u, fmt repeat = %u, sample size = %u\n"
             [PInt length; PInt repeat; PInt sample_size]) ;;
  let size := Int.unsigned 64 (sample_size * BUFFER_LENGTH) in
  m <- invoke (malloc size) ;;
  let buf := r_ret m in
  (if buf =? NULL then
     invoke_ (perror "trying to allocate memory for buffer\n") ;;
     shutdown
   else ret tt) ;;
  rr <- invoke (iio_channel_read_raw (rxchan g) (rxbuf g) buf size) ;;
  let bytes := r_ret rr in
  let block := Mem.fill (r_out rr) (Mem.alloc size) in
  id <- invoke (iio_channel_get_id (rxchan g)) ;;
  invoke_ (printf "%s " [PExt (r_ret id)]) ;;
  (if sample_size =? 0 then halt Undefined else ret tt) ;;
  print_samples (List.length block) 0 (sample_count bytes sample_size) block ;;
  invoke_ (free buf) ;;
  invoke_ (printf "\n" []).

(** The loop [while (!stop)] of [main], cut after [fuel] iterations. *)
Fixpoint streaming (fuel : nat) : M globals unit :=
  match fuel with
  | O => halt OutOfFuel
  | S fuel' =>
      b <- test_stop ;;
      if b then ret tt else iteration ;; streaming fuel'
  end.

Definition main (fuel : nat) (argc : Z) (argv : list string) : M globals Z :=
  s <- invoke (signal SIGINT) ;;
  (if r_ret s =? SIG_ERR then ret tt else install SIGINT) ;;
  invoke_ (printf "* Acquiring IIO context\n" []) ;;
  (if argc =? 1 then
     r <- invoke iio_create_default_context ;;
     set_glob (set_ctx (r_ret r)) ;;
     IIO_ENSURE file 192 (negb (r_ret r =? NULL))
   else if argc =? 2 then
     r <- invoke (iio_create_context_from_uri (nth 1 argv "")) ;;
     set_glob (set_ctx (r_ret r)) ;;
     IIO_ENSURE file 195 (negb (r_ret r =? NULL))
   else ret tt) ;;
  g <- get_glob ;;
  n <- invoke (iio_context_get_devices_count (ctx g)) ;;
  IIO_ENSURE file 197 (0 <? r_ret n) ;;
  invoke_ (printf "* Acquiring AD7768 streaming devices\n" []) ;;
  d <- get_ad7768_stream_dev (ctx g) RX NULL ;;
  let rx := snd d in
  IIO_ENSURE file 200 (fst d) ;;
  invoke_ (printf "* Configuring AD7768 for streaming\n" []) ;;
  ok <- cfg_ad7768_streaming_ch (ctx g) RX CHANNEL_NUMBER ;;
  IIO_ENSURE file 203 ok ;;
  invoke_ (printf "* Initializing AD7768 IIO streaming channels\n" []) ;;
  c <- get_ad7768_stream_ch (ctx g) RX rx CHANNEL_NUMBER ;;
  set_glob (set_rxchan (snd c)) ;;
  IIO_ENSURE file 206 (fst c) ;;
  invoke_ (printf "* Enabling IIO streaming channels\n" []) ;;
  invoke_ (iio_channel_enable (snd c)) ;;
  invoke_ (printf "* Creating non-cyclic IIO buffers with 1 MiS\n" []) ;;
  b <- invoke (iio_device_create_buffer rx BUFFER_LENGTH false) ;;
  set_glob (set_rxbuf (r_ret b)) ;;
  (if r_ret b =? NULL then
     invoke_ (perror "Could not create RX buffer") ;;
     shutdown
   else ret tt) ;;
  invoke_ (printf "* Starting IO streaming (press CTRL+C to cancel)\n" []) ;;
  streaming fuel ;;
  @shutdown unit ;;
  ret 0.

End AD7768.

(** ** Code common to the two ADRV9002 examples

    [sig_handler], [register_signals] (the POSIX one), [cleanup] and
    [stream_channels_get_enable] are the same text in
    adrv9002-iiostream.c and adrv9002-iiostream-dds.c, up to the line
    numbers the macros [error] and [info] print. *)

Module ADRV.

(** The macros [GHZ] and [MHZ] *)
Definition GHZ (x : Q) : Z := Qfloor (x * 1000000000 + 0.5)%Q.
Definition MHZ (x : Q) : Z := Qfloor (x * 1000000 + 0.5)%Q.

(** The [double] 0.4, as its IEEE 754 bit pattern. *)
Definition double_0_4 : Z := 4600877379321698714.

Definition I_CHAN : nat := 0.
Definition Q_CHAN : nat := 1.

(** The globals [ctx], [rxbuf], [txbuf], [rx_chan] and [tx_chan]. *)
Record globals : Type := mkGlobals {
  ctx : Z;
  rxbuf : Z;
  txbuf : Z;
  rx_chan : list Z;
  tx_chan : list Z
}.

Definition globals0 : globals :=
  mkGlobals NULL NULL NULL [NULL; NULL] [NULL; NULL].

Definition set_ctx (p : Z) (g : globals) : globals :=
  mkGlobals p (rxbuf g) (txbuf g) (rx_chan g) (tx_chan g).
Definition set_rxbuf (p : Z) (g : globals) : globals :=
  mkGlobals (ctx g) p (txbuf g) (rx_chan g) (tx_chan g).

(** The two arrays of channels a [struct iio_channel **] can point to. *)
Inductive chan_array : Type := RX_CHAN | TX_CHAN.

Fixpoint upd (l : list Z) (i : nat) (v : Z) : list Z :=
  match l, i with
  | [], _ => []
  | _ :: l', O => v :: l'
  | x :: l', S i' => x :: upd l' i' v
  end.

(** [chan[c] = p] *)
Definition set_chan (a : chan_array) (c : nat) (p : Z) (g : globals) : globals :=
  match a with
  | RX_CHAN => mkGlobals (ctx g) (rxbuf g) (txbuf g) (upd (rx_chan g) c p) (tx_chan g)
  | TX_CHAN => mkGlobals (ctx g) (rxbuf g) (txbuf g) (rx_chan g) (upd (tx_chan g) c p)
  end.

(** The macros [error] and [info], expanded in function [func] at [line]. *)
Definition error (func : string) (line : Z) (fmt : string) (args : list parg) : call :=
  printf ("%s, %d: ERROR: " ++ fmt ++ "%s")%string
         (PStr func :: PInt line :: args ++ [PStr ""]).
Definition info (func : string) (line : Z) (fmt : string) (args : list parg) : call :=
  printf ("%s, %d: INFO: " ++ fmt ++ "%s")%string
         (PStr func :: PInt line :: args ++ [PStr ""]).

(** [sig_handler]; [line] is where its [info] stands. *)
Definition sig_handler (line : Z) (signum : Z) : list call * bool :=
  if (signum =? SIGINT) || (signum =? SIGTERM) then
    ([info "sig_handler" line "Exit....\n" []], true)
  else ([], false).

Section Program.

(** The line of the [info] of [sig_handler]. *)
Variable handler_line : Z.

Definition invoke (c : call) : M globals resp :=
  do_call (sig_handler handler_line) c.
Definition invoke_ (c : call) : M globals unit := invoke c ;; ret tt.

(** [register_signals]; the three [error]s stand at [l1], [l2], [l3]. *)
Definition register_signals (l1 l2 l3 : Z) : M globals Z :=
  r <- invoke (sigaction SIGTERM) ;;
  if r_ret r <? 0 then
    e <- invoke strerror_errno ;;
    invoke_ (error "register_signals" l1 "sigaction: %s\n" [PExt (r_ret e)]) ;;
    ret (-1)
  else
    install SIGTERM ;;
    r <- invoke (sigaction SIGINT) ;;
    if r_ret r <? 0 then
      e <- invoke strerror_errno ;;
      invoke_ (error "register_signals" l2 "sigaction: %s\n" [PExt (r_ret e)]) ;;
      ret (-1)
    else
      install SIGINT ;;
      r <- invoke (sigprocmask SIG_UNBLOCK [SIGINT; SIGTERM]) ;;
      if negb (r_ret r =? 0) then
        e <- invoke strerror_errno ;;
        invoke_ (error "register_signals" l3 "sigprocmask: %s" [PExt (r_ret e)]) ;;
        ret (-1)
      else ret 0.

(** The body of the loop of [cleanup] for one value of [c]. *)
Definition cleanup_chan (c : nat) : M globals unit :=
  g <- get_glob ;;
  (if nth c (rx_chan g) NULL =? NULL then ret tt
   else invoke_ (iio_channel_disable (nth c (rx_chan g) NULL))) ;;
  g <- get_glob ;;
  (if nth c (tx_chan g) NULL =? NULL then ret tt
   else invoke_ (iio_channel_disable (nth c (tx_chan g) NULL))).

(** [cleanup] *)
Definition cleanup : M globals unit :=
  g <- get_glob ;;
  (if rxbuf g =? NULL then ret tt else invoke_ (iio_buffer_destroy (rxbuf g))) ;;
  g <- get_glob ;;
  (if txbuf g =? NULL then ret tt else invoke_ (iio_buffer_destroy (txbuf g))) ;;
  cleanup_chan 0 ;;
  cleanup_chan 1 ;;
  g <- get_glob ;;
  invoke_ (iio_context_destroy (ctx g)).

Definition channels : list string :=
  ["voltage0_i"; "voltage0_q"; "voltage0"; "voltage1"].

(** The body of the loop of [stream_channels_get_enable] for one value
    of [c]: [Some v] when it executes [return v]. *)
Definition get_enable_chan (line : Z) (dev : Z) (chan : chan_array) (tx : bool) (c : nat)
  : M globals (option Z) :=
  let str := nth ((if tx then 1 else 0) * 2 + c) channels "" in
  r <- invoke (iio_device_find_channel dev str tx) ;;
  set_glob (set_chan chan c (r_ret r)) ;;
  if r_ret r =? NULL then
    invoke_ (error "stream_channels_get_enable" line
               "Could not find %s channel tx=%d\n"
               [PStr str; PInt (if tx then 1 else 0)]) ;;
    ret (Some (- ENODEV))
  else
    invoke_ (iio_channel_enable (r_ret r)) ;;
    ret None.

(** [stream_channels_get_enable]; its [error] stands at [line]. *)
Definition stream_channels_get_enable (line : Z) (dev : Z) (chan : chan_array) (tx : bool)
  : M globals Z :=
  r <- get_enable_chan line dev chan tx 0 ;;
  match r with
  | Some v => ret v
  | None =>
      r <- get_enable_chan line dev chan tx 1 ;;
      match r with
      | Some v => ret v
      | None => ret 0
      end
  end.

(** The use, by its caller, of the value of a call of a function that
    may reach its closing brace without a [return]: [None] is that
    case, and C gives the use no meaning. *)
Definition value_of (r : option Z) : M globals Z :=
  match r with
  | Some v => ret v
  | None => halt Undefined
  end.

End Program.

End ADRV.

(** ** examples/adrv9002-iiostream.c, with [TX_DAC_MODE] being 0 *)

Module ADRV9002.
Import ADRV.

Definition DAC_MODE_REGISTER : Z := 1048.
Definition TX_DAC_MODE : Z := 0.

Definition invoke : call -> M globals resp := ADRV.invoke 298.
Definition invoke_ : call -> M globals unit := ADRV.invoke_ 298.
Definition register_signals : M globals Z := ADRV.register_signals 298 313 318 326.
Definition cleanup : M globals unit := ADRV.cleanup 298.
Definition stream_channels_get_enable : Z -> chan_array -> bool -> M globals Z :=
  ADRV.stream_channels_get_enable 298 707.

(** [configure_trx_lo]: [Some v] when it executes [return v], [None] when
    control reaches its closing brace. *)
Definition configure_trx_lo : M globals (option Z) :=
  g <- get_glob ;;
  r <- invoke (iio_context_find_device (ctx g) "adrv9002-phy") ;;
  let phy := r_ret r in
  if phy =? NULL then
    invoke_ (error "configure_trx_lo" 343 "Could not find adrv9002_phy\n" []) ;;
    ret (Some (- ENODEV))
  else
  r <- invoke (iio_device_find_channel phy "voltage0" true) ;;
  let chan := r_ret r in
  if chan =? NULL then
    invoke_ (error "configure_trx_lo" 349 "Could not find TX voltage0 channel\n" []) ;;
    ret (Some (- ENODEV))
  else
  r <- invoke (iio_channel_attr_read_longlong chan "rf_bandwidth") ;;
  if negb (r_ret r =? 0) then ret (Some (r_ret r)) else
  invoke_ (info "configure_trx_lo" 358 "adrv9002 bandwidth: %lld\n"
             [PInt (nth 0 (r_out r) 0)]) ;;
  r <- invoke (iio_channel_attr_read_longlong chan "sampling_frequency") ;;
  if negb (r_ret r =? 0) then ret (Some (r_ret r)) else
  invoke_ (info "configure_trx_lo" 364 "adrv9002 sampling_frequency: %lld\n"
             [PInt (nth 0 (r_out r) 0)]) ;;
  let val := GHZ 2.5 in
  r <- invoke (iio_device_find_channel phy "altvoltage2" true) ;;
  let chan := r_ret r in
  if chan =? NULL then
    invoke_ (error "configure_trx_lo" 370 "Could not find TX LO channel\n" []) ;;
    ret (Some (- ENODEV))
  else
  r <- invoke (iio_channel_attr_write_longlong chan "TX1_LO_frequency" val) ;;
  if negb (r_ret r =? 0) then ret (Some (r_ret r)) else
  r <- invoke (iio_device_find_channel phy "altvoltage0" true) ;;
  let chan := r_ret r in
  if chan =? NULL then
    invoke_ (error "configure_trx_lo" 380 "Could not find RX LO channel\n" []) ;;
    ret (Some (- ENODEV))
  else
  r <- invoke (iio_channel_attr_write_longlong chan "RX1_LO_frequency" val) ;;
  if negb (r_ret r =? 0) then ret (Some (r_ret r)) else
  ret None.

(** The two branches of [dds_single_tone] differ by the names of the
    channels and the lines of the [error]s only. *)
Definition tone_channels (name_i name_q : string) (line_i line_q : Z)
    (tx freq_val scale_val : Z) : M globals Z :=
  r <- invoke (iio_device_find_channel tx name_i true) ;;
  let chan_i := r_ret r in
  if chan_i =? NULL then
    invoke_ (error "dds_single_tone" line_i
               ("Could not find TX " ++ name_i ++ " channel\n")%string []) ;;
    ret (- ENODEV)
  else
  r <- invoke (iio_channel_attr_write_longlong chan_i "frequency" freq_val) ;;
  if negb (r_ret r =? 0) then ret (r_ret r) else
  r <- invoke (iio_channel_attr_write_double chan_i "scale" scale_val) ;;
  if negb (r_ret r =? 0) then ret (r_ret r) else
  r <- invoke (iio_device_find_channel tx name_q true) ;;
  let chan_q := r_ret r in
  if chan_q =? NULL then
    invoke_ (error "dds_single_tone" line_q
               ("Could not find TX " ++ name_q ++ " channel\n")%string []) ;;
    ret (- ENODEV)
  else
  r <- invoke (iio_channel_attr_write_longlong chan_q "frequency" freq_val) ;;
  if negb (r_ret r =? 0) then ret (r_ret r) else
  r <- invoke (iio_channel_attr_write_double chan_q "scale" scale_val) ;;
  if negb (r_ret r =? 0) then ret (r_ret r) else
  invoke_ (iio_channel_enable chan_i) ;;
  invoke_ (iio_channel_enable chan_q) ;;
  ret 0.

(** [dds_single_tone] *)
Definition dds_single_tone (freq_val scale_val channel : Z) : M globals Z :=
  g <- get_glob ;;
  r <- invoke (iio_context_find_device (ctx g) "axi-adrv9002-tx-lpc") ;;
  let tx := r_ret r in
  if tx =? NULL then
    invoke_ (error "dds_single_tone" 414 "Could not find axi-adrv9002-tx-lpc\n" []) ;;
    ret (- ENODEV)
  else if channel =? 0 then
    tone_channels "altvoltage0" "altvoltage2" 422 437 tx freq_val scale_val
  else
    tone_channels "altvoltage4" "altvoltage6" 454 469 tx freq_val scale_val.

(** One of the four blocks of a branch of [dds_dual_tone]: the channel
    [name] is looked up and its frequency and scale are written, and its
    phase when it is a Q channel.  [inl v] when the block executes
    [return v], otherwise the channel. *)
Definition dual_part (name : string) (line : Z) (tx freq_val scale_val : Z) (q : bool)
  : M globals (Z + Z) :=
  r <- invoke (iio_device_find_channel tx name true) ;;
  let chan := r_ret r in
  if chan =? NULL then
    invoke_ (error "dds_dual_tone" line
               ("Could not find TX " ++ name ++ " channel\n")%string []) ;;
    ret (inl (- ENODEV))
  else
  r <- invoke (iio_channel_attr_write_longlong chan "frequency" freq_val) ;;
  if negb (r_ret r =? 0) then ret (inl (r_ret r)) else
  r <- invoke (iio_channel_attr_write_double chan "scale" scale_val) ;;
  if negb (r_ret r =? 0) then ret (inl (r_ret r)) else
  if q then
    r <- invoke (iio_channel_attr_write_longlong chan "phase" 90000) ;;
    if negb (r_ret r =? 0) then ret (inl (r_ret r)) else ret (inr chan)
  else ret (inr chan).

(** The two branches of [dds_dual_tone] differ by the names of the
    channels and the lines of the [error]s only: [chan_i] and [chan_q]
    are assigned twice, and hold the channels of the second tone at the
    end. *)
Definition dual_channels (i1 q1 i2 q2 : string) (lines : Z * Z * Z * Z)
    (tx freq_val1 scale_val1 freq_val2 scale_val2 : Z) : M globals Z :=
  let '(l1, l2, l3, l4) := lines in
  a <- dual_part i1 l1 tx freq_val1 scale_val1 false ;;
  match a with
  | inl v => ret v
  | inr _ =>
  b <- dual_part q1 l2 tx freq_val1 scale_val1 true ;;
  match b with
  | inl v => ret v
  | inr _ =>
  c <- dual_part i2 l3 tx freq_val2 scale_val2 false ;;
  match c with
  | inl v => ret v
  | inr chan_i =>
  d <- dual_part q2 l4 tx freq_val2 scale_val2 true ;;
  match d with
  | inl v => ret v
  | inr chan_q =>
      invoke_ (iio_channel_enable chan_i) ;;
      invoke_ (iio_channel_enable chan_q) ;;
      ret 0
  end end end end.

(** [dds_dual_tone], which [main] does not call. *)
Definition dds_dual_tone (freq_val1 scale_val1 freq_val2 scale_val2 channel : Z)
  : M globals Z :=
  g <- get_glob ;;
  r <- invoke (iio_context_find_device (ctx g) "axi-adrv9002-tx-lpc") ;;
  let tx := r_ret r in
  if tx =? NULL then
    invoke_ (error "dds_dual_tone" 522 "Could not find axi-adrv9002-tx-lpc\n" []) ;;
    ret (- ENODEV)
  else if channel =? 0 then
    dual_channels "altvoltage0" "altvoltage2" "altvoltage1" "altvoltage3"
                  (530, 545, 565, 580) tx freq_val1 scale_val1 freq_val2 scale_val2
  else
    dual_channels "altvoltage4" "altvoltage6" "altvoltage5" "altvoltage7"
                  (601, 616, 635, 650) tx freq_val1 scale_val1 freq_val2 scale_val2.

(** The loop of [stream] over the samples of the buffer of the library:
    [p_dat] advances by [step] elements of two bytes up to [p_end]. *)
Fixpoint swap_samples (fuel : nat) (p_dat p_end step : Z) : M globals unit :=
  if p_dat <? p_end then
    match fuel with
    | O => halt OutOfFuel
    | S fuel' =>
        i <- invoke (load_int16 p_dat) ;;
        q <- invoke (load_int16 (p_dat + 2)) ;;
        invoke_ (store_int16 p_dat (r_ret q)) ;;
        invoke_ (store_int16 (p_dat + 2) (r_ret i)) ;;
        a <- invoke (load_int16 p_dat) ;;
        b <- invoke (load_int16 (p_dat + 2)) ;;
        invoke_ (printf ("Voltage (Q) = %d" ++ tab ++ tab ++ "Voltage (I) = %d\n")%string
                   [PInt (r_ret a); PInt (r_ret b)]) ;;
        swap_samples fuel' (Int.unsigned 64 (p_dat + 2 * step)) p_end step
    end
  else ret tt.

(** The loop [while (!stop)] of [stream], cut after [fuel] iterations. *)
Fixpoint streaming (fuel inner : nat) : M globals unit :=
  match fuel with
  | O => halt OutOfFuel
  | S fuel' =>
      b <- test_stop ;;
      if b then ret tt
      else
        invoke_ (info "stream" 739
                   "Refilling RX buffer in 5 seconds. Press Ctrl+C to exit...\n" []) ;;
        invoke_ (sleep 5) ;;
        g <- get_glob ;;
        r <- invoke (iio_buffer_refill (rxbuf g)) ;;
        if r_ret r <? 0 then
          invoke_ (error "stream" 744 "Error refilling buf %zd\n" [PInt (r_ret r)])
        else
          p_inc <- invoke (iio_buffer_step (rxbuf g)) ;;
          p_end <- invoke (iio_buffer_end (rxbuf g)) ;;
          first <- invoke (iio_buffer_first (rxbuf g) (nth I_CHAN (rx_chan g) NULL)) ;;
          swap_samples inner (r_ret first) (r_ret p_end)
                       (Int.unsigned 64 (r_ret p_inc) / 2) ;;
          streaming fuel' inner
  end.

(** [stream] *)
Definition stream (fuel : nat) : M globals unit :=
  invoke_ (info "stream" 725 "* Starting IO streaming (press CTRL+C to cancel)\n" []) ;;
  streaming fuel fuel.

(** The label [clean] of [main]. *)
Definition clean (status : Z) : M globals Z := cleanup ;; ret status.

(** [main], from the test of the value [status] of [configure_trx_lo] on. *)
Definition main_from_lo (fuel : nat) (status : Z) : M globals Z :=
  if negb (status =? 0) then clean status else
  g <- get_glob ;;
  r <- invoke (iio_context_find_device (ctx g) "adrv9002-phy") ;;
  let phy := r_ret r in
  if phy =? NULL then clean EXIT_FAILURE else
  r <- invoke (iio_context_find_device (ctx g) "axi-adrv9002-tx-lpc") ;;
  let tx := r_ret r in
  if tx =? NULL then clean EXIT_FAILURE else
  invoke_ (iio_device_reg_write tx DAC_MODE_REGISTER TX_DAC_MODE) ;;
  rv <- invoke (iio_device_reg_read tx DAC_MODE_REGISTER) ;;
  invoke_ (printf "reg_val = 0x%x\n" [PInt (nth 0 (r_out rv) 0)]) ;;
  status <- dds_single_tone 5000 double_0_4 0 ;;
  if negb (status =? 0) then clean status else
  r <- invoke (iio_context_find_device (ctx g) "axi-adrv9002-rx-lpc") ;;
  let rx := r_ret r in
  if rx =? NULL then clean EXIT_FAILURE else
  status <- stream_channels_get_enable rx RX_CHAN false ;;
  if negb (status =? 0) then clean status else
  invoke_ (info "main" 861 "* Creating non-cyclic IIO buffers with 1 MiS\n" []) ;;
  b <- invoke (iio_device_create_buffer rx (1024 * 1024) false) ;;
  set_glob (set_rxbuf (r_ret b)) ;;
  if r_ret b =? NULL then
    e <- invoke strerror_errno ;;
    invoke_ (error "main" 864 "Could not create RX buffer: %s\n" [PExt (r_ret e)]) ;;
    clean EXIT_FAILURE
  else
  stream fuel ;;
  invoke_ (iio_device_debug_attr_write phy "tx0_ssi_test_mode_loopback_en" "0") ;;
  clean status.

Definition main (fuel : nat) (argc : Z) (argv : list string) : M globals Z :=
  r <- register_signals ;;
  if r <? 0 then ret EXIT_FAILURE else
  invoke_ (printf "* Acquiring IIO context\n" []) ;;
  (if argc =? 1 then
     r <- invoke iio_create_default_context ;;
     set_glob (set_ctx (r_ret r))
   else if argc =? 2 then
     r <- invoke (iio_create_context_from_uri (nth 1 argv "")) ;;
     set_glob (set_ctx (r_ret r))
   else ret tt) ;;
  g <- get_glob ;;
  if ctx g =? NULL then
    invoke_ (error "main" 805 "Could not create IIO context\n" []) ;;
    ret EXIT_FAILURE
  else
  lo <- configure_trx_lo ;;
  status <- value_of lo ;;
  main_from_lo fuel status.

End ADRV9002.

(** ** examples/adrv9002-iiostream-dds.c *)

Module ADRV9002_DDS.
Import ADRV.

Definition invoke : call -> M globals resp := ADRV.invoke 71.
Definition invoke_ : call -> M globals unit := ADRV.invoke_ 71.
Definition register_signals : M globals Z := ADRV.register_signals 71 86 91 99.
Definition cleanup : M globals unit := ADRV.cleanup 71.
Definition stream_channels_get_enable : Z -> chan_array -> bool -> M globals Z :=
  ADRV.stream_channels_get_enable 71 203.

(** [configure_trx_lo]: [Some v] when it executes [return v], [None] when
    control reaches its closing brace. *)
Definition configure_trx_lo : M globals (option Z) :=
  g <- get_glob ;;
  r <- invoke (iio_context_find_device (ctx g) "adrv9002-phy") ;;
  let phy := r_ret r in
  if phy =? NULL then
    invoke_ (error "configure_trx_lo" 116 "Could not find adrv9002_phy\n" []) ;;
    ret (Some (- ENODEV))
  else
  r <- invoke (iio_device_find_channel phy "voltage0" true) ;;
  if r_ret r =? NULL then
    invoke_ (error "configure_trx_lo" 122 "Could not find TX voltage0 channel\n" []) ;;
    ret (Some (- ENODEV))
  else
  r <- invoke (iio_device_find_channel phy "voltage1" true) ;;
  let chan := r_ret r in
  if chan =? NULL then
    invoke_ (error "configure_trx_lo" 128 "Could not find TX voltage1 channel\n" []) ;;
    ret (Some (- ENODEV))
  else
  r <- invoke (iio_channel_attr_read_longlong chan "rf_bandwidth") ;;
  if negb (r_ret r =? 0) then ret (Some (r_ret r)) else
  invoke_ (info "configure_trx_lo" 137 "adrv9002 bandwidth: %lld\n"
             [PInt (nth 0 (r_out r) 0)]) ;;
  r <- invoke (iio_channel_attr_read_longlong chan "sampling_frequency") ;;
  if negb (r_ret r =? 0) then ret (Some (r_ret r)) else
  invoke_ (info "configure_trx_lo" 143 "adrv9002 sampling_frequency: %lld\n"
             [PInt (nth 0 (r_out r) 0)]) ;;
  let val := GHZ 2.4 in
  r <- invoke (iio_device_find_channel phy "altvoltage2" true) ;;
  let chan := r_ret r in
  if chan =? NULL then
    invoke_ (error "configure_trx_lo" 150 "Could not find TX LO channel\n" []) ;;
    ret (Some (- ENODEV))
  else
  r <- invoke (iio_channel_attr_write_longlong chan "TX1_LO_frequency" val) ;;
  if negb (r_ret r =? 0) then ret (Some (r_ret r)) else
  r <- invoke (iio_device_find_channel phy "altvoltage0" true) ;;
  let chan := r_ret r in
  if chan =? NULL then
    invoke_ (error "configure_trx_lo" 160 "Could not find RX LO channel\n" []) ;;
    ret (Some (- ENODEV))
  else
  r <- invoke (iio_channel_attr_write_longlong chan "RX1_LO_frequency" val) ;;
  if negb (r_ret r =? 0) then ret (Some (r_ret r)) else
  ret None.

(** The configuration of one channel in [configure_tx_dds]: the values
    are written, read back and printed.  [inl v] when it executes
    [return v]; otherwise the channel and the values read back into
    [freq_val] and [scale_val]. *)
Definition tone_channel (name : string) (line_err line_freq line_scale : Z)
    (tx freq_val scale_val : Z) : M globals (Z + Z * Z * Z) :=
  r <- invoke (iio_device_find_channel tx name true) ;;
  let chan := r_ret r in
  if chan =? NULL then
    invoke_ (error "configure_tx_dds" line_err
               ("Could not find TX " ++ name ++ " channel\n")%string []) ;;
    ret (inl (- ENODEV))
  else
  r <- invoke (iio_channel_attr_write_longlong chan "frequency" freq_val) ;;
  if negb (r_ret r =? 0) then ret (inl (r_ret r)) else
  r <- invoke (iio_channel_attr_write_double chan "scale" scale_val) ;;
  if negb (r_ret r =? 0) then ret (inl (r_ret r)) else
  r <- invoke (iio_channel_attr_read_longlong chan "frequency") ;;
  if negb (r_ret r =? 0) then ret (inl (r_ret r)) else
  let freq_val := nth 0 (r_out r) 0 in
  invoke_ (info "configure_tx_dds" line_freq
             ("adrv9002 " ++ name ++ " frequency: %lld\n")%string [PInt freq_val]) ;;
  r <- invoke (iio_channel_attr_read_double chan "scale") ;;
  if negb (r_ret r =? 0) then ret (inl (r_ret r)) else
  let scale_val := nth 0 (r_out r) 0 in
  invoke_ (info "configure_tx_dds" line_scale
             ("adrv9002 " ++ name ++ " scale: %lf\n")%string [PDbl scale_val]) ;;
  ret (inr (chan, freq_val, scale_val)).

(** The two branches of [configure_tx_dds] differ by the names of the
    channels and the lines of the macros only. *)
Definition tone_channels (name_i name_q : string) (lines_i lines_q : Z * Z * Z)
    (tx freq_val scale_val : Z) : M globals Z :=
  let '(ei, fi, si) := lines_i in
  let '(eq, fq, sq) := lines_q in
  i <- tone_channel name_i ei fi si tx freq_val scale_val ;;
  match i with
  | inl v => ret v
  | inr (chan_i, freq_val, scale_val) =>
      q <- tone_channel name_q eq fq sq tx freq_val scale_val ;;
      match q with
      | inl v => ret v
      | inr (chan_q, _, _) =>
          invoke_ (iio_channel_enable chan_i) ;;
          invoke_ (iio_channel_enable chan_q) ;;
          ret 0
      end
  end.

(** [configure_tx_dds] *)
Definition configure_tx_dds (freq_val scale_val channel : Z) : M globals Z :=
  g <- get_glob ;;
  r <- invoke (iio_context_find_device (ctx g) "axi-adrv9002-tx-lpc") ;;
  let tx := r_ret r in
  if tx =? NULL then
    invoke_ (error "configure_tx_dds" 222 "Could not find axi-adrv9002-tx-lpc\n" []) ;;
    ret (- ENODEV)
  else if channel =? 0 then
    tone_channels "altvoltage0" "altvoltage2" (230, 247, 253) (258, 275, 281)
                  tx freq_val scale_val
  else
    tone_channels "altvoltage4" "altvoltage6" (287, 304, 310) (315, 332, 338)
                  tx freq_val scale_val.

(** The loop of [stream] over the samples of the buffer of the library;
    [print_val] is [false]. *)
Fixpoint swap_samples (fuel : nat) (p_dat p_end step : Z) : M globals unit :=
  if p_dat <? p_end then
    match fuel with
    | O => halt OutOfFuel
    | S fuel' =>
        i <- invoke (load_int16 p_dat) ;;
        q <- invoke (load_int16 (p_dat + 2)) ;;
        invoke_ (store_int16 p_dat (r_ret q)) ;;
        invoke_ (store_int16 (p_dat + 2) (r_ret i)) ;;
        swap_samples fuel' (Int.unsigned 64 (p_dat + 2 * step)) p_end step
    end
  else ret tt.

(** The loop [while (!stop)] of [stream], cut after [fuel] iterations. *)
Fixpoint streaming (fuel inner : nat) : M globals unit :=
  match fuel with
  | O => halt OutOfFuel
  | S fuel' =>
      b <- test_stop ;;
      if b then ret tt
      else
        g <- get_glob ;;
        r <- invoke (iio_buffer_refill (rxbuf g)) ;;
        if r_ret r <? 0 then
          invoke_ (error "stream" 363 "Error refilling buf %zd\n" [PInt (r_ret r)])
        else
          invoke_ (info "stream" 367 "Buffer refilled\n" []) ;;
          p_inc <- invoke (iio_buffer_step (rxbuf g)) ;;
          p_end <- invoke (iio_buffer_end (rxbuf g)) ;;
          first <- invoke (iio_buffer_first (rxbuf g) (nth I_CHAN (rx_chan g) NULL)) ;;
          swap_samples inner (r_ret first) (r_ret p_end)
                       (Int.unsigned 64 (r_ret p_inc) / 2) ;;
          invoke_ (info "stream" 385
                     "Refilling RX buffer in 5 seconds. Press Ctrl+C to exit...\n" []) ;;
          invoke_ (sleep 5) ;;
          streaming fuel' inner
  end.

(** [stream] *)
Definition stream (fuel : nat) : M globals unit :=
  invoke_ (info "stream" 354 "* Starting IO streaming (press CTRL+C to cancel)\n" []) ;;
  invoke_ (sleep 5) ;;
  streaming fuel fuel.

(** The label [clean] of [main]. *)
Definition clean (status : Z) : M globals Z := cleanup ;; ret status.

(** [main], from the test of the value [status] of [configure_trx_lo] on. *)
Definition main_from_lo (fuel : nat) (status : Z) : M globals Z :=
  if negb (status =? 0) then clean status else
  status <- configure_tx_dds 5000 double_0_4 0 ;;
  if negb (status =? 0) then clean status else
  g <- get_glob ;;
  r <- invoke (iio_context_find_device (ctx g) "axi-adrv9002-rx-lpc") ;;
  let rx := r_ret r in
  if rx =? NULL then clean EXIT_FAILURE else
  status <- stream_channels_get_enable rx RX_CHAN false ;;
  if negb (status =? 0) then clean status else
  invoke_ (info "main" 443 "* Creating non-cyclic IIO buffers with 1 MiS\n" []) ;;
  b <- invoke (iio_device_create_buffer rx (1024 * 1024) false) ;;
  set_glob (set_rxbuf (r_ret b)) ;;
  if r_ret b =? NULL then
    e <- invoke strerror_errno ;;
    invoke_ (error "main" 446 "Could not create RX buffer: %s\n" [PExt (r_ret e)]) ;;
    clean EXIT_FAILURE
  else
  stream fuel ;;
  clean status.

Definition main (fuel : nat) (argc : Z) (argv : list string) : M globals Z :=
  r <- register_signals ;;
  if r <? 0 then ret EXIT_FAILURE else
  (if argc =? 1 then
     r <- invoke iio_create_default_context ;;
     set_glob (set_ctx (r_ret r))
   else if argc =? 2 then
     r <- invoke (iio_create_context_from_uri (nth 1 argv "")) ;;
     set_glob (set_ctx (r_ret r))
   else ret tt) ;;
  g <- get_glob ;;
  if ctx g =? NULL then
    invoke_ (error "main" 413 "Could not create IIO context\n" []) ;;
    ret EXIT_FAILURE
  else
  lo <- configure_trx_lo ;;
  status <- value_of lo ;;
  main_from_lo fuel status.

End ADRV9002_DDS.

(** ** Reading traces *)

Definition call_of (e : event) : option call :=
  match e with
  | Ecall c _ _ => Some c
  | Etest_stop _ => None
  end.

(** The calls of a list of events, in the order of the list. *)
Fixpoint calls (h : list event) : list call :=
  match h with
  | [] => []
  | Ecall c _ _ :: h' => c :: calls h'
  | Etest_stop _ :: h' => calls h'
  end.

(** The calls into the IIO library. *)
Definition is_iio (c : call) : bool :=
  match c with
  | iio_create_default_context | iio_create_context_from_uri _
  | iio_context_get_devices_count _ | iio_context_find_device _ _
  | iio_context_destroy _ | iio_device_find_channel _ _ _
  | iio_device_reg_write _ _ _ | iio_device_reg_read _ _
  | iio_device_debug_attr_write _ _ _ | iio_device_create_buffer _ _ _
  | iio_channel_attr_read_longlong _ _ | iio_channel_attr_write_longlong _ _ _
  | iio_channel_attr_read_double _ _ | iio_channel_attr_write_double _ _ _
  | iio_channel_enable _ | iio_channel_disable _
  | iio_channel_get_data_format _ | iio_channel_get_id _
  | iio_channel_read_raw _ _ _ _ | iio_buffer_destroy _ | iio_buffer_refill _
  | iio_buffer_step _ | iio_buffer_end _ | iio_buffer_first _ _ => true
  | _ => false
  end.

(** The calls that release a handle. *)
Definition is_teardown (c : call) : bool :=
  match c with
  | iio_buffer_destroy _ | iio_channel_disable _ | iio_context_destroy _ => true
  | _ => false
  end.

(** The calls that create a context. *)
Definition is_creation (c : call) : bool :=
  match c with
  | iio_create_default_context | iio_create_context_from_uri _ => true
  | _ => false
  end.

(** The reads and writes of attributes of a channel. *)
Definition is_attr (c : call) : bool :=
  match c with
  | iio_channel_attr_read_longlong _ _ | iio_channel_attr_write_longlong _ _ _
  | iio_channel_attr_read_double _ _ | iio_channel_attr_write_double _ _ _ => true
  | _ => false
  end.

(** An event that is neither the test of the flag nor a call into the IIO
    library. *)
Definition inert (e : event) : bool :=
  match e with
  | Ecall c _ _ => negb (is_iio c)
  | Etest_stop _ => false
  end.

(** Whether the handler set the flag during an event of the list. *)
Definition flagged (h : list event) : bool :=
  existsb (fun e => match e with
                    | Ecall _ _ ran => sets_stop ran
                    | Etest_stop _ => false
                    end) h.

(** A way for a process to end by itself. *)
Definition ended (o : outcome) : Prop :=
  match o with
  | Exited _ | Aborted => True
  | Undefined | OutOfFuel => False
  end.

(** ** Statements on runs *)

(** *** Context creation *)

(** The calls that create a context, for the arguments of [main]. *)
Definition context_calls (argc : Z) (argv : list string) : list call :=
  if argc =? 1 then [iio_create_default_context]
  else if argc =? 2 then [iio_create_context_from_uri (nth 1 argv "")]
  else [].

(** The calls of a list of events that [f] selects. *)
Fixpoint select (f : call -> bool) (h : list event) : list call :=
  match h with
  | [] => []
  | Ecall c _ _ :: h' => if f c then c :: select f h' else select f h'
  | Etest_stop _ :: h' => select f h'
  end.

(** The context creations of a list of events. *)
Definition creations (h : list event) : list call := select is_creation h.

(** The calls into the IIO library of a list of events. *)
Definition iio_calls (h : list event) : list call := select is_iio h.

(** *** Failures *)

(** The calls that return a handle, [NULL] on failure. *)
Definition returns_handle (c : call) : bool :=
  match c with
  | iio_create_default_context | iio_create_context_from_uri _
  | iio_context_find_device _ _ | iio_device_find_channel _ _ _
  | iio_device_create_buffer _ _ _ => true
  | _ => false
  end.

(** The calls that return a code, negative on failure. *)
Definition returns_code (c : call) : bool :=
  match c with
  | iio_device_reg_write _ _ _ | iio_device_reg_read _ _
  | iio_device_debug_attr_write _ _ _
  | iio_channel_attr_read_longlong _ _ | iio_channel_attr_write_longlong _ _ _
  | iio_channel_attr_read_double _ _ | iio_channel_attr_write_double _ _ _
  | iio_buffer_refill _ => true
  | _ => false
  end.

(** The answer [r] to the call [c] tells a failure. *)
Definition failed (c : call) (r : resp) : bool :=
  (returns_handle c && (r_ret r =? NULL)) || (returns_code c && (r_ret r <? 0)).

(** The accesses to registers and to debug attributes. *)
Definition is_register_access (c : call) : bool :=
  match c with
  | iio_device_reg_write _ _ _ | iio_device_reg_read _ _
  | iio_device_debug_attr_write _ _ _ => true
  | _ => false
  end.

Definition is_debug_write (c : call) : bool :=
  match c with
  | iio_device_debug_attr_write _ _ _ => true
  | _ => false
  end.

Definition every_call (c : call) : bool := true.
Definition no_call (c : call) : bool := false.
Definition checked_call (c : call) : bool := negb (is_register_access c).

(** What may follow a failure: calls outside of the IIO library, the
    calls that release a handle, and the calls [extra] allows. *)
Definition after_failure (extra : call -> bool) (e : event) : bool :=
  match e with
  | Ecall c _ _ => negb (is_iio c) || is_teardown c || extra c
  | Etest_stop _ => false
  end.

(** The run with history [h] and outcome [o] stops at the failures of the
    calls [watched]: the process ends, and after the failure nothing
    happened but what [after_failure] allows. *)
Definition stops_at_failures (watched extra : call -> bool)
    (h : list event) (o : outcome) : Prop :=
  forall pre c r ran post,
    h = pre ++ Ecall c r ran :: post ->
    watched c = true -> failed c r = true ->
    ended o /\ Forall (fun e => after_failure extra e = true) post.

(** The same as a machine reading the events one after the other. *)
Inductive fstate : Type := Clean | Failed | Broken.

Definition fstep (watched extra : call -> bool) (st : fstate) (e : event) : fstate :=
  match st with
  | Clean =>
      match e with
      | Ecall c r _ => if watched c && failed c r then Failed else Clean
      | Etest_stop _ => Clean
      end
  | Failed => if after_failure extra e then Failed else Broken
  | Broken => Broken
  end.

(** *** The streaming loop *)

(** Where a run is with respect to its streaming loop: [Idle] before the
    test of the flag, [Tested] when the test found the flag unset and the
    buffer has not been refilled yet, [Stopped torn] once a test found the
    flag set, [torn] telling whether the buffer was destroyed since;
    [Wrong] is for the runs that do not follow that course. *)
Inductive phase : Type := Idle | Tested | Stopped (torn : bool) | Wrong.

(** The machine that follows a run: the phase, and whether the handler has
    set the flag. *)
Definition lstep (st : phase * bool) (e : event) : phase * bool :=
  let (ph, set) := st in
  match e with
  | Etest_stop b =>
      if set && negb b then (Wrong, set)
      else match ph with
           | Idle => (if b then Stopped false else Tested, set)
           | _ => (Wrong, set)
           end
  | Ecall c _ ran =>
      (match c with
       | iio_buffer_refill _ =>
           match ph with
           | Tested => Idle
           | _ => Wrong
           end
       | iio_buffer_destroy _ =>
           match ph with
           | Stopped _ => Stopped true
           | _ => ph
           end
       | _ => ph
       end,
       sets_stop ran || set)
  end.

(** A machine run on the events in the order they happened, and on a trace. *)
Definition observe {St : Type} (step : St -> event -> St) (init : St)
    (h : list event) : St :=
  fold_left step h init.

Definition seen {St : Type} (step : St -> event -> St) (init : St)
    (tr : list event) : St :=
  fold_right (fun e st => step st e) init tr.

(** What the claim on the loop asks of the end of a run. *)
Definition loop_respected (st : phase * bool) (o : outcome) : Prop :=
  match fst st with
  | Wrong => False
  | Stopped torn => torn = true /\ o = Exited 0
  | Idle | Tested => True
  end.

(** *** Exit status *)

(** The status is the code a read or a write of an attribute returned. *)
Definition attr_code (status : Z) (h : list event) : bool :=
  existsb (fun e => match e with
                    | Ecall c r _ => is_attr c && (r_ret r =? status)
                    | Etest_stop _ => false
                    end) h.

(** ** Reasoning on programs: what holds after a computation *)

(** [wp m w s Q]: running [m] in the environment [w] from the state [s]
    gives a result and a state that satisfy [Q]. *)
Inductive wp {G A : Type} (m : M G A) (w : world) (s : pstate G)
    (Q : res A -> pstate G -> Prop) : Prop :=
| wp_intro (H : Q (fst (m w s)) (snd (m w s))).

(** What a loop that makes no call into the IIO library leaves: [ext]
    newer events, none of them such a call or a test of the flag, and a
    result that [ok] accepts. *)
Definition framed {G A : Type} (ok : res A -> Prop) (s : pstate G)
    (Q : res A -> pstate G -> Prop) : Prop :=
  forall ext clk r,
    forallb inert ext = true -> ok r ->
    Q r (mkState (glob s) (flagged ext || stop s) (handled s) (ext ++ trace s) clk).

Definition undefined_or_val {A : Type} (r : res A) : Prop :=
  match r with
  | Val _ => True
  | Stop o => o = Undefined
  end.

Definition out_of_fuel_or_val {A : Type} (r : res A) : Prop :=
  match r with
  | Val _ => True
  | Stop o => o = OutOfFuel
  end.

(** ** Statements on [get_ch_name] *)

(** What [get_ch_name] stores in [tmpstr]: the text cut to 63 characters,
    a NUL, and what the array held after it. *)
Definition stored_name (text : list ascii) (old : list ascii) : list ascii :=
  firstn 63 text ++ Libc.nul :: skipn (S (Nat.min (List.length text) 63)) old.

(** ** Statements on the printing of samples *)

(** The numbers from 0 to [count - 1]. *)
Definition indices (count : Z) : list Z := map Z.of_nat (seq 0 (Z.to_nat count)).

(** The call that prints sample [k] of the AD4630, whose raw word is [raw k]. *)
Definition ad4630_line (raw : Z -> Z) (k : Z) : call :=
  printf "Buffer Sample: %ld\tCH0: 0x%x\n"
         [PInt k; PInt (Z.shiftr (Int.signed 32 (raw k mod 2 ^ 32)) 16)].

(** The call that prints sample [k] of the AD7768, whose raw word is [raw k]. *)
Definition ad7768_line (raw : Z -> Z) (k : Z) : call :=
  printf "%d " [PInt (Int.signed 32 (Int.signed 32 (raw k) * 256))].

(** ** Data for examples *)

(** An environment where every call returns [ret] and nothing else happens. *)
Definition quiet_world (ret : Z) : world := fun _ _ => mkResp ret [] [].

(** A block of two samples of 64 bits, and their raw words. *)
Definition two_samples : Mem.buffer :=
  map Some [1; 2; 3; 4; 5; 6; 7; 8; 0; 0; 0; 128; 0; 0; 0; 0].

Definition two_words (k : Z) : Z :=
  if k =? 0 then 578437695752307201 else 2147483648.

(** A block of two samples of 32 bits, and their raw words. *)
Definition two_samples32 : Mem.buffer := map Some [1; 2; 3; 4; 0; 0; 0; 128].

Definition two_words32 (k : Z) : Z :=
  if k =? 0 then 67305985 else 2147483648.

(** An environment where every lookup finds its object and every other
    call returns 0. *)
Definition all_found : world :=
  fun _ c => mkResp (if returns_handle c then 1 else 0) [] [].

(** A state of the ADRV9002 examples where the context has been created. *)
Definition with_context : pstate ADRV.globals :=
  initial (ADRV.set_ctx 1 ADRV.globals0).

(** ** Statements on teardown *)

(** The release of the handle [p] by the call [c]: none for [NULL]. *)
Definition release (p : Z) (c : Z -> call) : list call :=
  if p =? NULL then [] else [c p].

(** The calls of [shutdown] into the IIO library, in their order. *)
Definition adc_released (g : ADC.globals) : list call :=
  release (ADC.rxbuf g) iio_buffer_destroy
  ++ release (ADC.rxchan g) iio_channel_disable
  ++ release (ADC.ctx g) iio_context_destroy.

(** The calls of [cleanup] into the IIO library, in their order. *)
Definition adrv_released (g : ADRV.globals) : list call :=
  release (ADRV.rxbuf g) iio_buffer_destroy
  ++ release (ADRV.txbuf g) iio_buffer_destroy
  ++ release (nth 0 (ADRV.rx_chan g) NULL) iio_channel_disable
  ++ release (nth 0 (ADRV.tx_chan g) NULL) iio_channel_disable
  ++ release (nth 1 (ADRV.rx_chan g) NULL) iio_channel_disable
  ++ release (nth 1 (ADRV.tx_chan g) NULL) iio_channel_disable
  ++ [iio_context_destroy (ADRV.ctx g)].

(** *** Context creation by the programs *)

(** The claim on the creation of the context, for the function [main] of a
    program and its globals [g0] at the start: whatever the environment
    and the arguments, the creations of the run are those the arguments
    ask for. *)
Definition creates_as_asked {G : Type} (main : nat -> Z -> list string -> M G Z)
    (g0 : G) : Prop :=
  forall (w : world) (fuel : nat) (argc : Z) (argv : list string),
    creations (history (snd (run (main fuel argc argv) g0 w)))
    = context_calls argc argv.

(** The first three answers of the environment to [register_signals]
    called at the time [n]. *)
Definition sigterm_answer (w : world) (n : nat) : resp := w n (sigaction SIGTERM).
Definition sigint_answer (w : world) (n : nat) : resp := w (S n) (sigaction SIGINT).
Definition unblock_answer (w : world) (n : nat) : resp :=
  w (S (S n)) (sigprocmask SIG_UNBLOCK [SIGINT; SIGTERM]).

(** The registration succeeds. *)
Definition registration_succeeds (w : world) (n : nat) : Prop :=
  0 <= r_ret (sigterm_answer w n) /\ 0 <= r_ret (sigint_answer w n)
  /\ r_ret (unblock_answer w n) = 0.

(** What holds of the context creations of a run of an ADRV9002 example:
    when the registration of the signal handlers succeeded ([registered])
    they are those the arguments ask for; when it failed there is none,
    the run ended with [EXIT_FAILURE] and made no call into the IIO
    library. *)
Definition adrv_creations (registered : Prop) (argc : Z) (argv : list string)
    (o : outcome) (tr : list event) : Prop :=
  (registered -> creations tr = context_calls argc argv)
  /\ (~ registered ->
      creations tr = [] /\ o = Exited EXIT_FAILURE /\ iio_calls tr = []).

(** The same for the [main] of an ADRV9002 example, whose first calls are
    those of [register_signals]. *)
Definition creates_unless_unregistered
    (main : nat -> Z -> list string -> M ADRV.globals Z) : Prop :=
  forall (w : world) (fuel : nat) (argc : Z) (argv : list string),
    let out := run (main fuel argc argv) ADRV.globals0 w in
    adrv_creations (registration_succeeds w 0) argc argv (fst out) (history (snd out)).

(** *** Exit status of the programs *)

(** The claim on the exit status: 0 or [EXIT_FAILURE] when the process
    exits. *)
Definition status_as_claimed (o : outcome) : Prop :=
  match o with
  | Exited v => v = 0 \/ v = EXIT_FAILURE
  | Aborted | Undefined | OutOfFuel => True
  end.

(** What the AD4630, AD4696 and AD7768 examples do: they abort, or exit
    with status 0. *)
Definition ad_status (o : outcome) : Prop :=
  match o with
  | Exited v => v = 0
  | Aborted | Undefined | OutOfFuel => True
  end.

(** The values [main] returns in the ADRV9002 examples, in a run with
    the events [h]. *)
Definition adrv_value (v : Z) (h : list event) : Prop :=
  v = 0 \/ v = EXIT_FAILURE \/ v = - ENODEV \/ (v <> 0 /\ attr_code v h = true).

(** What the ADRV9002 examples do: they never abort, and exit with one
    of these values. *)
Definition adrv_status (o : outcome) (h : list event) : Prop :=
  match o with
  | Exited v => adrv_value v h
  | Aborted => False
  | Undefined | OutOfFuel => True
  end.

(** The same for [main] from the test of the value [status] of
    [configure_trx_lo] on, in a run with the events [h] from there. *)
Definition adrv_status_from (status : Z) (o : outcome) (h : list event) : Prop :=
  match o with
  | Exited v => if status =? 0 then adrv_value v h else v = status
  | Aborted => False
  | Undefined | OutOfFuel => True
  end.

(** The trace [tr'] is the trace [tr] with newer events. *)
Definition extends (tr tr' : list event) : Prop := exists ext, tr' = ext ++ tr.

(** An environment where the context is created and no device is found. *)
Definition no_device : world :=
  fun _ c => mkResp (if is_creation c then 1 else 0) [] [].

(** The status of the examples for the AD converters. *)
Definition ad_result {A : Type} (r : res A) : Prop :=
  match r with
  | Val _ => True
  | Stop o => ad_status o
  end.

(** The value of [main] from the test of [status] on. *)
Definition value_from (status : Z) (r : res Z) (tr : list event) : Prop :=
  match r with
  | Val v => if status =? 0 then adrv_value v tr else v = status
  | Stop o => o = OutOfFuel
  end.

(** The claim on the exit status, for the function [main] of a program
    and its globals [g0] at the start. *)
Definition exits_as_claimed {G : Type} (main : nat -> Z -> list string -> M G Z)
    (g0 : G) : Prop :=
  forall (w : world) (fuel : nat) (argc : Z) (argv : list string),
    status_as_claimed (fst (run (main fuel argc argv) g0 w)).

(** What the code does, for the [main] of an example for an AD converter,
    for the [main] of an ADRV9002 example, and for the part of that
    [main] that follows [configure_trx_lo]. *)
Definition exits_ad (main : nat -> Z -> list string -> M ADC.globals Z) : Prop :=
  forall (w : world) (fuel : nat) (argc : Z) (argv : list string),
    ad_status (fst (run (main fuel argc argv) ADC.globals0 w)).

Definition exits_adrv (main : nat -> Z -> list string -> M ADRV.globals Z) : Prop :=
  forall (w : world) (fuel : nat) (argc : Z) (argv : list string),
    let out := run (main fuel argc argv) ADRV.globals0 w in
    adrv_status (fst out) (history (snd out)).

Definition exits_adrv_from (rest : nat -> Z -> M ADRV.globals Z) : Prop :=
  forall (w : world) (s : pstate ADRV.globals) (fuel : nat) (status : Z),
    let out := run_from (rest fuel status) w s in
    adrv_status_from status (fst out) (history (snd out)).

(** *** Failures in the programs *)

(** The end of a run whose events took the machine of the failures to
    the state [st]. *)
Definition failure_handled (st : fstate) (o : outcome) : Prop :=
  match st with
  | Clean => True
  | Failed => ended o
  | Broken => False
  end.

(** The claim on the failures of the calls [watched], for the function
    [main] of a program and its globals [g0] at the start. *)
Definition fails_safe {G : Type} (watched extra : call -> bool)
    (main : nat -> Z -> list string -> M G Z) (g0 : G) : Prop :=
  forall (w : world) (fuel : nat) (argc : Z) (argv : list string),
    let out := run (main fuel argc argv) g0 w in
    stops_at_failures watched extra (history (snd out)) (fst out).

(** The same for the part of [main] that follows [configure_trx_lo], from
    a state no watched call has failed before. *)
Definition fails_safe_from (watched extra : call -> bool)
    (rest : nat -> Z -> M ADRV.globals Z) : Prop :=
  forall (w : world) (s : pstate ADRV.globals) (fuel : nat) (status : Z),
    observe (fstep watched extra) Clean (history s) = Clean ->
    let out := run_from (rest fuel status) w s in
    stops_at_failures watched extra (history (snd out)) (fst out).

(** An environment where the write of a register fails, no buffer can be
    created, and every other call returns 1. *)
Definition write_refused : world :=
  fun _ c =>
    mkResp (match c with
            | iio_device_reg_write _ _ _ => -1
            | iio_device_create_buffer _ _ _ => NULL
            | _ => 1
            end) [] [].

(** What a loop of an example for an AD converter leaves. *)
Definition ad_failure_post {A : Type} (st : fstate) (r : res A) : Prop :=
  match st with
  | Clean => True
  | Failed => match r with
              | Stop o => ended o
              | Val _ => False
              end
  | Broken => False
  end.

(** What a loop of an ADRV9002 example, and [main] from the test of the
    value of [configure_trx_lo] on, leave. *)
Definition adrv_failure_post {A : Type} (st : fstate) (r : res A) : Prop :=
  match st with
  | Clean => out_of_fuel_or_val r
  | Failed => match r with
              | Val _ => True
              | Stop _ => False
              end
  | Broken => False
  end.

(** ** Statements on the functions of the examples *)

(** All the calls of [shutdown], in their order. *)
Definition shutdown_calls (g : ADC.globals) : list call :=
  printf "* Destroying buffers\n" [] :: release (ADC.rxbuf g) iio_buffer_destroy
  ++ printf "* Disabling streaming channels\n" []
     :: release (ADC.rxchan g) iio_channel_disable
  ++ printf "* Destroying context\n" [] :: release (ADC.ctx g) iio_context_destroy.

(** The events [added] are what the state [s'] has more than [s]. *)
Definition adds {G : Type} (s s' : pstate G) (added : list event) : Prop :=
  history s' = history s ++ added.

(** The message of [errchk]. *)
Definition errchk_message (v : Z) (what : string) : call :=
  fprintf_stderr
    ("Error %d reading channel \" ++ dquote ++ "%s\" ++ dquote
     ++ "\nvalue may not be supported.\n")%string
    [PInt v; PStr what].

(** The name of the channel [c] of [stream_channels_get_enable]. *)
Definition stream_channel_name (tx : bool) (c : nat) : string :=
  nth ((if tx then 1 else 0) * 2 + c) ADRV.channels "".

(** The calls that enable a channel. *)
Definition is_enable (c : call) : bool :=
  match c with
  | iio_channel_enable _ => true
  | _ => false
  end.

(** The names of the channels I and Q of [dds_single_tone] and
    [configure_tx_dds]. *)
Definition tone_names (channel : Z) : string * string :=
  if channel =? 0 then ("altvoltage0", "altvoltage2") else ("altvoltage4", "altvoltage6").

(** The names of the channels I and Q of the first and of the second
    tone of [dds_dual_tone]. *)
Definition dual_names (channel : Z) : (string * string) * (string * string) :=
  if channel =? 0 then (("altvoltage0", "altvoltage2"), ("altvoltage1", "altvoltage3"))
  else (("altvoltage4", "altvoltage6"), ("altvoltage5", "altvoltage7")).

(** The lines of the macros of [configure_tx_dds], for the channels I and
    Q: the [error], and the two [info]s. *)
Definition dds_lines (channel : Z) : (Z * Z * Z) * (Z * Z * Z) :=
  if channel =? 0 then ((230, 247, 253), (258, 275, 281))
  else ((287, 304, 310), (315, 332, 338)).

(** The write of the phase of a Q channel by [dds_dual_tone]. *)
Definition phase_write (chan : Z) : call :=
  iio_channel_attr_write_longlong chan "phase" 90000.

(** *** Functions that return at the first failure *)

(** A step of a function that configures the device: a lookup, which
    fails when it returns [NULL] and is then followed by the message
    [msg]; an access to an attribute, which fails when it returns another
    code than 0; or a call whose value is not looked at. *)
Inductive step : Type :=
| Lookup (c msg : call)
| Access (c : call)
| Plain (c : call).

(** A call made, before what follows it. *)
Definition after (c : call) (p : option Z * list call) : option Z * list call :=
  (fst p, c :: snd p).

(** The steps of [plan] taken one after the other in the environment [w]
    from the time [n], up to the first one that fails: the value that is
    returned there, [-ENODEV] for a lookup and its code for an access, or
    [None] when no step failed; and the calls made on the way. *)
Fixpoint follow (w : world) (n : nat) (plan : list step) : option Z * list call :=
  match plan with
  | [] => (None, [])
  | Lookup c msg :: rest =>
      if r_ret (w n c) =? NULL then (Some (- ENODEV), [c; msg])
      else after c (follow w (S n) rest)
  | Access c :: rest =>
      if negb (r_ret (w n c) =? 0) then (Some (r_ret (w n c)), [c])
      else after c (follow w (S n) rest)
  | Plain c :: rest => after c (follow w (S n) rest)
  end.

(** The value of a function of type [int] that returns 0 at its end. *)
Definition status_of (r : option Z) : Z :=
  match r with
  | Some v => v
  | None => 0
  end.

(** What a call stored through its pointer, at the time [n]. *)
Definition stored (w : world) (n : nat) (c : call) : Z := nth 0 (r_out (w n c)) 0.

(** The lookup of the channel [name] of the device [tx] by the function
    [func], whose message stands at [line], and the writes of its
    frequency and of its scale; [chan] is the channel. *)
Definition tone_steps (func : string) (line tx : Z) (name : string)
    (chan freq_val scale_val : Z) : list step :=
  [Lookup (iio_device_find_channel tx name true)
          (ADRV.error func line ("Could not find TX " ++ name ++ " channel\n")%string []);
   Access (iio_channel_attr_write_longlong chan "frequency" freq_val);
   Access (iio_channel_attr_write_double chan "scale" scale_val)].

(** The lookup of the device of the DDS, and that lookup as a step of the
    function [func], whose message stands at [line]. *)
Definition find_dds (ctx : Z) : call := iio_context_find_device ctx "axi-adrv9002-tx-lpc".

Definition dds_step (func : string) (line ctx : Z) : step :=
  Lookup (find_dds ctx) (ADRV.error func line "Could not find axi-adrv9002-tx-lpc\n" []).

(** The lines of the messages of [dds_single_tone] for the channels I and Q. *)
Definition tone_lines (channel : Z) : Z * Z :=
  if channel =? 0 then (422, 437) else (454, 469).

(** The steps of [dds_single_tone], for the device [tx] and the
    channels [chan_i] and [chan_q], of the names [names]; the messages
    stand at [lines]. *)
Definition single_tone_plan (names : string * string) (lines : Z * Z)
    (ctx tx chan_i chan_q freq_val scale_val : Z) : list step :=
  dds_step "dds_single_tone" 414 ctx
  :: tone_steps "dds_single_tone" (fst lines) tx (fst names) chan_i freq_val scale_val
  ++ tone_steps "dds_single_tone" (snd lines) tx (snd names) chan_q freq_val scale_val
  ++ [Plain (iio_channel_enable chan_i); Plain (iio_channel_enable chan_q)].

(** The lines of the messages of [dds_dual_tone] for the channels I and Q
    of the first tone and of the second one. *)
Definition dual_lines (channel : Z) : (Z * Z) * (Z * Z) :=
  if channel =? 0 then ((530, 545), (565, 580)) else ((601, 616), (635, 650)).

(** The steps of [dds_dual_tone], for the device [tx] and the channels
    [i1], [q1] of the first tone and [i2], [q2] of the second one. *)
Definition dual_tone_plan (names : (string * string) * (string * string))
    (lines : (Z * Z) * (Z * Z))
    (ctx tx i1 q1 i2 q2 freq_val1 scale_val1 freq_val2 scale_val2 : Z) : list step :=
  dds_step "dds_dual_tone" 522 ctx
  :: tone_steps "dds_dual_tone" (fst (fst lines)) tx (fst (fst names)) i1
                freq_val1 scale_val1
  ++ tone_steps "dds_dual_tone" (snd (fst lines)) tx (snd (fst names)) q1
                freq_val1 scale_val1
  ++ Access (phase_write q1)
  :: tone_steps "dds_dual_tone" (fst (snd lines)) tx (fst (snd names)) i2
                freq_val2 scale_val2
  ++ tone_steps "dds_dual_tone" (snd (snd lines)) tx (snd (snd names)) q2
                freq_val2 scale_val2
  ++ [Access (phase_write q2);
      Plain (iio_channel_enable i2); Plain (iio_channel_enable q2)].

(** The steps of [configure_tx_dds] for one channel: the values
    [freq_val] and [scale_val] are written, and [freq_back] and
    [scale_back], which are read back, are printed. *)
Definition dds_steps (lines : Z * Z * Z) (tx : Z) (name : string)
    (chan freq_val scale_val freq_back scale_back : Z) : list step :=
  tone_steps "configure_tx_dds" (fst (fst lines)) tx name chan freq_val scale_val
  ++ [Access (iio_channel_attr_read_longlong chan "frequency");
      Plain (ADRV.info "configure_tx_dds" (snd (fst lines))
               ("adrv9002 " ++ name ++ " frequency: %lld\n")%string [PInt freq_back]);
      Access (iio_channel_attr_read_double chan "scale");
      Plain (ADRV.info "configure_tx_dds" (snd lines)
               ("adrv9002 " ++ name ++ " scale: %lf\n")%string [PDbl scale_back])].

(** The steps of [configure_tx_dds], for the device [tx] and the channels
    [chan_i] and [chan_q]: the values written to the channel Q are
    [freq_i] and [scale_i], those read back from the channel I. *)
Definition tx_dds_plan (names : string * string) (lines : (Z * Z * Z) * (Z * Z * Z))
    (ctx tx chan_i chan_q freq_val scale_val freq_i scale_i freq_q scale_q : Z)
  : list step :=
  dds_step "configure_tx_dds" 222 ctx
  :: dds_steps (fst lines) tx (fst names) chan_i freq_val scale_val freq_i scale_i
  ++ dds_steps (snd lines) tx (snd names) chan_q freq_i scale_i freq_q scale_q
  ++ [Plain (iio_channel_enable chan_i); Plain (iio_channel_enable chan_q)].

(** *** The local oscillators *)

(** The lookup of the device of [configure_trx_lo]. *)
Definition find_phy (ctx : Z) : call := iio_context_find_device ctx "adrv9002-phy".

(** The lookup of a channel of that device, with its message. *)
Definition lo_lookup (phy : Z) (name : string) (line : Z) (what : string) : step :=
  Lookup (iio_device_find_channel phy name true)
         (ADRV.error "configure_trx_lo" line ("Could not find " ++ what ++ "\n")%string []).

(** The steps of [configure_trx_lo] from the read of the bandwidth of the
    channel [chan] on: the values read, [bw] and [sf], are printed at the
    lines [line_bw] and [line_sf], the channels of the oscillators are
    looked up on [phy], with messages at [line_tx] and [line_rx], and the
    frequency [val] is written to each, [tx_lo] and [rx_lo]. *)
Definition lo_steps (line_bw line_sf line_tx line_rx : Z)
    (phy chan bw sf tx_lo rx_lo val : Z) : list step :=
  [Access (iio_channel_attr_read_longlong chan "rf_bandwidth");
   Plain (ADRV.info "configure_trx_lo" line_bw "adrv9002 bandwidth: %lld\n" [PInt bw]);
   Access (iio_channel_attr_read_longlong chan "sampling_frequency");
   Plain (ADRV.info "configure_trx_lo" line_sf "adrv9002 sampling_frequency: %lld\n"
            [PInt sf]);
   lo_lookup phy "altvoltage2" line_tx "TX LO channel";
   Access (iio_channel_attr_write_longlong tx_lo "TX1_LO_frequency" val);
   lo_lookup phy "altvoltage0" line_rx "RX LO channel";
   Access (iio_channel_attr_write_longlong rx_lo "RX1_LO_frequency" val)].

(** The steps of [configure_trx_lo] of adrv9002-iiostream.c. *)
Definition trx_lo_plan (ctx phy chan bw sf tx_lo rx_lo : Z) : list step :=
  Lookup (find_phy ctx)
         (ADRV.error "configure_trx_lo" 343 "Could not find adrv9002_phy\n" [])
  :: lo_lookup phy "voltage0" 349 "TX voltage0 channel"
  :: lo_steps 358 364 370 380 phy chan bw sf tx_lo rx_lo 2500000000.

(** The same for adrv9002-iiostream-dds.c, where the channel voltage1 is
    looked up after voltage0, and is the one that is read. *)
Definition trx_lo_dds_plan (ctx phy chan bw sf tx_lo rx_lo : Z) : list step :=
  Lookup (find_phy ctx)
         (ADRV.error "configure_trx_lo" 116 "Could not find adrv9002_phy\n" [])
  :: lo_lookup phy "voltage0" 122 "TX voltage0 channel"
  :: lo_lookup phy "voltage1" 128 "TX voltage1 channel"
  :: lo_steps 137 143 150 160 phy chan bw sf tx_lo rx_lo 2400000000.

(** An environment where every lookup and every access succeeds, the
    frequency read back is 1234 and the scale read back is 77. *)
Definition reading_back : world :=
  fun _ c =>
    match c with
    | iio_channel_attr_read_longlong _ _ => mkResp 0 [1234] []
    | iio_channel_attr_read_double _ _ => mkResp 0 [77] []
    | _ => mkResp (if returns_handle c then 1 else 0) [] []
    end.


(** The call that prints sample [k] of the AD4696, whose raw word is [raw k]. *)
Definition ad4696_line (raw : Z -> Z) (k : Z) : call :=
  printf "Buffer Sample: %ld\tCH%d Data: 0x%x\n"
         [PInt k; PInt 0; PInt (Int.signed 16 (raw k))].

(** A block of two samples of 16 bits, and their raw words. *)
Definition two_samples16 : Mem.buffer := map Some [1; 2; 0; 128].

Definition two_words16 (k : Z) : Z :=
  if k =? 0 then 513 else 32768.

(** The events of the loop of [stream] of adrv9002-iiostream.c over [n]
    samples, the first one at the address [p], the next ones [2 * step]
    bytes further each: the two words of a sample are read, each is
    stored in the place of the other, and the two places are read again
    and printed. *)
Fixpoint swapped (n : nat) (p step : Z) (h : list event) : Prop :=
  match n with
  | O => h = []
  | S n' =>
      exists i q r1 r2 a b r3 ran1 ran2 ran3 ran4 ran5 ran6 ran7 rest,
        h = Ecall (load_int16 p) i ran1
            :: Ecall (load_int16 (p + 2)) q ran2
            :: Ecall (store_int16 p (r_ret q)) r1 ran3
            :: Ecall (store_int16 (p + 2) (r_ret i)) r2 ran4
            :: Ecall (load_int16 p) a ran5
            :: Ecall (load_int16 (p + 2)) b ran6
            :: Ecall (printf ("Voltage (Q) = %d" ++ tab ++ tab ++ "Voltage (I) = %d\n")
                             [PInt (r_ret a); PInt (r_ret b)]) r3 ran7
            :: rest
        /\ swapped n' (p + 2 * step) step rest
  end.

(** The same for adrv9002-iiostream-dds.c, which prints nothing. *)
Fixpoint swapped_dds (n : nat) (p step : Z) (h : list event) : Prop :=
  match n with
  | O => h = []
  | S n' =>
      exists i q r1 r2 ran1 ran2 ran3 ran4 rest,
        h = Ecall (load_int16 p) i ran1
            :: Ecall (load_int16 (p + 2)) q ran2
            :: Ecall (store_int16 p (r_ret q)) r1 ran3
            :: Ecall (store_int16 (p + 2) (r_ret i)) r2 ran4
            :: rest
        /\ swapped_dds n' (p + 2 * step) step rest
  end.

(** The number of samples between [p] and [p_end] when they are
    [2 * step] bytes apart. *)
Definition samples_between (p p_end step : Z) : nat :=
  Z.to_nat ((p_end - p + 2 * step - 1) / (2 * step)).

(** *** The streaming loop of the programs *)

(** The machine of the loop at the start of a process. *)
Definition loop_start : phase * bool := (Idle, false).

(** The destruction of a buffer. *)
Definition is_buffer_destroy (c : call) : bool :=
  match c with
  | iio_buffer_destroy _ => true
  | _ => false
  end.

(** The phase after calls that release handles. *)
Definition torn_by (l : list call) (ph : phase) : phase :=
  match ph with
  | Stopped t => Stopped (existsb is_buffer_destroy l || t)
  | _ => ph
  end.

(** The claim on the loop, for the function [main] of a program and its
    globals [g0] at the start. *)
Definition loop_discipline {G : Type} (main : nat -> Z -> list string -> M G Z)
    (g0 : G) : Prop :=
  forall (w : world) (fuel : nat) (argc : Z) (argv : list string),
    let out := run (main fuel argc argv) g0 w in
    loop_respected (observe lstep loop_start (history (snd out))) (fst out).

(** The same for the part of [main] that follows [configure_trx_lo], from
    a state reached without a test of the flag, where the machine knows
    the flag. *)
Definition loop_discipline_from (rest : nat -> Z -> M ADRV.globals Z) : Prop :=
  forall (w : world) (s : pstate ADRV.globals) (fuel : nat) (status : Z),
    observe lstep loop_start (history s) = (Idle, stop s) ->
    let out := run_from (rest fuel status) w s in
    loop_respected (observe lstep loop_start (history (snd out))) (fst out).

(** What the loop of an example for an AD converter leaves: it was left
    on a test that found the flag set, or the process ended in it. *)
Definition ad_loop_post {G A : Type} (r : res A) (s : pstate G) : Prop :=
  match r with
  | Val _ => seen lstep loop_start (trace s) = (Stopped false, stop s)
  | Stop o => loop_respected (seen lstep loop_start (trace s)) o
  end.

(** What the loop of an ADRV9002 example leaves: it was left on a test
    that found the flag set, or after a refill, or the run was cut. *)
Definition adrv_loop_post {G A : Type} (r : res A) (s : pstate G) : Prop :=
  match r with
  | Val _ => seen lstep loop_start (trace s) = (Stopped false, stop s)
             \/ seen lstep loop_start (trace s) = (Idle, stop s)
  | Stop o => o = OutOfFuel /\ loop_respected (seen lstep loop_start (trace s)) o
  end.

(** The phase after a call, and after a test of the flag. *)
Definition call_phase (c : call) (ph : phase) : phase :=
  match c with
  | iio_buffer_refill _ =>
      match ph with
      | Tested => Idle
      | _ => Wrong
      end
  | iio_buffer_destroy _ =>
      match ph with
      | Stopped _ => Stopped true
      | _ => ph
      end
  | _ => ph
  end.

Definition test_phase (set b : bool) (ph : phase) : phase :=
  if set && negb b then Wrong
  else match ph with
       | Idle => if b then Stopped false else Tested
       | _ => Wrong
       end.

(** *** The release of the handles in a run *)

(** The calls into the IIO library that release nothing. *)
Definition working (c : call) : bool := is_iio c && negb (is_teardown c).

(** The releases of a list of events. *)
Definition releases (h : list event) : list call := select is_teardown h.

(** In the history [h] no call into the IIO library follows a release,
    but other releases. *)
Definition releases_last (h : list event) : Prop :=
  iio_calls h = select working h ++ releases h.

(** The same on a trace, with what is released at the end [o] of a run:
    the calls [released] when the process exited, nothing otherwise. *)
Definition released_at_exit (released : list call) (o : outcome) (tr : list event)
  : Prop :=
  select is_iio tr = select is_teardown tr ++ select working tr
  /\ select is_teardown tr = match o with
                             | Exited _ => rev released
                             | Aborted | Undefined | OutOfFuel => []
                             end.

(** What holds of the releases of the runs of the [main] of an example
    for an AD converter: the process exits after the releases of
    [shutdown] for the handles it holds, and otherwise releases nothing. *)
Definition releases_at_exit_ad (main : nat -> Z -> list string -> M ADC.globals Z)
  : Prop :=
  forall (w : world) (fuel : nat) (argc : Z) (argv : list string),
    let out := run (main fuel argc argv) ADC.globals0 w in
    releases_last (history (snd out))
    /\ releases (history (snd out))
       = match fst out with
         | Exited _ => adc_released (glob (snd out))
         | Aborted | Undefined | OutOfFuel => []
         end.

(** The same for the part of the [main] of an ADRV9002 example that
    follows [configure_trx_lo], from a state reached without a release:
    [main] returns after the releases of [cleanup], and the context is
    the one it started with. *)
Definition releases_at_exit_from (rest : nat -> Z -> M ADRV.globals Z) : Prop :=
  forall (w : world) (s : pstate ADRV.globals) (fuel : nat) (status : Z),
    releases (history s) = [] ->
    let out := run_from (rest fuel status) w s in
    releases_last (history (snd out))
    /\ ADRV.ctx (glob (snd out)) = ADRV.ctx (glob s)
    /\ releases (history (snd out))
       = match fst out with
         | Exited _ => adrv_released (glob (snd out))
         | Aborted | Undefined | OutOfFuel => []
         end.

(** The same for the [main] of an ADRV9002 example: it returns without a
    release while it has no context, and after the releases of [cleanup]
    once it has one. *)
Definition releases_at_exit_adrv (main : nat -> Z -> list string -> M ADRV.globals Z)
  : Prop :=
  forall (w : world) (fuel : nat) (argc : Z) (argv : list string),
    let out := run (main fuel argc argv) ADRV.globals0 w in
    releases_last (history (snd out))
    /\ match fst out with
       | Exited v =>
           (ADRV.ctx (glob (snd out)) = NULL /\ v = EXIT_FAILURE
            /\ releases (history (snd out)) = [])
           \/ (ADRV.ctx (glob (snd out)) <> NULL
               /\ releases (history (snd out)) = adrv_released (glob (snd out)))
       | Aborted | Undefined | OutOfFuel => releases (history (snd out)) = []
       end.

(** What the loop of an example for an AD converter leaves. *)
Definition ad_release_post {A : Type} (r : res A) (s : pstate ADC.globals) : Prop :=
  match r with
  | Val _ => select is_teardown (trace s) = []
  | Stop o => released_at_exit (adc_released (glob s)) o (trace s)
  end.

(** What the loop of an ADRV9002 example leaves. *)
Definition adrv_release_post {A : Type} (r : res A) (s : pstate ADRV.globals) : Prop :=
  select is_teardown (trace s) = []
  /\ match r with
     | Val _ => True
     | Stop o => o = OutOfFuel
     end.

(** What [main] leaves from the test of the value of [configure_trx_lo]
    on. *)
Definition adrv_released_from (r : res Z) (s : pstate ADRV.globals) : Prop :=
  match r with
  | Val v => released_at_exit (adrv_released (glob s)) (Exited v) (trace s)
  | Stop o => o = OutOfFuel /\ released_at_exit (adrv_released (glob s)) o (trace s)
  end.

(** What [main] leaves. *)
Definition adrv_released_main (o : outcome) (s : pstate ADRV.globals) : Prop :=
  select is_iio (trace s) = select is_teardown (trace s) ++ select working (trace s)
  /\ match o with
     | Exited v =>
         (ADRV.ctx (glob s) = NULL /\ v = EXIT_FAILURE /\ select is_teardown (trace s) = [])
         \/ (ADRV.ctx (glob s) <> NULL
             /\ select is_teardown (trace s) = rev (adrv_released (glob s)))
     | Aborted | Undefined | OutOfFuel => select is_teardown (trace s) = []
     end.

(** An environment for the AD7768 example: every lookup finds its
    object, the samples have 32 bits, a read gives two samples, and
    SIGINT arrives during each refill. *)
Definition interrupting : world :=
  fun _ c =>
    match c with
    | iio_channel_get_data_format _ => mkResp 1 [32; 1] []
    | iio_channel_read_raw _ _ _ _ => mkResp 8 [1; 2; 3; 4; 0; 0; 0; 128] []
    | iio_buffer_refill _ => mkResp 8 [] [SIGINT]
    | _ => mkResp 1 [] []
    end.

(** *** The configuration of the streaming channel *)

(** The name [get_ch_name] makes for the channel [chid]. *)
Definition voltage_name (chid : Z) : string :=
  string_of_list_ascii (firstn 63 (list_ascii_of_string "voltage" ++ Libc.decimal chid)).

(** The message of a failed [IIO_ENSURE] of [file] at [line]. *)
Definition assertion_failed (file : string) (line : Z) : call :=
  fprintf_stderr "assertion failed (%s:%d)\n" [PStr file; PInt line].

(** What the function [cfg] of an example for an AD converter, which is to
    apply the streaming configuration, does: it prints [banner], looks up
    the device [device] and, on it, the channel of the number it is given;
    [line] and [line_tx] are the lines of the assertions on the device and
    on the port. *)
Definition looks_up_only (cfg : Z -> ADC.iodev -> Z -> M ADC.globals bool)
    (banner device file : string) (line line_tx : Z) : Prop :=
  forall (ctx chid : Z) (w : world) (s : pstate ADC.globals),
    List.length (ADC.tmpstr (glob s)) = 64%nat ->
    let greet := printf banner [PInt chid] in
    let find_dev := iio_context_find_device ctx device in
    let dev := r_ret (w (S (clock s)) find_dev) in
    let find_chn := iio_device_find_channel dev (voltage_name chid) false in
    let chn := r_ret (w (S (S (clock s))) find_chn) in
    let out := cfg ctx ADC.RX chid w s in
    let out_tx := cfg ctx ADC.TX chid w s in
    (dev = NULL ->
     fst out = Stop Aborted
     /\ exists added,
          adds s (snd out) added
          /\ calls added = [greet; find_dev; assertion_failed file line])
    /\ (dev <> NULL ->
        fst out = Val (negb (chn =? NULL))
        /\ exists added,
             adds s (snd out) added /\ calls added = [greet; find_dev; find_chn])
    /\ (ADC.ctx (glob (snd out)) = ADC.ctx (glob s)
        /\ ADC.rxchan (glob (snd out)) = ADC.rxchan (glob s)
        /\ ADC.rxbuf (glob (snd out)) = ADC.rxbuf (glob s))
    /\ (fst out_tx = Stop Aborted
        /\ glob (snd out_tx) = glob s
        /\ exists added,
             adds s (snd out_tx) added
             /\ calls added = [greet; assertion_failed file line_tx]).
(** *** The start of a run without a context *)

(** What the [main] of an example for an AD converter does when it is
    given neither no argument nor one: no context is created, and the
    first call into the IIO library asks for the number of devices of the
    context [NULL]; when the answer is not positive the process aborts on
    the assertion of [file] at [line]. *)
Definition starts_without_context (main : nat -> Z -> list string -> M ADC.globals Z)
    (file : string) (line : Z) : Prop :=
  forall (w : world) (fuel : nat) (argc : Z) (argv : list string),
    argc <> 1 -> argc <> 2 ->
    let out := run (main fuel argc argv) ADC.globals0 w in
    exists r1 ran1 r2 ran2 r3 ran3 rest,
      history (snd out)
      = Ecall (signal SIGINT) r1 ran1
        :: Ecall (printf "* Acquiring IIO context\n" []) r2 ran2
        :: Ecall (iio_context_get_devices_count NULL) r3 ran3 :: rest
      /\ (r_ret r3 <= 0 ->
          fst out = Aborted /\ calls rest = [assertion_failed file line]).

(** The same on the trace of a run that ended by [o]. *)
Definition started_without_context (file : string) (line : Z) (o : outcome)
    (tr : list event) : Prop :=
  exists r1 ran1 r2 ran2 r3 ran3,
    let base := [Ecall (iio_context_get_devices_count NULL) r3 ran3;
                 Ecall (printf "* Acquiring IIO context\n" []) r2 ran2;
                 Ecall (signal SIGINT) r1 ran1] in
    extends base tr
    /\ (r_ret r3 <= 0 ->
        o = Aborted
        /\ exists r4 ran4, tr = Ecall (assertion_failed file line) r4 ran4 :: base).
(** *** The exit status after the streaming *)

(** The refills of a buffer. *)
Definition is_refill (c : call) : bool :=
  match c with
  | iio_buffer_refill _ => true
  | _ => false
  end.

(** What holds of the part of the [main] of an ADRV9002 example that
    follows [configure_trx_lo], from a state reached without a refill: a
    run that refilled the buffer, with or without success, returns 0,
    unless it is cut in a loop. *)
Definition refills_then_succeeds (rest : nat -> Z -> M ADRV.globals Z) : Prop :=
  forall (w : world) (s : pstate ADRV.globals) (fuel : nat) (status : Z),
    select is_refill (history s) = [] ->
    let out := run_from (rest fuel status) w s in
    select is_refill (history (snd out)) <> [] ->
    fst out = Exited 0 \/ fst out = OutOfFuel.

(** The same on the trace of a run that ended by [o]. *)
Definition refilled_then_succeeded (o : outcome) (tr : list event) : Prop :=
  select is_refill tr <> [] -> o = Exited 0 \/ o = OutOfFuel.

(** An environment where every lookup succeeds, every access to an
    attribute succeeds, and the refill of the buffer fails. *)
Definition refill_refused : world :=
  fun _ c =>
    mkResp (match c with
            | iio_buffer_refill _ => -5
            | _ => if returns_handle c then 1 else 0
            end) [] [].
(** *** The block of the samples *)

(** What a process holds from [malloc]: nothing, or the block at [p] of
    [size] bytes; [Misused] is for the runs that free or fill a block they
    do not hold, or allocate a second one. *)
Inductive mstate : Type := Released | Held (p size : Z) | Misused.

(** The machine that follows the block through a run: [malloc] gives a
    block unless it returns [NULL], [free] takes the block held back,
    and [iio_channel_read_raw] fills the block held, with no more bytes
    than it has. *)
Definition mstep (st : mstate) (e : event) : mstate :=
  match e with
  | Ecall (malloc size) r _ =>
      match st with
      | Released => if r_ret r =? NULL then Released else Held (r_ret r) size
      | _ => Misused
      end
  | Ecall (free p) _ _ =>
      match st with
      | Held q _ => if p =? q then Released else Misused
      | _ => Misused
      end
  | Ecall (iio_channel_read_raw _ _ dst len) _ _ =>
      match st with
      | Held q size => if (dst =? q) && (len <=? size) then st else Misused
      | _ => Misused
      end
  | _ => st
  end.

(** The events the machine does not look at. *)
Definition untouched (e : event) : bool :=
  match e with
  | Ecall (malloc _) _ _ | Ecall (free _) _ _
  | Ecall (iio_channel_read_raw _ _ _ _) _ _ => false
  | _ => true
  end.

(** What is asked of the end [o] of a run: the block was not misused, and
    one is still held only where the run has no defined behaviour. *)
Definition memory_respected (st : mstate) (o : outcome) : Prop :=
  match st with
  | Released => True
  | Held _ _ => o = Undefined
  | Misused => False
  end.

(** The same for the function [main] of an example for an AD converter. *)
Definition block_discipline (main : nat -> Z -> list string -> M ADC.globals Z) : Prop :=
  forall (w : world) (fuel : nat) (argc : Z) (argv : list string),
    let out := run (main fuel argc argv) ADC.globals0 w in
    memory_respected (observe mstep Released (history (snd out))) (fst out).

(** A computation that adds events the machine does not look at. *)
Definition quietly {G A : Type} (ok : res A -> Prop) (s : pstate G)
    (Q : res A -> pstate G -> Prop) : Prop :=
  forall ext clk r,
    forallb untouched ext = true -> ok r ->
    Q r (mkState (glob s) (flagged ext || stop s) (handled s) (ext ++ trace s) clk).

(** What the loop of an example leaves. *)
Definition block_post {G A : Type} (r : res A) (s : pstate G) : Prop :=
  match r with
  | Val _ => seen mstep Released (trace s) = Released
  | Stop o => memory_respected (seen mstep Released (trace s)) o
  end.
(** * Properties *)
(** ** Rules of [wp] *)

Section WpRules.
Context {G : Type}.
Variable w : world.

Lemma wp_elim {A} (m : M G A) (s : pstate G) Q :
  wp m w s Q -> Q (fst (m w s)) (snd (m w s)).
Proof. intros [H]. exact H. Qed.

Lemma wp_ret {A} (a : A) (s : pstate G) Q : Q (Val a) s -> wp (ret a) w s Q.
Proof. intros H. constructor. exact H. Qed.

Lemma wp_halt {A} o (s : pstate G) (Q : res A -> pstate G -> Prop) :
  Q (Stop o) s -> wp (halt o) w s Q.
Proof. intros H. constructor. exact H. Qed.

Lemma wp_bind {A B} (m : M G A) (k : A -> M G B) s Q :
  wp m w s (fun r s' => match r with
                        | Val a => wp (k a) w s' Q
                        | Stop o => Q (Stop o) s'
                        end) ->
  wp (bind m k) w s Q.
Proof.
  intros [H]. constructor. unfold bind.
  destruct (m w s) as [[a|o] s']; cbn in *; [destruct H as [H]|]; exact H.
Qed.

Lemma wp_consequence {A} (m : M G A) s (P Q : res A -> pstate G -> Prop) :
  wp m w s P -> (forall r s', P r s' -> Q r s') -> wp m w s Q.
Proof. intros [H] HPQ. constructor. auto. Qed.

Lemma wp_get_glob (s : pstate G) Q : Q (Val (glob s)) s -> wp get_glob w s Q.
Proof. intros H. constructor. exact H. Qed.

Lemma wp_set_glob f (s : pstate G) Q :
  Q (Val tt) (mkState (f (glob s)) (stop s) (handled s) (trace s) (clock s)) ->
  wp (set_glob f) w s Q.
Proof. intros H. constructor. exact H. Qed.

Lemma wp_install sig (s : pstate G) Q :
  Q (Val tt) (mkState (glob s) (stop s) (sig :: handled s) (trace s) (clock s)) ->
  wp (install sig) w s Q.
Proof. intros H. constructor. exact H. Qed.

Lemma wp_test_stop (s : pstate G) Q :
  Q (Val (stop s))
    (mkState (glob s) (stop s) (handled s) (Etest_stop (stop s) :: trace s) (clock s)) ->
  wp test_stop w s Q.
Proof. intros H. constructor. exact H. Qed.

(** A call: whatever the answer and the runs of the handler. *)
Lemma wp_do_call h c (s : pstate G) Q :
  (forall r ran,
      Q (Val r)
        (mkState (glob s) (sets_stop ran || stop s) (handled s)
                 (Ecall c r ran :: trace s) (S (clock s)))) ->
  wp (do_call h c) w s Q.
Proof. intros H. constructor. apply H. Qed.

End WpRules.

(** Comparisons of the context as facts on numbers. *)
Ltac bool_facts :=
  repeat match goal with
    | H : negb _ = true |- _ => apply negb_true_iff in H
    | H : negb _ = false |- _ => apply negb_false_iff in H
    | H : (_ =? _) = true |- _ => apply Z.eqb_eq in H
    | H : (_ =? _) = false |- _ => apply Z.eqb_neq in H
    | H : (_ <? _) = true |- _ => apply Z.ltb_lt in H
    | H : (_ <? _) = false |- _ => apply Z.ltb_ge in H
    end.

(** Use of the tests of the context in the goal. *)
Ltac use_tests :=
  repeat match goal with
    | H : _ = true |- _ => progress rewrite H
    | H : _ = false |- _ => progress rewrite H
    end.

(** The negations of the context as tests. *)
Ltac plain_tests :=
  repeat match goal with
    | H : negb _ = true |- _ => apply negb_true_iff in H
    | H : negb _ = false |- _ => apply negb_false_iff in H
    end.

(** A branch the context excludes. *)
Ltac absurd_branch :=
  exfalso; bool_facts; unfold NULL, SIG_ERR, EXIT_FAILURE, ENODEV in *;
  first [lia | congruence].

(** One step of a computation. *)
Ltac wp_step :=
  lazymatch goal with
  | |- wp (bind _ _) _ _ _ => apply wp_bind
  | |- wp (ret _) _ _ _ => apply wp_ret
  | |- wp (halt _) _ _ _ => apply wp_halt
  | |- wp get_glob _ _ _ => apply wp_get_glob
  | |- wp (set_glob _) _ _ _ => apply wp_set_glob
  | |- wp (install _) _ _ _ => apply wp_install
  | |- wp test_stop _ _ _ => apply wp_test_stop
  | |- wp (do_call _ _) _ _ _ => apply wp_do_call; intros ?r ?ran
  | |- wp (if ?b then _ else _) _ _ _ => destruct b eqn:?; try solve [absurd_branch]
  | |- wp (match ?b with _ => _ end) _ _ _ => destruct b eqn:?
  end.

(** Reduction of the projections of states and globals. *)
Ltac st_simpl :=
  cbn beta iota zeta delta
    [glob stop handled trace clock fst snd initial
     ADC.globals0 ADRV.globals0
     ADC.tmpstr ADC.ctx ADC.rxchan ADC.rxbuf
     ADC.set_tmpstr ADC.set_ctx ADC.set_rxchan ADC.set_rxbuf
     ADRV.ctx ADRV.rxbuf ADRV.txbuf ADRV.rx_chan ADRV.tx_chan
     ADRV.set_ctx ADRV.set_rxbuf ADRV.set_chan ADRV.upd].

(** ** The string functions of libc *)

Section Snprintf.
Import Libc.

Lemma poke_app pre x rest c :
  poke (pre ++ x :: rest) (List.length pre) c = Some (pre ++ c :: rest).
Proof.
  unfold poke. rewrite length_app. cbn [List.length].
  destruct (Nat.ltb_spec (List.length pre) (List.length pre + S (List.length rest)));
    [|lia].
  rewrite firstn_app, Nat.sub_diag, firstn_all. cbn [firstn]. rewrite app_nil_r.
  rewrite skipn_app, skipn_all2 by lia.
  replace (S (List.length pre) - List.length pre)%nat with 1%nat by lia.
  reflexivity.
Qed.

(** The copying loop stores a prefix of the text and nothing else. *)
Lemma copy_bounded_spec text : forall pre rest size,
  (size <= List.length pre + List.length rest)%nat -> (List.length pre < size)%nat ->
  let n := Nat.min (List.length text) (size - 1 - List.length pre) in
  copy_bounded (pre ++ rest) (List.length pre) size text
  = Some (pre ++ firstn n text ++ skipn n rest, (List.length pre + n)%nat).
Proof.
  induction text as [|c text IH]; intros pre rest size Hsize Hi; cbn [copy_bounded].
  - cbn. rewrite Nat.add_0_r. reflexivity.
  - destruct (Nat.ltb_spec (S (List.length pre)) size) as [Hlt|Hge].
    + destruct rest as [|x rest]; [cbn [List.length] in Hsize; lia|].
      rewrite poke_app.
      specialize (IH (pre ++ [c]) rest size).
      rewrite length_app in IH. cbn [List.length] in IH, Hsize.
      replace (List.length pre + 1)%nat with (S (List.length pre)) in IH by lia.
      rewrite <- app_assoc in IH. cbn [app] in IH.
      rewrite IH by lia. cbn zeta.
      replace (Nat.min (List.length (c :: text)) (size - 1 - List.length pre))
        with (S (Nat.min (List.length text) (size - 1 - S (List.length pre))))
        by (cbn [List.length]; lia).
      cbn [firstn skipn app]. rewrite <- app_assoc. cbn [app].
      f_equal. f_equal. lia.
    + replace (Nat.min (List.length (c :: text)) (size - 1 - List.length pre))
        with 0%nat by lia.
      cbn [firstn skipn app]. rewrite Nat.add_0_r. reflexivity.
Qed.

(** [snprintf] into an array of [size] characters at least: the first
    [size - 1] characters of the text, a NUL, and the rest unchanged. *)
Lemma snprintf_spec dst size text :
  (0 < size <= List.length dst)%nat ->
  let n := Nat.min (List.length text) (size - 1) in
  snprintf dst size text
  = Some (firstn n text ++ nul :: skipn (S n) dst, Z.of_nat (List.length text)).
Proof.
  intros Hsize n. unfold snprintf.
  pose proof (copy_bounded_spec text [] dst size) as H.
  cbn [List.length app Nat.add] in H. rewrite Nat.sub_0_r in H.
  rewrite H by lia. fold n.
  destruct (Nat.ltb_spec 0 size) as [_|]; [|lia].
  assert (Hn : List.length (firstn n text) = n)
    by (rewrite length_firstn; subst n; lia).
  assert (Hs : (n < List.length dst)%nat) by (subst n; lia).
  destruct (skipn n dst) as [|x rest] eqn:E.
  { apply (f_equal (@List.length ascii)) in E. rewrite length_skipn in E.
    cbn [List.length] in E. lia. }
  pose proof (poke_app (firstn n text) x rest nul) as P. rewrite Hn in P.
  rewrite P.
  f_equal. f_equal. f_equal. f_equal.
  replace (S n) with (1 + n)%nat by lia.
  rewrite <- skipn_skipn, E. reflexivity.
Qed.

Lemma cstring_app text rest :
  Forall (fun c => c <> nul) text ->
  cstring (text ++ nul :: rest) = Some text.
Proof.
  induction 1 as [|c text Hc _ IH]; cbn [app cstring].
  - rewrite Ascii.eqb_refl. reflexivity.
  - destruct (Ascii.eqb_spec c nul); [contradiction|]. rewrite IH. reflexivity.
Qed.

(** The decimal text of a number has digits and a sign only. *)
Lemma string_of_uint_no_nul d :
  Forall (fun c => c <> nul) (list_ascii_of_string (NilEmpty.string_of_uint d)).
Proof.
  induction d; cbn; constructor; try assumption; discriminate.
Qed.

Lemma nilzero_uint_no_nul d :
  Forall (fun c => c <> nul) (list_ascii_of_string (NilZero.string_of_uint d)).
Proof.
  destruct d; try exact (string_of_uint_no_nul _).
  cbn. constructor; [discriminate|constructor].
Qed.

Lemma decimal_no_nul z : Forall (fun c => c <> nul) (decimal z).
Proof.
  unfold decimal, NilZero.string_of_int.
  destruct (Z.to_int z) as [d|d].
  - apply nilzero_uint_no_nul.
  - cbn [list_ascii_of_string]. constructor; [discriminate|apply nilzero_uint_no_nul].
Qed.

End Snprintf.

(** ** [get_ch_name] *)

Lemma firstn_min {A : Type} (l : list A) (k : nat) :
  firstn (Nat.min (List.length l) k) l = firstn k l.
Proof.
  destruct (Nat.le_gt_cases k (List.length l)).
  - rewrite Nat.min_r by assumption. reflexivity.
  - rewrite Nat.min_l by lia. rewrite !firstn_all2 by lia. reflexivity.
Qed.

Lemma Forall_firstn_of {A : Type} (P : A -> Prop) (l : list A) (k : nat) :
  Forall P l -> Forall P (firstn k l).
Proof.
  intros H. rewrite <- (firstn_skipn k l) in H. apply Forall_app in H. apply H.
Qed.

Example decimal_examples :
  Libc.decimal 0 = list_ascii_of_string "0"
  /\ Libc.decimal 12 = list_ascii_of_string "12"
  /\ Libc.decimal (-2147483648) = list_ascii_of_string "-2147483648".
Proof. repeat split; reflexivity. Qed.

Lemma stored_name_cstring (text old : list ascii) :
  Forall (fun c => c <> Libc.nul) text ->
  Libc.cstring (stored_name text old) = Some (firstn 63 text).
Proof. intros H. apply cstring_app, Forall_firstn_of, H. Qed.

Lemma stored_name_length (text old : list ascii) :
  List.length old = 64%nat -> List.length (stored_name text old) = 64%nat.
Proof.
  intros H. unfold stored_name. rewrite length_app. cbn [List.length].
  rewrite length_firstn, length_skipn. lia.
Qed.

Lemma get_ch_name_runs (type : string) (id : Z) (w : world) (s : pstate ADC.globals) :
  List.length (ADC.tmpstr (glob s)) = 64%nat ->
  Forall (fun c => c <> Libc.nul) (list_ascii_of_string type) ->
  let text := list_ascii_of_string type ++ Libc.decimal id in
  ADC.get_ch_name type id w s
  = (Val (string_of_list_ascii (firstn 63 text)),
     mkState (ADC.set_tmpstr (stored_name text (ADC.tmpstr (glob s))) (glob s))
             (stop s) (handled s) (trace s) (clock s)).
Proof.
  intros Hlen Htype text.
  assert (Htext : Forall (fun c => c <> Libc.nul) text)
    by (apply Forall_app; split; [assumption|apply decimal_no_nul]).
  pose proof (stored_name_cstring text (ADC.tmpstr (glob s)) Htext) as Hc.
  unfold stored_name in *.
  unfold ADC.get_ch_name, bind, get_glob, set_glob, ret. cbn [fst snd].
  fold text. rewrite snprintf_spec by lia. cbn zeta.
  change (64 - 1)%nat with 63%nat. rewrite firstn_min. cbn [glob stop handled trace clock].
  rewrite Hc. reflexivity.
Qed.

(** C10: for every type string (a C string: no NUL inside) and every id,
    [get_ch_name] returns the type string followed by the decimal text of
    the id, cut to its first 63 characters; the result is NUL-terminated in
    the 64 bytes of [tmpstr], the array keeps its 64 bytes and nothing else
    of the state changes: no store falls outside of the array. *)
Theorem get_ch_name_bounded (type : string) (id : Z) (w : world)
    (s : pstate ADC.globals) :
  List.length (ADC.tmpstr (glob s)) = 64%nat ->
  Forall (fun c => c <> Libc.nul) (list_ascii_of_string type) ->
  let text := list_ascii_of_string type ++ Libc.decimal id in
  exists t,
    ADC.get_ch_name type id w s
    = (Val (string_of_list_ascii (firstn 63 text)),
       mkState (ADC.set_tmpstr t (glob s)) (stop s) (handled s) (trace s) (clock s))
    /\ List.length t = 64%nat
    /\ Libc.cstring t = Some (firstn 63 text)
    /\ (List.length (firstn 63 text) <= 63)%nat.
Proof.
  intros Hlen Htype text.
  exists (stored_name text (ADC.tmpstr (glob s))).
  repeat split.
  - exact (get_ch_name_runs type id w s Hlen Htype).
  - exact (stored_name_length text _ Hlen).
  - apply stored_name_cstring, Forall_app. split; [assumption|apply decimal_no_nul].
  - rewrite length_firstn. lia.
Qed.

Lemma get_ch_name_bounded_witness :
  List.length (ADC.tmpstr (glob (initial ADC.globals0))) = 64%nat
  /\ Forall (fun c => c <> Libc.nul) (list_ascii_of_string "voltage")
  /\ exists t,
    ADC.get_ch_name "voltage" 4 (fun _ _ => mkResp 0 [] []) (initial ADC.globals0)
    = (Val "voltage4",
       mkState (ADC.set_tmpstr t ADC.globals0) false [] [] O)
    /\ List.length t = 64%nat
    /\ Libc.cstring t = Some (list_ascii_of_string "voltage4")
    /\ (List.length (list_ascii_of_string "voltage4") <= 63)%nat.
Proof.
  assert (H1 : List.length (ADC.tmpstr (glob (initial ADC.globals0))) = 64%nat)
    by reflexivity.
  assert (H2 : Forall (fun c => c <> Libc.nul) (list_ascii_of_string "voltage"))
    by (repeat constructor; discriminate).
  split; [exact H1|split; [exact H2|]].
  exact (get_ch_name_bounded "voltage" 4 (fun _ _ => mkResp 0 [] [])
           (initial ADC.globals0) H1 H2).
Defined.

(** ** Machine integers *)

Section IntFacts.
Import Int.

Lemma signed32_range x : -2147483648 <= signed 32 x < 2147483648.
Proof.
  unfold signed. change (2 ^ (32 - 1)) with 2147483648.
  change (2 ^ 32) with 4294967296.
  pose proof (Z.mod_pos_bound (x + 2147483648) 4294967296 eq_refl). lia.
Qed.

Lemma signed32_small x : -2147483648 <= x < 2147483648 -> signed 32 x = x.
Proof.
  intros H. unfold signed. change (2 ^ (32 - 1)) with 2147483648.
  change (2 ^ 32) with 4294967296.
  rewrite Z.mod_small by lia. lia.
Qed.

Lemma signed32_mod x : signed 32 (x mod 2 ^ 32) = signed 32 x.
Proof.
  unfold signed. rewrite Zplus_mod_idemp_l. reflexivity.
Qed.

Lemma signed32_signed64 x : signed 32 (signed 64 x) = signed 32 x.
Proof.
  unfold signed. f_equal.
  change (2 ^ (64 - 1)) with 9223372036854775808.
  change (2 ^ 64) with (4294967296 * 4294967296).
  change (2 ^ (32 - 1)) with 2147483648.
  change (2 ^ 32) with 4294967296.
  replace ((x + 9223372036854775808) mod (4294967296 * 4294967296)
           - 9223372036854775808 + 2147483648)
    with (x + 2147483648
          + (- ((x + 9223372036854775808) / (4294967296 * 4294967296)) * 4294967296
             * 4294967296)).
  - rewrite Z_mod_plus_full. reflexivity.
  - rewrite (Z.mod_eq (x + 9223372036854775808)) by lia. lia.
Qed.

Lemma signed32_congr x y : x mod 2 ^ 32 = y mod 2 ^ 32 -> signed 32 x = signed 32 y.
Proof.
  intros H. rewrite <- (signed32_mod x), <- (signed32_mod y), H. reflexivity.
Qed.

Lemma signed32_mod_back x : signed 32 x mod 2 ^ 32 = x mod 2 ^ 32.
Proof.
  unfold signed. change (2 ^ (32 - 1)) with 2147483648.
  change (2 ^ 32) with 4294967296.
  rewrite Zminus_mod_idemp_l. f_equal. lia.
Qed.

End IntFacts.

(** ** Sample buffers *)

Section MemFacts.
Import Mem.

Lemma set_nth_some b : forall i x,
  (i < List.length b)%nat -> exists b', set_nth b i x = Some b'.
Proof.
  induction b as [|y b IH]; intros i x Hi; cbn [List.length] in Hi; [lia|].
  destruct i as [|i]; cbn [set_nth]; [eauto|].
  destruct (IH i x) as [b' ->]; [lia|eauto].
Qed.

Lemma set_nth_length b : forall i x b',
  set_nth b i x = Some b' -> List.length b' = List.length b.
Proof.
  induction b as [|y b IH]; intros i x b'; cbn [set_nth]; [destruct i; discriminate|].
  destruct i as [|i].
  - intros E. injection E as <-. reflexivity.
  - destruct (set_nth b i x) as [b''|] eqn:E; [|discriminate].
    intros E'. injection E' as <-. cbn [List.length]. f_equal. eapply IH, E.
Qed.

Lemma set_nth_nth b : forall i x b' j,
  set_nth b i x = Some b' ->
  nth_error b' j = if Nat.eqb j i then Some (Some x) else nth_error b j.
Proof.
  induction b as [|y b IH]; intros i x b' j; cbn [set_nth]; [destruct i; discriminate|].
  destruct i as [|i].
  - intros E. injection E as <-. destruct j; reflexivity.
  - destruct (set_nth b i x) as [b''|] eqn:E; [|discriminate].
    intros E'. injection E' as <-. destruct j as [|j]; [reflexivity|].
    cbn [nth_error Nat.eqb]. eapply IH, E.
Qed.

Lemma set_byte_some b off x :
  0 <= off < Z.of_nat (List.length b) -> exists b', set_byte b off x = Some b'.
Proof.
  intros H. unfold set_byte. destruct (Z.ltb_spec off 0); [lia|].
  apply set_nth_some. lia.
Qed.

Lemma set_byte_length b off x b' :
  set_byte b off x = Some b' -> List.length b' = List.length b.
Proof.
  unfold set_byte. destruct (off <? 0); [discriminate|]. apply set_nth_length.
Qed.

Lemma set_byte_at b off x b' off' :
  set_byte b off x = Some b' ->
  byte_at b' off' = if off' =? off then Some x else byte_at b off'.
Proof.
  unfold set_byte, byte_at. destruct (Z.ltb_spec off 0); [discriminate|].
  intros E. destruct (Z.ltb_spec off' 0).
  - destruct (Z.eqb_spec off' off); [lia|reflexivity].
  - rewrite (set_nth_nth _ _ _ _ _ E).
    destruct (Z.eqb_spec off' off) as [->|Hne].
    + rewrite Nat.eqb_refl. reflexivity.
    + destruct (Nat.eqb_spec (Z.to_nat off') (Z.to_nat off)); [lia|reflexivity].
Qed.

Lemma byte_at_inside b off x :
  byte_at b off = Some x -> 0 <= off < Z.of_nat (List.length b).
Proof.
  unfold byte_at. destruct (Z.ltb_spec off 0); [discriminate|].
  destruct (nth_error b (Z.to_nat off)) eqn:E; [|discriminate].
  intros _. assert (nth_error b (Z.to_nat off) <> None) as E' by congruence.
  apply nth_error_Some in E'. lia.
Qed.

(** A read sees the bytes of its range only. *)
Lemma load_ext n : forall b1 b2 off,
  (forall k, 0 <= k < Z.of_nat n -> byte_at b1 (off + k) = byte_at b2 (off + k)) ->
  load n b1 off = load n b2 off.
Proof.
  induction n as [|n IH]; intros b1 b2 off H; [reflexivity|].
  cbn [load]. pose proof (H 0) as H0. rewrite Z.add_0_r in H0.
  rewrite H0 by lia.
  rewrite (IH b1 b2 (off + 1)); [reflexivity|].
  intros k Hk. rewrite <- Z.add_assoc. apply H. lia.
Qed.

Lemma load_inside n b off v :
  load (S n) b off = Some v -> 0 <= off /\ off + Z.of_nat (S n) <= Z.of_nat (List.length b).
Proof.
  revert off v. induction n as [|n IH]; intros off v.
  - cbn [load]. destruct (byte_at b off) eqn:E; [|discriminate].
    intros _. apply byte_at_inside in E. lia.
  - change (load (S (S n)) b off)
      with (match byte_at b off, load (S n) b (off + 1) with
            | Some x, Some hi => Some (x + 256 * hi)
            | _, _ => None
            end).
    destruct (byte_at b off) eqn:E; [|discriminate].
    destruct (load (S n) b (off + 1)) eqn:E'; [|discriminate].
    intros _. apply byte_at_inside in E. apply IH in E'. lia.
Qed.

Lemma store_some n : forall b off v,
  0 <= off -> off + Z.of_nat n <= Z.of_nat (List.length b) ->
  exists b', store n b off v = Some b'.
Proof.
  induction n as [|n IH]; intros b off v H0 H1; cbn [store]; [eauto|].
  destruct (set_byte_some b off (v mod 256)) as [b' E]; [lia|].
  rewrite E. apply IH; [lia|]. rewrite (set_byte_length _ _ _ _ E). lia.
Qed.

Lemma store_length n : forall b off v b',
  store n b off v = Some b' -> List.length b' = List.length b.
Proof.
  induction n as [|n IH]; intros b off v b'; cbn [store].
  - intros E. injection E as <-. reflexivity.
  - destruct (set_byte b off (v mod 256)) as [b1|] eqn:E; [|discriminate].
    intros E'. rewrite (IH _ _ _ _ E'). eapply set_byte_length, E.
Qed.

(** A write changes the bytes of its range only. *)
Lemma store_other n : forall b off v b' off',
  store n b off v = Some b' ->
  off' < off \/ off + Z.of_nat n <= off' ->
  byte_at b' off' = byte_at b off'.
Proof.
  induction n as [|n IH]; intros b off v b' off'; cbn [store].
  - intros E _. injection E as <-. reflexivity.
  - destruct (set_byte b off (v mod 256)) as [b1|] eqn:E; [|discriminate].
    intros E' H. rewrite (IH _ _ _ _ off' E') by lia.
    rewrite (set_byte_at _ _ _ _ off' E).
    destruct (Z.eqb_spec off' off); [lia|reflexivity].
Qed.

(** A read after a write of the same range gives the low bytes written. *)
Lemma load_store n : forall b off v b',
  store n b off v = Some b' -> load n b' off = Some (v mod 256 ^ Z.of_nat n).
Proof.
  induction n as [|n IH]; intros b off v b'.
  - intros _. cbn [load]. rewrite Z.pow_0_r, Z.mod_1_r. reflexivity.
  - cbn [store load].
    destruct (set_byte b off (v mod 256)) as [b1|] eqn:E; [|discriminate].
    intros E'. rewrite (store_other _ _ _ _ _ off E') by lia.
    rewrite (set_byte_at _ _ _ _ off E), Z.eqb_refl.
    rewrite (IH _ _ _ _ E'). f_equal.
    rewrite Nat2Z.inj_succ, Z.pow_succ_r by lia.
    rewrite (Z.rem_mul_r v 256 (256 ^ Z.of_nat n)); [reflexivity|lia|].
    apply Z.pow_pos_nonneg; lia.
Qed.

End MemFacts.

(** ** Loops that make no call into the IIO library *)

Lemma flagged_app h1 h2 : flagged (h1 ++ h2) = flagged h1 || flagged h2.
Proof. apply existsb_app. Qed.

(** One more event before a list of events. *)
Lemma frame_push {G : Type} (Q : pstate G -> Prop) g st hd tr c r ran ext clk :
  Q (mkState g (flagged (ext ++ [Ecall c r ran]) || st) hd
             ((ext ++ [Ecall c r ran]) ++ tr) clk) ->
  Q (mkState g (flagged ext || (sets_stop ran || st)) hd
             (ext ++ Ecall c r ran :: tr) clk).
Proof.
  rewrite flagged_app, <- app_assoc. cbn [flagged existsb app].
  rewrite orb_false_r, orb_assoc. exact (fun H => H).
Qed.

Lemma inert_push ext c r ran :
  is_iio c = false -> forallb inert ext = true ->
  forallb inert (ext ++ [Ecall c r ran]) = true.
Proof.
  intros Hc Hext. rewrite forallb_app, Hext. cbn. rewrite Hc. reflexivity.
Qed.

Ltac ad_unfold :=
  lazymatch goal with
  | |- wp ?m ?w ?s ?Q =>
      let m' := eval cbv beta delta
                  [ADC.invoke_ ADC.invoke ADC.IIO_ENSURE ADC.shutdown ADC.errchk
                   ADC.rd_ch_lli ADC.get_ch_name
                   AD4630.get_ad4630 AD4630.get_ad4630_stream_dev
                   AD4630.get_ad4630_stream_ch AD4630.get_channel
                   AD4630.cfg_ad4630_streaming_ch
                   AD4696.get_ad4696 AD4696.get_ad4696_stream_dev
                   AD4696.get_ad4696_stream_ch AD4696.get_channel
                   AD4696.cfg_ad4696_streaming_ch
                   AD7768.get_ad7768 AD7768.get_ad7768_stream_dev
                   AD7768.get_ad7768_stream_ch AD7768.get_channel
                   AD7768.cfg_ad7768_streaming_ch
                   ADRV.invoke ADRV.invoke_ ADRV.register_signals ADRV.cleanup
                   ADRV.cleanup_chan ADRV.get_enable_chan
                   ADRV.stream_channels_get_enable ADRV.value_of
                   ADRV9002.invoke ADRV9002.invoke_ ADRV9002.register_signals
                   ADRV9002.cleanup ADRV9002.stream_channels_get_enable
                   ADRV9002.configure_trx_lo ADRV9002.tone_channels
                   ADRV9002.dds_single_tone ADRV9002.stream ADRV9002.clean
                   ADRV9002_DDS.invoke ADRV9002_DDS.invoke_
                   ADRV9002_DDS.register_signals ADRV9002_DDS.cleanup
                   ADRV9002_DDS.stream_channels_get_enable
                   ADRV9002_DDS.configure_trx_lo ADRV9002_DDS.tone_channel
                   ADRV9002_DDS.tone_channels ADRV9002_DDS.configure_tx_dds
                   ADRV9002_DDS.stream ADRV9002_DDS.clean] in m in
      progress change (wp m' w s Q)
  end.

(** Symbolic execution up to the loops. *)
Ltac go := repeat (st_simpl; first [wp_step | ad_unfold]).

(** A call, with the answer of the environment at the time of the call. *)
Lemma wp_do_call_at {G : Type} (w : world) h c (s : pstate G) Q :
  (forall ran,
      Q (Val (w (clock s) c))
        (mkState (glob s) (sets_stop ran || stop s) (handled s)
                 (Ecall c (w (clock s) c) ran :: trace s) (S (clock s)))) ->
  wp (do_call h c) w s Q.
Proof. intros H. constructor. apply H. Qed.

Ltac wp_step_at :=
  lazymatch goal with
  | |- wp (do_call _ _) _ _ _ => apply wp_do_call_at; intros ?ran
  | _ => wp_step
  end.

Ltac go_at := repeat (st_simpl; first [wp_step_at | ad_unfold]).

(** The same, with that answer under a name. *)
Lemma wp_do_call_eq {G : Type} (w : world) h c (s : pstate G) Q :
  (forall r ran,
      r = w (clock s) c ->
      Q (Val r)
        (mkState (glob s) (sets_stop ran || stop s) (handled s)
                 (Ecall c r ran :: trace s) (S (clock s)))) ->
  wp (do_call h c) w s Q.
Proof. intros H. apply wp_do_call_at. intros ran. apply H. reflexivity. Qed.

Ltac wp_step_eq :=
  lazymatch goal with
  | |- wp (do_call _ _) _ _ _ =>
      let H := fresh "Hr" in
      apply wp_do_call_eq; intros ?r ?ran H; cbn beta iota delta [clock initial] in H
  | _ => wp_step
  end.

Ltac go_eq := repeat (st_simpl; first [wp_step_eq | ad_unfold]).

(** The answers of the environment in the place of their names. *)
Ltac answers :=
  repeat match goal with
    | H : ?r = ?w _ _ |- _ => is_var r; subst r
    end.

Ltac frame_start :=
  lazymatch goal with
  | H : framed _ _ _ |- _ =>
      apply (H []); [reflexivity|]
  end.

Ltac frame_step IH :=
  lazymatch goal with
  | H : framed _ _ ?Q |- wp _ _ _ ?Q =>
      apply IH; intros ext clk res Hext Hres; cbn [glob stop handled trace clock];
      repeat apply (frame_push (Q res));
      apply H; [|exact Hres];
      repeat (apply inert_push; [reflexivity|]); exact Hext
  end.

Lemma ad4630_print_samples_frame room : forall sample count buf w s Q,
  framed undefined_or_val s Q ->
  wp (AD4630.print_samples room sample count buf) w s Q.
Proof.
  induction room as [|room IH]; intros sample count buf w [g st hd tr cl] Q H;
    cbn [AD4630.print_samples]; go; try (frame_start; exact I || reflexivity).
  frame_step IH.
Qed.

Lemma ad4696_print_samples_frame room : forall sample count buf w s Q,
  framed undefined_or_val s Q ->
  wp (AD4696.print_samples room sample count buf) w s Q.
Proof.
  induction room as [|room IH]; intros sample count buf w [g st hd tr cl] Q H;
    cbn [AD4696.print_samples]; go; try (frame_start; exact I || reflexivity).
  frame_step IH.
Qed.

Lemma ad7768_print_samples_frame room : forall sample count buf w s Q,
  framed undefined_or_val s Q ->
  wp (AD7768.print_samples room sample count buf) w s Q.
Proof.
  induction room as [|room IH]; intros sample count buf w [g st hd tr cl] Q H;
    cbn [AD7768.print_samples]; go; try (frame_start; exact I || reflexivity).
  frame_step IH.
Qed.

Lemma adrv9002_swap_samples_frame fuel : forall p_dat p_end step w s Q,
  framed out_of_fuel_or_val s Q ->
  wp (ADRV9002.swap_samples fuel p_dat p_end step) w s Q.
Proof.
  induction fuel as [|fuel IH]; intros p_dat p_end step w [g st hd tr cl] Q H;
    cbn [ADRV9002.swap_samples]; go; try (frame_start; exact I || reflexivity).
  frame_step IH.
Qed.

Lemma adrv9002_dds_swap_samples_frame fuel : forall p_dat p_end step w s Q,
  framed out_of_fuel_or_val s Q ->
  wp (ADRV9002_DDS.swap_samples fuel p_dat p_end step) w s Q.
Proof.
  induction fuel as [|fuel IH]; intros p_dat p_end step w [g st hd tr cl] Q H;
    cbn [ADRV9002_DDS.swap_samples]; go; try (frame_start; exact I || reflexivity).
  frame_step IH.
Qed.

(** ** The printing of the samples *)

Lemma calls_app h1 h2 : calls (h1 ++ h2) = calls h1 ++ calls h2.
Proof.
  induction h1 as [|[c r ran|b] h1 IH]; cbn [app calls]; [reflexivity| |assumption].
  rewrite IH. reflexivity.
Qed.

Lemma range_succ (f : Z -> call) (i : Z) (n : nat) :
  map f (map (fun j => i + Z.of_nat j) (seq 0 (S n)))
  = f i :: map f (map (fun j => (i + 1) + Z.of_nat j) (seq 0 n)).
Proof.
  cbn [seq map]. rewrite Z.add_0_r. f_equal.
  rewrite <- seq_shift, !map_map. apply map_ext. intros j. f_equal. lia.
Qed.

Lemma format_sample_configured raw :
  AD4630.format_sample AD4630.OUT_DATA_MD AD4630.CHANNEL_NUMBER (Int.signed 64 raw)
  = Z.shiftr (Int.signed 32 (raw mod 2 ^ 32)) 16.
Proof.
  unfold AD4630.format_sample. cbn [AD4630.OUT_DATA_MD AD4630.CHANNEL_NUMBER Z.eqb Pos.eqb].
  rewrite signed32_signed64, signed32_mod. reflexivity.
Qed.

Lemma shifted_sample_small x :
  Int.signed 32 (Z.shiftr (Int.signed 32 x) 16 mod 256 ^ Z.of_nat 4)
  = Z.shiftr (Int.signed 32 x) 16.
Proof.
  change (256 ^ Z.of_nat 4) with (2 ^ 32). rewrite signed32_mod.
  apply signed32_small. rewrite Z.shiftr_div_pow2 by lia.
  pose proof (signed32_range x). change (2 ^ 16) with 65536.
  Z.div_mod_to_equations. lia.
Qed.

Section AD4630Samples.
Variable w : world.
Variable block : Mem.buffer.
Variable count : Z.
Variable raw : Z -> Z.
Hypothesis Hraw : forall k, 0 <= k < count -> Mem.load 8 block (8 * k) = Some (raw k).

(** The loop from sample [i] on: the block may have changed below the
    offset [8 * i] only. *)
Lemma ad4630_print_samples_from n : forall i b room (s : pstate ADC.globals),
  count = i + Z.of_nat n -> 0 <= i ->
  Z.of_nat (List.length block) <= Z.of_nat room + i ->
  List.length b = List.length block ->
  (forall off, 8 * i <= off -> Mem.byte_at b off = Mem.byte_at block off) ->
  wp (AD4630.print_samples room i count b) w s
     (fun r s' =>
        (exists b', r = Val b') /\
        exists ext, trace s' = ext ++ trace s /\
                    calls (rev ext)
                    = map (ad4630_line raw) (map (fun j => i + Z.of_nat j) (seq 0 n))).
Proof.
  induction n as [|n IH]; intros i b room s Hcount Hi Hroom Hlen Hsame.
  - replace (AD4630.print_samples room i count b) with (@ret ADC.globals _ b).
    + apply wp_ret. split; [eauto|]. exists []. split; reflexivity.
    + destruct room; cbn [AD4630.print_samples];
        destruct (Z.ltb_spec i count); try lia; reflexivity.
  - assert (Hload : Mem.load 8 block (8 * i) = Some (raw i)) by (apply Hraw; lia).
    pose proof (load_inside _ _ _ _ Hload) as Hin.
    destruct room as [|room]; [lia|].
    cbn [AD4630.print_samples].
    destruct (Z.ltb_spec i count); [|lia].
    rewrite (load_ext 8 b block (8 * i)) by (intros k Hk; apply Hsame; lia).
    rewrite Hload.
    destruct (store_some 4 b (4 * i)
                (AD4630.format_sample AD4630.OUT_DATA_MD AD4630.CHANNEL_NUMBER
                   (Int.signed 64 (raw i)))) as [b1 Hstore]; [lia|lia|].
    rewrite Hstore, (load_store _ _ _ _ _ Hstore).
    rewrite format_sample_configured, shifted_sample_small.
    go.
    eapply wp_consequence.
    + apply (IH (i + 1) b1 room); try lia.
      * rewrite (store_length _ _ _ _ _ Hstore). exact Hlen.
      * intros off Hoff. rewrite (store_other _ _ _ _ _ off Hstore) by lia.
        apply Hsame. lia.
    + cbn beta. intros res s' [Hres [ext [Htr Hcalls]]]. cbn [trace] in Htr.
      split; [exact Hres|].
      eexists (ext ++ [_]). split.
      * rewrite Htr, <- app_assoc. reflexivity.
      * rewrite rev_app_distr. cbn [rev app calls]. rewrite Hcalls, range_succ.
        reflexivity.
Qed.

End AD4630Samples.

(** C3: in the AD4630 example as configured, when the block holds [count]
    samples of 64 bits, the loop prints, for each sample in turn, the low
    32-bit word of its raw 64-bit word, taken as a signed 32-bit integer
    and shifted right arithmetically by 16 bits; the loop makes no other
    call and ends normally. *)
Theorem ad4630_printed_samples (w : world) (s : pstate ADC.globals)
    (block : Mem.buffer) (count : Z) (raw : Z -> Z) :
  0 <= count ->
  (forall k, 0 <= k < count -> Mem.load 8 block (8 * k) = Some (raw k)) ->
  let out := AD4630.print_samples (List.length block) 0 count block w s in
  (exists block', fst out = Val block')
  /\ exists added,
       history (snd out) = history s ++ added
       /\ calls added
          = map (fun k => printf "Buffer Sample: %ld\tCH0: 0x%x\n"
                            [PInt k; PInt (Z.shiftr (Int.signed 32 (raw k mod 2 ^ 32)) 16)])
                (indices count).
Proof.
  intros Hcount Hraw out.
  pose proof (ad4630_print_samples_from w block count raw Hraw (Z.to_nat count)
                0 block (List.length block) s) as H.
  apply wp_elim in H; try lia; try reflexivity.
  fold out in H. destruct H as [Hres [ext [Htr Hcalls]]].
  split; [exact Hres|].
  exists (rev ext). split.
  - unfold history. rewrite Htr, rev_app_distr. reflexivity.
  - rewrite Hcalls. unfold indices. rewrite !map_map.
    apply map_ext. intros j. reflexivity.
Qed.

Lemma ad4630_printed_samples_witness :
  0 <= 2
  /\ (forall k, 0 <= k < 2 -> Mem.load 8 two_samples (8 * k) = Some (two_words k))
  /\ let out := AD4630.print_samples (List.length two_samples) 0 2 two_samples
                  (quiet_world 0) (initial ADC.globals0) in
     (exists block', fst out = Val block')
     /\ exists added,
          history (snd out) = history (initial ADC.globals0) ++ added
          /\ calls added
             = map (fun k => printf "Buffer Sample: %ld\tCH0: 0x%x\n"
                               [PInt k;
                                PInt (Z.shiftr (Int.signed 32 (two_words k mod 2 ^ 32)) 16)])
                   (indices 2).
Proof.
  assert (H1 : 0 <= 2) by lia.
  assert (H2 : forall k, 0 <= k < 2 ->
                         Mem.load 8 two_samples (8 * k) = Some (two_words k)).
  { intros k Hk. assert (Hcase : k = 0 \/ k = 1) by lia.
    destruct Hcase as [-> | ->]; reflexivity. }
  split; [exact H1|split; [exact H2|]].
  exact (ad4630_printed_samples (quiet_world 0) (initial ADC.globals0)
           two_samples 2 two_words H1 H2).
Defined.

Example ad4630_two_samples_printed :
  calls (history (snd (AD4630.print_samples (List.length two_samples) 0 2 two_samples
                         (quiet_world 0) (initial ADC.globals0))))
  = [printf "Buffer Sample: %ld\tCH0: 0x%x\n" [PInt 0; PInt 1027];
     printf "Buffer Sample: %ld\tCH0: 0x%x\n" [PInt 1; PInt (-32768)]].
Proof. reflexivity. Qed.

(** The value printed by the AD7768 example for a sample [x]: [x << 8] is
    [x * 256] brought back to the signed 32-bit range. *)
Lemma printed_value_shift x :
  AD7768.printed_value x = Int.signed 32 (x * 256)
  /\ AD7768.printed_value x mod 2 ^ 32 = (x * 256) mod 2 ^ 32
  /\ - 2 ^ 31 <= AD7768.printed_value x < 2 ^ 31.
Proof.
  unfold AD7768.printed_value. rewrite Z.shiftl_mul_pow2 by lia.
  change (2 ^ 8) with 256. repeat split.
  - apply signed32_mod_back.
  - apply (signed32_range (x * 256)).
  - apply (signed32_range (x * 256)).
Qed.

Section AD7768Samples.
Variable w : world.
Variable block : Mem.buffer.
Variable count : Z.
Variable raw : Z -> Z.
Hypothesis Hraw : forall k, 0 <= k < count -> Mem.load 4 block (4 * k) = Some (raw k).

Lemma ad7768_print_samples_from n : forall i room (s : pstate ADC.globals),
  count = i + Z.of_nat n -> 0 <= i ->
  Z.of_nat (List.length block) <= Z.of_nat room + i ->
  wp (AD7768.print_samples room i count block) w s
     (fun r s' =>
        r = Val tt /\
        exists ext, trace s' = ext ++ trace s /\
                    calls (rev ext)
                    = map (ad7768_line raw) (map (fun j => i + Z.of_nat j) (seq 0 n))).
Proof.
  induction n as [|n IH]; intros i room s Hcount Hi Hroom.
  - replace (AD7768.print_samples room i count block) with (@ret ADC.globals _ tt).
    + apply wp_ret. split; [reflexivity|]. exists []. split; reflexivity.
    + destruct room; cbn [AD7768.print_samples];
        destruct (Z.ltb_spec i count); try lia; reflexivity.
  - assert (Hload : Mem.load 4 block (4 * i) = Some (raw i)) by (apply Hraw; lia).
    pose proof (load_inside _ _ _ _ Hload) as Hin.
    destruct room as [|room]; [lia|].
    cbn [AD7768.print_samples].
    destruct (Z.ltb_spec i count); [|lia].
    rewrite Hload. go.
    eapply wp_consequence.
    + apply (IH (i + 1) room); lia.
    + cbn beta. intros res s' [Hres [ext [Htr Hcalls]]]. cbn [trace] in Htr.
      split; [exact Hres|].
      eexists (ext ++ [_]). split.
      * rewrite Htr, <- app_assoc. reflexivity.
      * rewrite rev_app_distr. cbn [rev app calls]. rewrite Hcalls, range_succ.
        unfold ad7768_line at 2.
        rewrite (proj1 (printed_value_shift (Int.signed 32 (raw i)))).
        reflexivity.
Qed.

End AD7768Samples.

(** C7: in the AD7768 example, when the block holds [count] samples of 32
    bits, the loop prints, for each sample in turn, its raw word taken as a
    signed 32-bit integer, shifted left by 8 bits, that is multiplied by
    256 and reduced modulo 2^32 to the signed 32-bit range; the loop makes
    no other call and ends normally. *)
Theorem ad7768_printed_samples (w : world) (s : pstate ADC.globals)
    (block : Mem.buffer) (count : Z) (raw : Z -> Z) :
  0 <= count ->
  (forall k, 0 <= k < count -> Mem.load 4 block (4 * k) = Some (raw k)) ->
  let out := AD7768.print_samples (List.length block) 0 count block w s in
  let value := fun k => Int.signed 32 (Int.signed 32 (raw k) * 256) in
  fst out = Val tt
  /\ (exists added,
        history (snd out) = history s ++ added
        /\ calls added = map (fun k => printf "%d " [PInt (value k)]) (indices count))
  /\ forall k,
       value k = Int.signed 32 (Z.shiftl (Int.signed 32 (raw k)) 8)
       /\ value k mod 2 ^ 32 = (Int.signed 32 (raw k) * 256) mod 2 ^ 32
       /\ - 2 ^ 31 <= value k < 2 ^ 31.
Proof.
  intros Hcount Hraw out value.
  pose proof (ad7768_print_samples_from w block count raw Hraw (Z.to_nat count)
                0 (List.length block) s) as H.
  apply wp_elim in H; try lia.
  fold out in H. destruct H as [Hres [ext [Htr Hcalls]]].
  split; [exact Hres|]. split.
  - exists (rev ext). split.
    + unfold history. rewrite Htr, rev_app_distr. reflexivity.
    + rewrite Hcalls. unfold indices. rewrite !map_map.
      apply map_ext. intros j. reflexivity.
  - intros k. subst value. cbn beta.
    pose proof (printed_value_shift (Int.signed 32 (raw k))) as [E [Hm Hr]].
    unfold AD7768.printed_value in *. rewrite <- E. auto.
Qed.

Lemma ad7768_printed_samples_witness :
  0 <= 2
  /\ (forall k, 0 <= k < 2 -> Mem.load 4 two_samples32 (4 * k) = Some (two_words32 k))
  /\ let out := AD7768.print_samples (List.length two_samples32) 0 2 two_samples32
                  (quiet_world 0) (initial ADC.globals0) in
     let value := fun k => Int.signed 32 (Int.signed 32 (two_words32 k) * 256) in
     fst out = Val tt
     /\ (exists added,
           history (snd out) = history (initial ADC.globals0) ++ added
           /\ calls added = map (fun k => printf "%d " [PInt (value k)]) (indices 2))
     /\ forall k,
          value k = Int.signed 32 (Z.shiftl (Int.signed 32 (two_words32 k)) 8)
          /\ value k mod 2 ^ 32 = (Int.signed 32 (two_words32 k) * 256) mod 2 ^ 32
          /\ - 2 ^ 31 <= value k < 2 ^ 31.
Proof.
  assert (H1 : 0 <= 2) by lia.
  assert (H2 : forall k, 0 <= k < 2 ->
                         Mem.load 4 two_samples32 (4 * k) = Some (two_words32 k)).
  { intros k Hk. assert (Hcase : k = 0 \/ k = 1) by lia.
    destruct Hcase as [-> | ->]; reflexivity. }
  split; [exact H1|split; [exact H2|]].
  exact (ad7768_printed_samples (quiet_world 0) (initial ADC.globals0)
           two_samples32 2 two_words32 H1 H2).
Defined.

Example ad7768_two_samples_printed :
  calls (history (snd (AD7768.print_samples (List.length two_samples32) 0 2 two_samples32
                         (quiet_world 0) (initial ADC.globals0))))
  = [printf "%d " [PInt 50462976]; printf "%d " [PInt 0]].
Proof. reflexivity. Qed.

(** ** Runs *)

Lemma run_from_post {G : Type} (m : M G Z) (w : world) (s : pstate G)
    (P : outcome -> pstate G -> Prop) :
  wp m w s (fun r s' => match r with
                        | Val status => P (Exited status) s'
                        | Stop o => P o s'
                        end) ->
  P (fst (run_from m w s)) (snd (run_from m w s)).
Proof.
  intros H. apply wp_elim in H. unfold run_from, process, bind, halt.
  destruct (m w s) as [[status|o] s']; exact H.
Qed.

Lemma run_post {G : Type} (m : M G Z) (g : G) (w : world)
    (P : outcome -> pstate G -> Prop) :
  wp m w (initial g) (fun r s' => match r with
                                  | Val status => P (Exited status) s'
                                  | Stop o => P o s'
                                  end) ->
  P (fst (run m g w)) (snd (run m g w)).
Proof. apply run_from_post. Qed.

Lemma calls_rev h : calls (rev h) = rev (calls h).
Proof.
  induction h as [|[c r ran|b] h IH]; cbn [rev calls]; [reflexivity| |].
  - rewrite calls_app, IH. reflexivity.
  - rewrite calls_app, IH. cbn [calls]. rewrite app_nil_r. reflexivity.
Qed.

Lemma filter_rev {A : Type} (f : A -> bool) (l : list A) :
  filter f (rev l) = rev (filter f l).
Proof.
  induction l as [|x l IH]; [reflexivity|].
  cbn [rev filter]. rewrite filter_app, IH. cbn [filter].
  destruct (f x); cbn [rev]; [reflexivity|apply app_nil_r].
Qed.

Lemma select_app f h1 h2 : select f (h1 ++ h2) = select f h1 ++ select f h2.
Proof.
  induction h1 as [|[c r ran|b] h1 IH]; cbn [app select]; [reflexivity| |assumption].
  destruct (f c); [cbn [app]; f_equal|]; assumption.
Qed.

Lemma select_rev f h : select f (rev h) = rev (select f h).
Proof.
  induction h as [|[c r ran|b] h IH]; cbn [rev select]; [reflexivity| |].
  - rewrite select_app, IH. cbn [select]. destruct (f c); cbn [rev]; [reflexivity|].
    apply app_nil_r.
  - rewrite select_app, IH. cbn [select]. apply app_nil_r.
Qed.

(** Events without a call into the IIO library have no call [f] selects,
    when [f] selects such calls only. *)
Lemma select_inert f ext :
  (forall c, f c = true -> is_iio c = true) ->
  forallb inert ext = true -> select f ext = [].
Proof.
  intros Hf. induction ext as [|[c r ran|b] ext IH]; cbn [forallb inert select];
    [reflexivity| |discriminate].
  intros H. apply andb_true_iff in H as [Hc Hext].
  destruct (f c) eqn:E; [|exact (IH Hext)].
  apply Hf in E. rewrite E in Hc. discriminate.
Qed.

Lemma select_inert_app f ext h :
  (forall c, f c = true -> is_iio c = true) ->
  forallb inert ext = true -> select f (ext ++ h) = select f h.
Proof. intros Hf H. rewrite select_app, (select_inert f ext Hf H). reflexivity. Qed.

Lemma creation_is_iio c : is_creation c = true -> is_iio c = true.
Proof. destruct c; cbn; congruence. Qed.

Lemma iio_is_iio c : is_iio c = true -> is_iio c = true.
Proof. exact (fun H => H). Qed.

Lemma iio_calls_history {G : Type} (s : pstate G) :
  iio_calls (history s) = rev (iio_calls (trace s)).
Proof. apply select_rev. Qed.

Lemma creations_history {G : Type} (s : pstate G) :
  creations (history s) = rev (creations (trace s)).
Proof. apply select_rev. Qed.

(** ** More than one argument *)

(** C9: with more than one command-line argument, each of the two ADRV9002
    examples ends with the status [EXIT_FAILURE] and has made no call into
    the IIO library: no context creation and no operation on a device or a
    channel. *)
Theorem adrv9002_too_many_arguments (w : world) (fuel : nat) (argc : Z)
    (argv : list string) :
  2 < argc ->
  let out := run (ADRV9002.main fuel argc argv) ADRV.globals0 w in
  let out_dds := run (ADRV9002_DDS.main fuel argc argv) ADRV.globals0 w in
  (fst out = Exited EXIT_FAILURE /\ iio_calls (history (snd out)) = [])
  /\ (fst out_dds = Exited EXIT_FAILURE /\ iio_calls (history (snd out_dds)) = []).
Proof.
  intros Hargc out out_dds. split.
  - apply (run_post (ADRV9002.main fuel argc argv) ADRV.globals0 w
             (fun o s => o = Exited EXIT_FAILURE /\ iio_calls (history s) = [])).
    unfold ADRV9002.main. go; split; reflexivity.
  - apply (run_post (ADRV9002_DDS.main fuel argc argv) ADRV.globals0 w
             (fun o s => o = Exited EXIT_FAILURE /\ iio_calls (history s) = [])).
    unfold ADRV9002_DDS.main. go; split; reflexivity.
Qed.

Lemma adrv9002_too_many_arguments_witness :
  2 < 3
  /\ let out := run (ADRV9002.main 1 3 ["a.out"; "ip:10.0.0.1"; "extra"])
                    ADRV.globals0 all_found in
     let out_dds := run (ADRV9002_DDS.main 1 3 ["a.out"; "ip:10.0.0.1"; "extra"])
                        ADRV.globals0 all_found in
     (fst out = Exited EXIT_FAILURE /\ iio_calls (history (snd out)) = [])
     /\ (fst out_dds = Exited EXIT_FAILURE /\ iio_calls (history (snd out_dds)) = []).
Proof.
  assert (H : 2 < 3) by lia.
  split; [exact H|].
  exact (adrv9002_too_many_arguments all_found 1 3 ["a.out"; "ip:10.0.0.1"; "extra"] H).
Defined.

(** ** The value of [configure_trx_lo] *)

(** C8 is not what the code does: when every lookup and every access to
    an attribute succeeds, [configure_trx_lo] reaches its closing brace
    without a [return], in both examples, and [main], which uses its
    value, has no defined behaviour from there. *)
Theorem configure_trx_lo_returns_nothing :
  fst (ADRV9002.configure_trx_lo all_found with_context) = Val None
  /\ fst (ADRV9002_DDS.configure_trx_lo all_found with_context) = Val None
  /\ fst (run (ADRV9002.main 1 1 ["a.out"]) ADRV.globals0 all_found) = Undefined
  /\ fst (run (ADRV9002_DDS.main 1 1 ["a.out"]) ADRV.globals0 all_found) = Undefined.
Proof. repeat split; vm_compute; reflexivity. Qed.

(** ** The teardown routines and [get_ch_name] as single steps *)

Lemma frame_init {G : Type} (Q : pstate G -> Prop) g st hd tr clk :
  Q (mkState g (flagged [] || st) hd ([] ++ tr) clk) -> Q (mkState g st hd tr clk).
Proof. exact (fun H => H). Qed.

(** [shutdown] ends the process with status 0 after the events [ext]:
    its calls into the IIO library are those of [adc_released], and all
    its events are allowed after a failure. *)
Lemma wp_shutdown {A : Type} (w : world) (s : pstate ADC.globals)
    (Q : res A -> pstate ADC.globals -> Prop) :
  (forall ext clk,
      select is_iio ext = rev (adc_released (glob s)) ->
      forallb (after_failure no_call) ext = true ->
      Q (Stop (Exited 0))
        (mkState (glob s) (flagged ext || stop s) (handled s) (ext ++ trace s) clk)) ->
  wp ADC.shutdown w s Q.
Proof.
  destruct s as [g st hd tr cl]. intros H. unfold ADC.shutdown. go.
  all: apply (frame_init (Q (Stop (Exited 0))));
    repeat apply (frame_push (Q (Stop (Exited 0))));
    apply H; cbn [glob]; unfold adc_released, release; use_tests; reflexivity.
Qed.

(** [cleanup] returns after the events [ext]: its calls into the IIO
    library are those of [adrv_released], and all its events are allowed
    after a failure. *)
Lemma wp_cleanup (line : Z) (w : world) (s : pstate ADRV.globals)
    (Q : res unit -> pstate ADRV.globals -> Prop) :
  (forall ext clk,
      select is_iio ext = rev (adrv_released (glob s)) ->
      forallb (after_failure no_call) ext = true ->
      Q (Val tt)
        (mkState (glob s) (flagged ext || stop s) (handled s) (ext ++ trace s) clk)) ->
  wp (ADRV.cleanup line) w s Q.
Proof.
  destruct s as [g st hd tr cl]. intros H. unfold ADRV.cleanup, ADRV.cleanup_chan. go.
  all: apply (frame_init (Q (Val tt)));
    repeat apply (frame_push (Q (Val tt)));
    apply H; cbn [glob]; unfold adrv_released, release; use_tests; reflexivity.
Qed.

(** [get_ch_name] on an array of 64 bytes: the name, and a new array of 64
    bytes. *)
Lemma wp_get_ch_name (type : string) (id : Z) (w : world) (s : pstate ADC.globals)
    (Q : res string -> pstate ADC.globals -> Prop) :
  List.length (ADC.tmpstr (glob s)) = 64%nat ->
  Forall (fun c => c <> Libc.nul) (list_ascii_of_string type) ->
  (forall t,
      List.length t = 64%nat ->
      Q (Val (string_of_list_ascii
                (firstn 63 (list_ascii_of_string type ++ Libc.decimal id))))
        (mkState (ADC.set_tmpstr t (glob s)) (stop s) (handled s) (trace s) (clock s))) ->
  wp (ADC.get_ch_name type id) w s Q.
Proof.
  intros Hlen Htype H.
  constructor. rewrite (get_ch_name_runs type id w s Hlen Htype). cbn [fst snd].
  apply H, stored_name_length, Hlen.
Qed.

(** The installation of a handler, or not: whatever the handlers are. *)
Lemma wp_maybe_install {G : Type} (b : bool) (sig : Z) (w : world) (s : pstate G)
    (Q : res unit -> pstate G -> Prop) :
  (forall hd, Q (Val tt) (mkState (glob s) (stop s) hd (trace s) (clock s))) ->
  wp (if b then ret tt else install sig) w s Q.
Proof.
  intros H. destruct s as [g st hd tr cl]. destruct b; constructor; apply H.
Qed.

(** ** Symbolic execution *)

(** The steps that have a lemma of their own. *)
Ltac known :=
  lazymatch goal with
  | |- wp (@ADC.shutdown _) _ _ _ =>
      apply wp_shutdown; intros ?ext ?clk ?Hrel ?Hext; cbn [glob] in Hrel
  | |- wp (ADC.get_ch_name _ _) _ _ _ =>
      apply wp_get_ch_name;
      [ st_simpl; first [reflexivity | assumption]
      | repeat constructor; discriminate
      | intros ?t ?Ht ]
  | |- wp (ADRV.cleanup _) _ _ _ =>
      apply wp_cleanup; intros ?ext ?clk ?Hrel ?Hext; cbn [glob] in Hrel
  | |- wp (if r_ret _ =? SIG_ERR then ret tt else install _) _ _ _ =>
      apply wp_maybe_install; intros ?hd
  | |- wp (AD4630.print_samples _ _ _ _) _ _ _ =>
      apply ad4630_print_samples_frame;
      intros ?ext ?clk [?v|?o] ?Hext ?Hres; cbn [undefined_or_val] in *; subst
  | |- wp (AD4696.print_samples _ _ _ _) _ _ _ =>
      apply ad4696_print_samples_frame;
      intros ?ext ?clk [?v|?o] ?Hext ?Hres; cbn [undefined_or_val] in *; subst
  | |- wp (AD7768.print_samples _ _ _ _) _ _ _ =>
      apply ad7768_print_samples_frame;
      intros ?ext ?clk [?v|?o] ?Hext ?Hres; cbn [undefined_or_val] in *; subst
  | |- wp (ADRV9002.swap_samples _ _ _ _) _ _ _ =>
      apply adrv9002_swap_samples_frame;
      intros ?ext ?clk [?v|?o] ?Hext ?Hres; cbn [out_of_fuel_or_val] in *; subst
  | |- wp (ADRV9002_DDS.swap_samples _ _ _ _) _ _ _ =>
      apply adrv9002_dds_swap_samples_frame;
      intros ?ext ?clk [?v|?o] ?Hext ?Hres; cbn [out_of_fuel_or_val] in *; subst
  end.

(** The definitions that are unfolded on the way. *)
Ltac unfold_head :=
  lazymatch goal with
  | |- wp ?m ?w ?s ?Q =>
      let m' := eval cbv beta delta
                  [ADC.invoke_ ADC.invoke ADC.IIO_ENSURE ADC.errchk ADC.rd_ch_lli
                   AD4630.get_ad4630 AD4630.get_ad4630_stream_dev
                   AD4630.get_ad4630_stream_ch AD4630.get_channel
                   AD4630.cfg_ad4630_streaming_ch AD4630.iteration
                   AD4696.get_ad4696 AD4696.get_ad4696_stream_dev
                   AD4696.get_ad4696_stream_ch AD4696.get_channel
                   AD4696.cfg_ad4696_streaming_ch AD4696.iteration
                   AD7768.get_ad7768 AD7768.get_ad7768_stream_dev
                   AD7768.get_ad7768_stream_ch AD7768.get_channel
                   AD7768.cfg_ad7768_streaming_ch AD7768.iteration
                   ADRV.invoke ADRV.invoke_ ADRV.register_signals
                   ADRV.get_enable_chan
                   ADRV.stream_channels_get_enable ADRV.value_of
                   ADRV9002.invoke ADRV9002.invoke_ ADRV9002.register_signals
                   ADRV9002.cleanup ADRV9002.stream_channels_get_enable
                   ADRV9002.configure_trx_lo ADRV9002.tone_channels
                   ADRV9002.dds_single_tone ADRV9002.stream ADRV9002.clean
                   ADRV9002_DDS.invoke ADRV9002_DDS.invoke_
                   ADRV9002_DDS.register_signals ADRV9002_DDS.cleanup
                   ADRV9002_DDS.stream_channels_get_enable
                   ADRV9002_DDS.configure_trx_lo ADRV9002_DDS.tone_channel
                   ADRV9002_DDS.tone_channels ADRV9002_DDS.configure_tx_dds
                   ADRV9002_DDS.stream ADRV9002_DDS.clean] in m in
      progress change (wp m' w s Q)
  end.

(** Symbolic execution of a program up to its streaming loop. *)
Ltac sym := repeat (st_simpl; first [known | wp_step | unfold_head]); st_simpl.

(** The same, the answers of the environment being kept. *)
Ltac sym_eq := repeat (st_simpl; first [known | wp_step_eq | unfold_head]); st_simpl.

(** The loop of a program, by the lemma [IH] on it. *)
Ltac into_loop IH :=
  lazymatch goal with
  | |- wp _ _ _ _ =>
      eapply wp_consequence;
      [apply IH|cbn beta; intros ?res ?s' ?Hloop; st_simpl; cbn [trace glob stop] in Hloop]
  end.

(** ** Context creation *)

Lemma select_after_failure f ext :
  (forall c, f c = true -> is_iio c = true /\ is_teardown c = false) ->
  forallb (after_failure no_call) ext = true -> select f ext = [].
Proof.
  intros Hf. induction ext as [|[c r ran|b] ext IH];
    cbn [forallb after_failure select]; [reflexivity| |discriminate].
  intros H. apply andb_true_iff in H as [Hc Hext].
  destruct (f c) eqn:E; [|exact (IH Hext)].
  apply Hf in E as [E1 E2]. rewrite E1, E2 in Hc. discriminate.
Qed.

Lemma creation_not_teardown c :
  is_creation c = true -> is_iio c = true /\ is_teardown c = false.
Proof. destruct c; cbn; intros; try discriminate; split; reflexivity. Qed.

(** The creations of a trace with segments that have none. *)
Ltac creations_leaf :=
  unfold creations in *; cbn [select is_creation];
  repeat (rewrite select_app;
          first [ rewrite (select_inert is_creation) by (assumption || exact creation_is_iio)
                | rewrite (select_after_failure is_creation)
                    by (assumption || exact creation_not_teardown) ];
          cbn [app select is_creation]);
  try assumption; try reflexivity.

(** The loops create no context. *)
Ltac use_loop :=
  match goal with
  | H : select _ (trace ?s) = _ |- context [trace ?s] => rewrite H
  end.

Ltac loop_creations IH :=
  sym; try creations_leaf; into_loop IH; unfold creations in *; use_loop; creations_leaf.

Lemma ad4630_streaming_creations fuel : forall w s,
  wp (AD4630.streaming fuel) w s (fun _ s' => creations (trace s') = creations (trace s)).
Proof.
  induction fuel as [|fuel IH]; intros w [g st hd tr cl]; cbn [AD4630.streaming];
    loop_creations IH.
Qed.

Lemma ad4696_streaming_creations fuel : forall w s,
  wp (AD4696.streaming fuel) w s (fun _ s' => creations (trace s') = creations (trace s)).
Proof.
  induction fuel as [|fuel IH]; intros w [g st hd tr cl]; cbn [AD4696.streaming];
    loop_creations IH.
Qed.

Lemma ad7768_streaming_creations fuel : forall w s,
  wp (AD7768.streaming fuel) w s (fun _ s' => creations (trace s') = creations (trace s)).
Proof.
  induction fuel as [|fuel IH]; intros w [g st hd tr cl]; cbn [AD7768.streaming];
    loop_creations IH.
Qed.

Lemma adrv9002_streaming_creations fuel : forall inner w s,
  wp (ADRV9002.streaming fuel inner) w s
     (fun _ s' => creations (trace s') = creations (trace s)).
Proof.
  induction fuel as [|fuel IH]; intros inner w [g st hd tr cl];
    cbn [ADRV9002.streaming]; loop_creations IH.
Qed.

Lemma adrv9002_dds_streaming_creations fuel : forall inner w s,
  wp (ADRV9002_DDS.streaming fuel inner) w s
     (fun _ s' => creations (trace s') = creations (trace s)).
Proof.
  induction fuel as [|fuel IH]; intros inner w [g st hd tr cl];
    cbn [ADRV9002_DDS.streaming]; loop_creations IH.
Qed.

(** A program with its loop: symbolic execution, the lemma [loop] on the
    loop, and [leaf] at the ends. *)
Ltac through loop leaf :=
  sym;
  try (into_loop loop;
       match goal with r : res _ |- _ => destruct r end; [sym|]);
  unfold creations in *; try use_loop;
  leaf.

Lemma adrv9002_main_from_lo_creations fuel status w s :
  wp (ADRV9002.main_from_lo fuel status) w s
     (fun _ s' => creations (trace s') = creations (trace s)).
Proof.
  destruct s as [g st hd tr cl]. unfold ADRV9002.main_from_lo.
  through adrv9002_streaming_creations creations_leaf.
Qed.

Lemma adrv9002_dds_main_from_lo_creations fuel status w s :
  wp (ADRV9002_DDS.main_from_lo fuel status) w s
     (fun _ s' => creations (trace s') = creations (trace s)).
Proof.
  destruct s as [g st hd tr cl]. unfold ADRV9002_DDS.main_from_lo.
  through adrv9002_dds_streaming_creations creations_leaf.
Qed.

Lemma context_calls_rev argc argv : rev (context_calls argc argv) = context_calls argc argv.
Proof. unfold context_calls. destruct (argc =? 1), (argc =? 2); reflexivity. Qed.

Lemma ad4630_creations : creates_as_asked AD4630.main ADC.globals0.
Proof.
  intros w fuel argc argv.
  rewrite creations_history, <- context_calls_rev. f_equal.
  apply (run_post (AD4630.main fuel argc argv) ADC.globals0 w
           (fun _ s => creations (trace s) = context_calls argc argv)).
  unfold AD4630.main, context_calls.
  through ad4630_streaming_creations ltac:(use_tests; creations_leaf).
Qed.

Lemma ad4696_creations : creates_as_asked AD4696.main ADC.globals0.
Proof.
  intros w fuel argc argv.
  rewrite creations_history, <- context_calls_rev. f_equal.
  apply (run_post (AD4696.main fuel argc argv) ADC.globals0 w
           (fun _ s => creations (trace s) = context_calls argc argv)).
  unfold AD4696.main, context_calls.
  through ad4696_streaming_creations ltac:(use_tests; creations_leaf).
Qed.

Lemma ad7768_creations : creates_as_asked AD7768.main ADC.globals0.
Proof.
  intros w fuel argc argv.
  rewrite creations_history, <- context_calls_rev. f_equal.
  apply (run_post (AD7768.main fuel argc argv) ADC.globals0 w
           (fun _ s => creations (trace s) = context_calls argc argv)).
  unfold AD7768.main, context_calls.
  through ad7768_streaming_creations ltac:(use_tests; creations_leaf).
Qed.

Lemma adrv_creations_history registered argc argv o (tr : list event) :
  adrv_creations registered argc argv o tr ->
  adrv_creations registered argc argv o (rev tr).
Proof.
  unfold adrv_creations, creations, iio_calls. rewrite !select_rev.
  intros [H1 H2]. split.
  - intros H. rewrite (H1 H). apply context_calls_rev.
  - intros H. destruct (H2 H) as [E1 [E2 E3]]. rewrite E1, E3. repeat split. exact E2.
Qed.

(** The three answers to [register_signals], by the tests of a leaf. *)
Ltac registered :=
  unfold registration_succeeds, sigterm_answer, sigint_answer, unblock_answer in *;
  answers; plain_tests; bool_facts.

Ltac adrv_creations_leaf :=
  unfold adrv_creations, context_calls; split;
  [ intros ?Hreg;
    first [ solve [exfalso; registered; destruct Hreg as [? [? ?]]; lia]
          | use_tests; solve [creations_leaf] ]
  | intros ?Hnot;
    first [ solve [repeat apply conj; solve [creations_leaf | reflexivity]]
          | exfalso; apply Hnot; registered; repeat apply conj; solve [assumption | lia] ] ].

(** A program with its loop, the answers of the environment being kept. *)
Ltac through_eq loop leaf :=
  sym_eq;
  try (into_loop loop;
       match goal with r : res _ |- _ => destruct r end; [sym|]);
  unfold creations in *; try use_loop;
  leaf.

Lemma adrv9002_creations : creates_unless_unregistered ADRV9002.main.
Proof.
  intros w fuel argc argv. cbv zeta. apply adrv_creations_history.
  apply (run_post (ADRV9002.main fuel argc argv) ADRV.globals0 w
           (fun o s => adrv_creations (registration_succeeds w 0) argc argv o (trace s))).
  unfold ADRV9002.main.
  through_eq adrv9002_main_from_lo_creations adrv_creations_leaf.
Qed.

Lemma adrv9002_dds_creations : creates_unless_unregistered ADRV9002_DDS.main.
Proof.
  intros w fuel argc argv. cbv zeta. apply adrv_creations_history.
  apply (run_post (ADRV9002_DDS.main fuel argc argv) ADRV.globals0 w
           (fun o s => adrv_creations (registration_succeeds w 0) argc argv o (trace s))).
  unfold ADRV9002_DDS.main.
  through_eq adrv9002_dds_main_from_lo_creations adrv_creations_leaf.
Qed.

(** The status [r] of [register_signals] is negative only when a call of
    [sigaction] or [sigprocmask] failed. *)
Example adrv9002_unregistered :
  let out := run (ADRV9002.main 0 1 []) ADRV.globals0 (quiet_world (-1)) in
  fst out = Exited EXIT_FAILURE
  /\ calls (history (snd out))
     = [sigaction SIGTERM; strerror_errno;
        ADRV.error "register_signals" 313 "sigaction: %s\n" [PExt (-1)]].
Proof. split; reflexivity. Qed.

(** When the handlers are registered and the context is refused, the run
    has made the creation the arguments ask for. *)
Example adrv9002_registered :
  registration_succeeds (quiet_world 0) 0
  /\ creations (history (snd (run (ADRV9002.main 0 2 ["a.out"; "ip:10.0.0.2"])
                                  ADRV.globals0 (quiet_world 0))))
     = [iio_create_context_from_uri "ip:10.0.0.2"].
Proof. split; [repeat split; vm_compute; congruence|reflexivity]. Qed.

(** C6, as the claim states it, fails on adrv9002-iiostream.c: without
    argument, when [sigaction] fails, [main] returns before it creates a
    context. *)
Lemma adrv9002_creation_not_as_asked : ~ creates_as_asked ADRV9002.main ADRV.globals0.
Proof.
  intros H. specialize (H (quiet_world (-1)) 0%nat 1 []).
  vm_compute in H. discriminate H.
Qed.

(** C6, amended: in the AD4630, AD4696 and AD7768 examples the only
    creation of a context is the default one when there is no argument, the
    one from the URI [argv[1]] when there is one argument, and there is
    none otherwise, whatever the environment answers; in the two ADRV9002
    examples the same holds, unless the registration of the signal
    handlers failed: then [main] returns [EXIT_FAILURE] and has made no
    call into the IIO library. *)
Theorem context_creation :
  creates_as_asked AD4630.main ADC.globals0
  /\ creates_as_asked AD4696.main ADC.globals0
  /\ creates_as_asked AD7768.main ADC.globals0
  /\ creates_unless_unregistered ADRV9002.main
  /\ creates_unless_unregistered ADRV9002_DDS.main.
Proof.
  repeat apply conj.
  - exact ad4630_creations.
  - exact ad4696_creations.
  - exact ad7768_creations.
  - exact adrv9002_creations.
  - exact adrv9002_dds_creations.
Qed.
(** ** Exit status *)

Lemma extends_refl tr : extends tr tr.
Proof. exists []. reflexivity. Qed.

Lemma extends_cons tr tr' e : extends tr tr' -> extends tr (e :: tr').
Proof. intros [ext ->]. exists (e :: ext). reflexivity. Qed.

Lemma extends_app tr tr' ext : extends tr tr' -> extends tr (ext ++ tr').
Proof. intros [ext' ->]. exists (ext ++ ext'). apply app_assoc. Qed.

Lemma extends_trans tr1 tr2 tr3 : extends tr1 tr2 -> extends tr2 tr3 -> extends tr1 tr3.
Proof. intros [e1 ->] [e2 ->]. exists (e2 ++ e1). apply app_assoc. Qed.

(** A trace extends an older one. *)
Ltac extension :=
  repeat first [ apply extends_refl
               | assumption
               | apply extends_cons
               | apply extends_app
               | eapply extends_trans; [|eassumption] ].

Lemma attr_code_here v c r ran h :
  is_attr c = true -> r_ret r = v -> attr_code v (Ecall c r ran :: h) = true.
Proof.
  intros Hc Hr. unfold attr_code. cbn [existsb]. rewrite Hc, Hr, Z.eqb_refl. reflexivity.
Qed.

Lemma attr_code_extends v tr tr' :
  extends tr tr' -> attr_code v tr = true -> attr_code v tr' = true.
Proof.
  intros [ext ->] H. unfold attr_code in *. rewrite existsb_app, H. apply orb_true_r.
Qed.

Lemma attr_code_rev v h : attr_code v (rev h) = attr_code v h.
Proof.
  unfold attr_code. induction h as [|e h IH]; cbn [rev existsb]; [reflexivity|].
  rewrite existsb_app, IH. cbn [existsb]. rewrite orb_false_r. apply orb_comm.
Qed.

Ltac ad_status_leaf :=
  cbn [ad_result ad_status] in *; first [assumption | reflexivity | exact I].

Lemma ad4630_streaming_status fuel : forall w s,
  wp (AD4630.streaming fuel) w s (fun r _ => ad_result r).
Proof.
  induction fuel as [|fuel IH]; intros w [g st hd tr cl]; cbn [AD4630.streaming].
  all: sym; try ad_status_leaf; into_loop IH; ad_status_leaf.
Qed.

Lemma ad4696_streaming_status fuel : forall w s,
  wp (AD4696.streaming fuel) w s (fun r _ => ad_result r).
Proof.
  induction fuel as [|fuel IH]; intros w [g st hd tr cl]; cbn [AD4696.streaming].
  all: sym; try ad_status_leaf; into_loop IH; ad_status_leaf.
Qed.

Lemma ad7768_streaming_status fuel : forall w s,
  wp (AD7768.streaming fuel) w s (fun r _ => ad_result r).
Proof.
  induction fuel as [|fuel IH]; intros w [g st hd tr cl]; cbn [AD7768.streaming].
  all: sym; try ad_status_leaf; into_loop IH; ad_status_leaf.
Qed.

Lemma ad4630_status : exits_ad AD4630.main.
Proof.
  intros w fuel argc argv.
  apply (run_post (AD4630.main fuel argc argv) ADC.globals0 w (fun o _ => ad_status o)).
  unfold AD4630.main. through ad4630_streaming_status ad_status_leaf.
Qed.

Lemma ad4696_status : exits_ad AD4696.main.
Proof.
  intros w fuel argc argv.
  apply (run_post (AD4696.main fuel argc argv) ADC.globals0 w (fun o _ => ad_status o)).
  unfold AD4696.main. through ad4696_streaming_status ad_status_leaf.
Qed.

Lemma ad7768_status : exits_ad AD7768.main.
Proof.
  intros w fuel argc argv.
  apply (run_post (AD7768.main fuel argc argv) ADC.globals0 w (fun o _ => ad_status o)).
  unfold AD7768.main. through ad7768_streaming_status ad_status_leaf.
Qed.

Lemma attr_code_later v e h : attr_code v h = true -> attr_code v (e :: h) = true.
Proof. apply (attr_code_extends v h (e :: h)), extends_cons, extends_refl. Qed.

Lemma attr_code_app_later v ext h : attr_code v h = true -> attr_code v (ext ++ h) = true.
Proof. apply (attr_code_extends v h (ext ++ h)), extends_app, extends_refl. Qed.

(** The access to an attribute that returned the status. *)
Ltac attr_found :=
  repeat first [ solve [apply attr_code_here; reflexivity]
               | apply attr_code_later
               | apply attr_code_app_later
               | eapply attr_code_extends; [eassumption|] ].

Ltac adrv_value_leaf :=
  unfold adrv_value, EXIT_FAILURE, ENODEV in *;
  first [ left; solve [reflexivity | bool_facts; lia]
        | right; left; reflexivity
        | right; right; left; reflexivity
        | right; right; right; split; [bool_facts; assumption|solve [attr_found]] ].

Lemma adrv9002_streaming_status fuel : forall inner w s,
  wp (ADRV9002.streaming fuel inner) w s
     (fun r s' => extends (trace s) (trace s') /\ out_of_fuel_or_val r).
Proof.
  induction fuel as [|fuel IH]; intros inner w [g st hd tr cl]; cbn [ADRV9002.streaming].
  all: sym; try (split; [extension|reflexivity || exact I]).
  into_loop IH. destruct Hloop as [Hloop Hend]. split; [extension|exact Hend].
Qed.

Lemma adrv9002_dds_streaming_status fuel : forall inner w s,
  wp (ADRV9002_DDS.streaming fuel inner) w s
     (fun r s' => extends (trace s) (trace s') /\ out_of_fuel_or_val r).
Proof.
  induction fuel as [|fuel IH]; intros inner w [g st hd tr cl];
    cbn [ADRV9002_DDS.streaming].
  all: sym; try (split; [extension|reflexivity || exact I]).
  into_loop IH. destruct Hloop as [Hloop Hend]. split; [extension|exact Hend].
Qed.

Ltac from_lo_leaf :=
  split; [extension|cbn [value_from]; plain_tests; use_tests;
                    first [reflexivity | assumption | adrv_value_leaf]].

Lemma adrv9002_main_from_lo_status fuel status w s :
  wp (ADRV9002.main_from_lo fuel status) w s
     (fun r s' => extends (trace s) (trace s') /\ value_from status r (trace s')).
Proof.
  destruct s as [g st hd tr cl]. unfold ADRV9002.main_from_lo.
  sym; try from_lo_leaf.
  all: into_loop adrv9002_streaming_status; destruct Hloop as [Hloop Hend].
  all: match goal with r : res unit |- _ => destruct r as [[]|o] end;
    cbn [out_of_fuel_or_val] in Hend; [sym|]; from_lo_leaf.
Qed.

Lemma adrv9002_dds_main_from_lo_status fuel status w s :
  wp (ADRV9002_DDS.main_from_lo fuel status) w s
     (fun r s' => extends (trace s) (trace s') /\ value_from status r (trace s')).
Proof.
  destruct s as [g st hd tr cl]. unfold ADRV9002_DDS.main_from_lo.
  sym; try from_lo_leaf.
  all: into_loop adrv9002_dds_streaming_status; destruct Hloop as [Hloop Hend].
  all: match goal with r : res unit |- _ => destruct r as [[]|o] end;
    cbn [out_of_fuel_or_val] in Hend; [sym|]; from_lo_leaf.
Qed.

Lemma adrv_status_rev o tr : adrv_status o tr -> adrv_status o (rev tr).
Proof.
  destruct o; cbn [adrv_status]; try exact (fun H => H).
  unfold adrv_value. rewrite attr_code_rev. exact (fun H => H).
Qed.

Lemma adrv_status_from_rev status o tr :
  adrv_status_from status o tr -> adrv_status_from status o (rev tr).
Proof.
  destruct o; cbn [adrv_status_from]; try exact (fun H => H).
  unfold adrv_value. rewrite attr_code_rev. exact (fun H => H).
Qed.

(** The value of [main] when [main_from_lo] gave [r]. *)
Ltac from_value :=
  match goal with
  | H : value_from _ ?r _ |- _ =>
      destruct r; cbn [value_from] in H; unfold ENODEV in H; plain_tests;
      repeat match goal with
        | E : (_ =? 0) = false |- _ => rewrite E in H
        end;
      cbn [Z.eqb Z.opp] in H; subst
  end.

Ltac adrv_status_leaf :=
  cbn [adrv_status]; first [exact I | adrv_value_leaf].

Lemma adrv9002_status : exits_adrv ADRV9002.main.
Proof.
  intros w fuel argc argv. cbv zeta. apply adrv_status_rev.
  apply (run_post (ADRV9002.main fuel argc argv) ADRV.globals0 w
           (fun o s => adrv_status o (trace s))).
  unfold ADRV9002.main. sym; try adrv_status_leaf.
  all: into_loop adrv9002_main_from_lo_status; destruct Hloop as [Hloop Hend].
  all: from_value; adrv_status_leaf.
Qed.

Lemma adrv9002_dds_status : exits_adrv ADRV9002_DDS.main.
Proof.
  intros w fuel argc argv. cbv zeta. apply adrv_status_rev.
  apply (run_post (ADRV9002_DDS.main fuel argc argv) ADRV.globals0 w
           (fun o s => adrv_status o (trace s))).
  unfold ADRV9002_DDS.main. sym; try adrv_status_leaf.
  all: into_loop adrv9002_dds_main_from_lo_status; destruct Hloop as [Hloop Hend].
  all: from_value; adrv_status_leaf.
Qed.

Lemma value_from_status status r tr :
  value_from status r tr ->
  adrv_status_from status (match r with Val v => Exited v | Stop o => o end) tr.
Proof.
  destruct r as [v|o]; cbn [value_from adrv_status_from]; [exact (fun H => H)|].
  intros ->. exact I.
Qed.

Lemma adrv9002_status_from : exits_adrv_from ADRV9002.main_from_lo.
Proof.
  intros w s fuel status. cbv zeta. apply adrv_status_from_rev.
  apply (run_from_post (ADRV9002.main_from_lo fuel status) w s
           (fun o s' => adrv_status_from status o (trace s'))).
  eapply wp_consequence; [apply adrv9002_main_from_lo_status|].
  intros r s' [_ H]. apply value_from_status in H. destruct r; exact H.
Qed.

Lemma adrv9002_dds_status_from : exits_adrv_from ADRV9002_DDS.main_from_lo.
Proof.
  intros w s fuel status. cbv zeta. apply adrv_status_from_rev.
  apply (run_from_post (ADRV9002_DDS.main_from_lo fuel status) w s
           (fun o s' => adrv_status_from status o (trace s'))).
  eapply wp_consequence; [apply adrv9002_dds_main_from_lo_status|].
  intros r s' [_ H]. apply value_from_status in H. destruct r; exact H.
Qed.

(** When the device adrv9002-phy is not found, [main] returns the value
    [-ENODEV] of [configure_trx_lo]. *)
Example adrv9002_exits_enodev :
  fst (run (ADRV9002.main 0 1 ["a.out"]) ADRV.globals0 no_device) = Exited (-19)
  /\ fst (run (ADRV9002_DDS.main 0 1 ["a.out"]) ADRV.globals0 no_device) = Exited (-19).
Proof. split; reflexivity. Qed.

(** C2, as the claim states it, fails on adrv9002-iiostream.c: when the
    device adrv9002-phy is not found, the exit status is the value
    [-ENODEV] that [main] returns, neither 0 nor [EXIT_FAILURE]. *)
Lemma adrv9002_exit_not_as_claimed : ~ exits_as_claimed ADRV9002.main ADRV.globals0.
Proof.
  intros H. specialize (H no_device 0%nat 1 ["a.out"]).
  vm_compute in H. destruct H as [H|H]; discriminate H.
Qed.

(** C2, amended: the AD4630, AD4696 and AD7768 examples end by an abort
    on a failed assertion or exit with status 0, never with
    [EXIT_FAILURE]; the two ADRV9002 examples never abort, and the value
    [main] returns as exit status is 0, [EXIT_FAILURE], [-ENODEV], or the
    nonzero code that a read or a write of a channel attribute returned
    during the run; from the test of the value of [configure_trx_lo] on,
    [main] returns that value when it is not 0, and one of these values
    when it is. *)
Theorem exit_status :
  exits_ad AD4630.main /\ exits_ad AD4696.main /\ exits_ad AD7768.main
  /\ exits_adrv ADRV9002.main /\ exits_adrv ADRV9002_DDS.main
  /\ exits_adrv_from ADRV9002.main_from_lo
  /\ exits_adrv_from ADRV9002_DDS.main_from_lo.
Proof.
  repeat split.
  - exact ad4630_status.
  - exact ad4696_status.
  - exact ad7768_status.
  - exact adrv9002_status.
  - exact adrv9002_dds_status.
  - exact adrv9002_status_from.
  - exact adrv9002_dds_status_from.
Qed.
(** ** Failures *)

Section FailureMachine.
Variables watched extra : call -> bool.

Local Abbreviation step := (fstep watched extra).

Lemma observe_seen {St : Type} (f : St -> event -> St) (init : St) (tr : list event) :
  observe f init (rev tr) = seen f init tr.
Proof.
  unfold observe, seen.
  pose proof (fold_left_rev_right (fun e st => f st e) (rev tr) init) as H.
  rewrite rev_involutive in H. symmetry. exact H.
Qed.

Lemma seen_nil {St : Type} (f : St -> event -> St) init : seen f init [] = init.
Proof. reflexivity. Qed.

Lemma seen_cons {St : Type} (f : St -> event -> St) init e tr :
  seen f init (e :: tr) = f (seen f init tr) e.
Proof. reflexivity. Qed.

Lemma seen_app {St : Type} (f : St -> event -> St) init ext tr :
  seen f init (ext ++ tr) = seen f (seen f init tr) ext.
Proof. unfold seen. apply fold_right_app. Qed.

Lemma observe_app {St : Type} (f : St -> event -> St) init h1 h2 :
  observe f init (h1 ++ h2) = observe f (observe f init h1) h2.
Proof. unfold observe. apply fold_left_app. Qed.

Lemma observe_broken post : observe step Broken post = Broken.
Proof. induction post as [|e post IH]; [reflexivity|exact IH]. Qed.

(** From the state [Failed], a run that does not break the machine has
    only events allowed after a failure. *)
Lemma observe_failed post :
  observe step Failed post <> Broken ->
  Forall (fun e => after_failure extra e = true) post
  /\ observe step Failed post = Failed.
Proof.
  induction post as [|e post IH]; [intros _; split; [constructor|reflexivity]|].
  change (observe step Failed (e :: post)) with (observe step (step Failed e) post).
  cbn [fstep].
  destruct (after_failure extra e) eqn:E.
  - intros H. destruct (IH H) as [H1 H2]. split; [constructor; assumption|exact H2].
  - rewrite observe_broken. congruence.
Qed.

Lemma step_failure st c r ran :
  watched c = true -> failed c r = true -> step st (Ecall c r ran) <> Clean.
Proof.
  intros Hw Hf. destruct st; cbn [fstep].
  - rewrite Hw, Hf. discriminate.
  - destruct (after_failure extra (Ecall c r ran)); discriminate.
  - discriminate.
Qed.

(** The machine decides the statement on the failures. *)
Lemma machine_sound h o :
  failure_handled (observe step Clean h) o -> stops_at_failures watched extra h o.
Proof.
  intros H pre c r ran post -> Hw Hf.
  rewrite observe_app in H.
  change (observe step (observe step Clean pre) (Ecall c r ran :: post))
    with (observe step (step (observe step Clean pre) (Ecall c r ran)) post) in H.
  pose proof (step_failure (observe step Clean pre) c r ran Hw Hf) as Hst.
  destruct (step (observe step Clean pre) (Ecall c r ran)); [congruence| |].
  - destruct (observe_failed post) as [H1 H2].
    + intros E. rewrite E in H. exact H.
    + rewrite H2 in H. split; assumption.
  - rewrite observe_broken in H. destruct H.
Qed.

(** Events allowed after a failure, none of them the answer to a call
    that can fail, leave the machine where it is. *)
Lemma seen_after_failure st ext :
  forallb (after_failure no_call) ext = true -> seen step st ext = st.
Proof.
  induction ext as [|[c r ran|b] ext IH]; cbn [forallb after_failure];
    [reflexivity| |discriminate].
  intros H. apply andb_true_iff in H as [Hc Hext].
  rewrite seen_cons, (IH Hext). unfold no_call in Hc.
  rewrite orb_false_r in Hc.
  destruct st; cbn [fstep after_failure]; [|rewrite Hc; reflexivity|reflexivity].
  assert (E : failed c r = false); [|rewrite E, andb_false_r; reflexivity].
  unfold failed. destruct c; cbn in Hc |- *; try reflexivity; discriminate Hc.
Qed.

Lemma inert_after_failure ext :
  forallb inert ext = true -> forallb (after_failure no_call) ext = true.
Proof.
  induction ext as [|[c r ran|b] ext IH]; cbn [forallb inert after_failure];
    [reflexivity| |discriminate].
  intros H. apply andb_true_iff in H as [Hc Hext]. rewrite Hc, (IH Hext). reflexivity.
Qed.

Lemma seen_inert st ext : forallb inert ext = true -> seen step st ext = st.
Proof. intros H. apply seen_after_failure, inert_after_failure, H. Qed.

End FailureMachine.

(** The state of the machine after the events of a trace. *)
Ltac machine_state :=
  repeat first [ rewrite seen_cons
               | rewrite seen_nil
               | rewrite seen_app
               | rewrite seen_after_failure by assumption
               | rewrite seen_inert by assumption
               | match goal with H : seen _ _ _ = _ |- _ => rewrite H end ].

Ltac machine_cbn :=
  cbn [fstep checked_call every_call no_call is_register_access is_debug_write
       returns_handle returns_code after_failure is_iio is_teardown negb andb orb
       ADRV.info ADRV.error].

Ltac machine_step := repeat (machine_cbn; progress unfold failed); machine_cbn.

(** The codes the program did not test. *)
Ltac untested_codes :=
  repeat match goal with
    | |- context [r_ret ?r <? 0] =>
        destruct (r_ret r <? 0) eqn:?; try solve [absurd_branch]; machine_step
    | |- context [r_ret ?r =? NULL] =>
        destruct (r_ret r =? NULL) eqn:?; try solve [absurd_branch]; machine_step
    end.

Ltac machine_run :=
  machine_state; plain_tests; repeat (machine_step; progress use_tests); machine_step;
  untested_codes.

Ltac failure_leaf :=
  machine_run; cbn [failure_handled ended]; first [exact I | reflexivity].

Ltac ad_failure_leaf :=
  machine_run; cbn [ad_failure_post failure_handled ended] in *;
  first [exact I | reflexivity | assumption].

(** The loop again, from a state the machine is [Clean] in. *)
Ltac loop_again IH :=
  apply IH; cbn [trace]; machine_run; reflexivity.

Lemma ad4630_streaming_failures fuel : forall w s,
  seen (fstep checked_call no_call) Clean (trace s) = Clean ->
  wp (AD4630.streaming fuel) w s
     (fun r s' => ad_failure_post (seen (fstep checked_call no_call) Clean (trace s')) r).
Proof.
  induction fuel as [|fuel IH]; intros w [g st hd tr cl] Hclean; cbn [trace] in Hclean;
    cbn [AD4630.streaming].
  all: sym; try solve [ad_failure_leaf]; loop_again IH.
Qed.

Lemma ad4696_streaming_failures fuel : forall w s,
  seen (fstep checked_call no_call) Clean (trace s) = Clean ->
  wp (AD4696.streaming fuel) w s
     (fun r s' => ad_failure_post (seen (fstep checked_call no_call) Clean (trace s')) r).
Proof.
  induction fuel as [|fuel IH]; intros w [g st hd tr cl] Hclean; cbn [trace] in Hclean;
    cbn [AD4696.streaming].
  all: sym; try solve [ad_failure_leaf]; loop_again IH.
Qed.

Lemma ad7768_streaming_failures fuel : forall w s,
  seen (fstep every_call no_call) Clean (trace s) = Clean ->
  wp (AD7768.streaming fuel) w s
     (fun r s' => ad_failure_post (seen (fstep every_call no_call) Clean (trace s')) r).
Proof.
  induction fuel as [|fuel IH]; intros w [g st hd tr cl] Hclean; cbn [trace] in Hclean;
    cbn [AD7768.streaming].
  all: sym; try solve [ad_failure_leaf]; loop_again IH.
Qed.


Lemma ad_failure_post_stop {A : Type} st o :
  @ad_failure_post A st (Stop o) -> failure_handled st o.
Proof. destruct st; exact (fun H => H). Qed.

Lemma ad_failure_post_val {A : Type} st (a : A) : ad_failure_post st (Val a) -> st = Clean.
Proof. destruct st; cbn; intros H; [reflexivity|destruct H|destruct H]. Qed.

(** The loop of [main], by the lemma [loop] on it, and what follows it. *)
Ltac ad_main_loop loop :=
  eapply wp_consequence; [apply loop; cbn [trace]; machine_run; reflexivity|];
  cbn beta; intros [?u|?o] ?s' ?Hloop;
  [ apply ad_failure_post_val in Hloop; sym; ad_failure_leaf
  | exact (ad_failure_post_stop _ _ Hloop) ].

Lemma ad4630_failures_handled w fuel argc argv :
  let out := run (AD4630.main fuel argc argv) ADC.globals0 w in
  failure_handled (seen (fstep checked_call no_call) Clean (trace (snd out))) (fst out).
Proof.
  apply (run_post (AD4630.main fuel argc argv) ADC.globals0 w
           (fun o s => failure_handled (seen (fstep checked_call no_call) Clean (trace s)) o)).
  unfold AD4630.main. sym; try solve [ad_failure_leaf].
  all: ad_main_loop ad4630_streaming_failures.
Qed.

Lemma ad4696_failures_handled w fuel argc argv :
  let out := run (AD4696.main fuel argc argv) ADC.globals0 w in
  failure_handled (seen (fstep checked_call no_call) Clean (trace (snd out))) (fst out).
Proof.
  apply (run_post (AD4696.main fuel argc argv) ADC.globals0 w
           (fun o s => failure_handled (seen (fstep checked_call no_call) Clean (trace s)) o)).
  unfold AD4696.main. sym; try solve [ad_failure_leaf].
  all: ad_main_loop ad4696_streaming_failures.
Qed.

Lemma ad7768_failures_handled w fuel argc argv :
  let out := run (AD7768.main fuel argc argv) ADC.globals0 w in
  failure_handled (seen (fstep every_call no_call) Clean (trace (snd out))) (fst out).
Proof.
  apply (run_post (AD7768.main fuel argc argv) ADC.globals0 w
           (fun o s => failure_handled (seen (fstep every_call no_call) Clean (trace s)) o)).
  unfold AD7768.main. sym; try solve [ad_failure_leaf].
  all: ad_main_loop ad7768_streaming_failures.
Qed.

Ltac adrv_failure_leaf :=
  machine_run; cbn [adrv_failure_post failure_handled ended out_of_fuel_or_val] in *;
  first [exact I | reflexivity | assumption].

Lemma adrv9002_streaming_failures fuel : forall inner w s,
  seen (fstep checked_call is_debug_write) Clean (trace s) = Clean ->
  wp (ADRV9002.streaming fuel inner) w s
     (fun r s' =>
        adrv_failure_post (seen (fstep checked_call is_debug_write) Clean (trace s')) r).
Proof.
  induction fuel as [|fuel IH]; intros inner w [g st hd tr cl] Hclean;
    cbn [trace] in Hclean; cbn [ADRV9002.streaming].
  all: sym; try solve [adrv_failure_leaf]; loop_again IH.
Qed.

Lemma adrv9002_dds_streaming_failures fuel : forall inner w s,
  seen (fstep every_call no_call) Clean (trace s) = Clean ->
  wp (ADRV9002_DDS.streaming fuel inner) w s
     (fun r s' => adrv_failure_post (seen (fstep every_call no_call) Clean (trace s')) r).
Proof.
  induction fuel as [|fuel IH]; intros inner w [g st hd tr cl] Hclean;
    cbn [trace] in Hclean; cbn [ADRV9002_DDS.streaming].
  all: sym; try solve [adrv_failure_leaf]; loop_again IH.
Qed.

Lemma adrv_failure_post_handled st r :
  adrv_failure_post st r ->
  failure_handled st (match r with Val v => Exited v | Stop o => o end).
Proof.
  destruct st, r; cbn; intros H; try exact I; destruct H.
Qed.

(** The loop of [main], by the lemma [loop] on it, and what follows it. *)
Ltac adrv_main_loop loop :=
  eapply wp_consequence; [apply loop; cbn [trace]; machine_run; reflexivity|];
  cbn beta; intros [?u|?o] ?s' ?Hloop;
  [ match type of Hloop with
    | adrv_failure_post ?st _ => destruct st eqn:?Hclean; [| |destruct Hloop]
    end; sym; adrv_failure_leaf
  | exact Hloop ].

Lemma adrv9002_main_from_lo_failures fuel status w s :
  seen (fstep checked_call is_debug_write) Clean (trace s) = Clean ->
  wp (ADRV9002.main_from_lo fuel status) w s
     (fun r s' =>
        adrv_failure_post (seen (fstep checked_call is_debug_write) Clean (trace s')) r).
Proof.
  destruct s as [g st hd tr cl]. intros Hclean. cbn [trace] in Hclean.
  unfold ADRV9002.main_from_lo. sym; try solve [adrv_failure_leaf].
  all: adrv_main_loop adrv9002_streaming_failures.
Qed.

Lemma adrv9002_dds_main_from_lo_failures fuel status w s :
  seen (fstep every_call no_call) Clean (trace s) = Clean ->
  wp (ADRV9002_DDS.main_from_lo fuel status) w s
     (fun r s' => adrv_failure_post (seen (fstep every_call no_call) Clean (trace s')) r).
Proof.
  destruct s as [g st hd tr cl]. intros Hclean. cbn [trace] in Hclean.
  unfold ADRV9002_DDS.main_from_lo. sym; try solve [adrv_failure_leaf].
  all: adrv_main_loop adrv9002_dds_streaming_failures.
Qed.

Lemma adrv9002_failures_handled w fuel argc argv :
  let out := run (ADRV9002.main fuel argc argv) ADRV.globals0 w in
  failure_handled (seen (fstep checked_call is_debug_write) Clean (trace (snd out)))
                  (fst out).
Proof.
  apply (run_post (ADRV9002.main fuel argc argv) ADRV.globals0 w
           (fun o s =>
              failure_handled (seen (fstep checked_call is_debug_write) Clean (trace s)) o)).
  unfold ADRV9002.main, ADRV9002.main_from_lo. sym; adrv_failure_leaf.
Qed.

Lemma adrv9002_dds_failures_handled w fuel argc argv :
  let out := run (ADRV9002_DDS.main fuel argc argv) ADRV.globals0 w in
  failure_handled (seen (fstep every_call no_call) Clean (trace (snd out))) (fst out).
Proof.
  apply (run_post (ADRV9002_DDS.main fuel argc argv) ADRV.globals0 w
           (fun o s => failure_handled (seen (fstep every_call no_call) Clean (trace s)) o)).
  unfold ADRV9002_DDS.main, ADRV9002_DDS.main_from_lo. sym; adrv_failure_leaf.
Qed.

Lemma handled_fails_safe {G : Type} watched extra (s : pstate G) o :
  failure_handled (seen (fstep watched extra) Clean (trace s)) o ->
  stops_at_failures watched extra (history s) o.
Proof.
  intros H. apply machine_sound. unfold history. rewrite observe_seen. exact H.
Qed.

Lemma ad4630_fails_safe : fails_safe checked_call no_call AD4630.main ADC.globals0.
Proof. intros w fuel argc argv. apply handled_fails_safe, ad4630_failures_handled. Qed.

Lemma ad4696_fails_safe : fails_safe checked_call no_call AD4696.main ADC.globals0.
Proof. intros w fuel argc argv. apply handled_fails_safe, ad4696_failures_handled. Qed.

Lemma ad7768_fails_safe : fails_safe every_call no_call AD7768.main ADC.globals0.
Proof. intros w fuel argc argv. apply handled_fails_safe, ad7768_failures_handled. Qed.

Lemma adrv9002_fails_safe :
  fails_safe checked_call is_debug_write ADRV9002.main ADRV.globals0.
Proof. intros w fuel argc argv. apply handled_fails_safe, adrv9002_failures_handled. Qed.

Lemma adrv9002_dds_fails_safe : fails_safe every_call no_call ADRV9002_DDS.main ADRV.globals0.
Proof.
  intros w fuel argc argv. apply handled_fails_safe, adrv9002_dds_failures_handled.
Qed.

Lemma adrv9002_fails_safe_from :
  fails_safe_from checked_call is_debug_write ADRV9002.main_from_lo.
Proof.
  intros w s fuel status Hclean. cbv zeta. apply handled_fails_safe.
  unfold history in Hclean. rewrite observe_seen in Hclean.
  apply (run_from_post (ADRV9002.main_from_lo fuel status) w s
           (fun o s' =>
              failure_handled (seen (fstep checked_call is_debug_write) Clean (trace s')) o)).
  eapply wp_consequence; [apply adrv9002_main_from_lo_failures, Hclean|].
  intros r s' H. apply adrv_failure_post_handled in H. destruct r; exact H.
Qed.

Lemma adrv9002_dds_fails_safe_from :
  fails_safe_from every_call no_call ADRV9002_DDS.main_from_lo.
Proof.
  intros w s fuel status Hclean. cbv zeta. apply handled_fails_safe.
  unfold history in Hclean. rewrite observe_seen in Hclean.
  apply (run_from_post (ADRV9002_DDS.main_from_lo fuel status) w s
           (fun o s' =>
              failure_handled (seen (fstep every_call no_call) Clean (trace s')) o)).
  eapply wp_consequence; [apply adrv9002_dds_main_from_lo_failures, Hclean|].
  intros r s' H. apply adrv_failure_post_handled in H. destruct r; exact H.
Qed.

(** A run of the AD4630 example where the write of the register fails:
    the program goes on to the creation of the buffer. *)
Example ad4630_write_refused :
  let out := run (AD4630.main 0 1 ["a.out"]) ADC.globals0 write_refused in
  fst out = Exited 0
  /\ firstn 8 (calls (history (snd out)))
     = [signal SIGINT; printf "* Acquiring IIO context\n" [];
        iio_create_default_context; iio_context_get_devices_count 1;
        printf "* Acquiring AD4630-24 streaming devices\n" [];
        iio_context_find_device 1 "ad4630"; iio_device_reg_write 1 32 129;
        iio_device_reg_read 1 32].
Proof. split; vm_compute; reflexivity. Qed.

(** C1, as the claim states it, fails on ad4630-iiostream.c: the value of
    [iio_device_reg_write] is not looked at, and after a negative one the
    program reads the register and goes on. *)
Lemma ad4630_write_failure_ignored :
  ~ fails_safe every_call no_call AD4630.main ADC.globals0.
Proof.
  unfold fails_safe. intros H.
  pose proof (H write_refused 0%nat 1 ["a.out"]) as H1. cbv zeta in H1.
  set (h := history (snd (run (AD4630.main 0 1 ["a.out"]) ADC.globals0 write_refused)))
    in H1.
  assert (E : h = firstn 6 h ++ Ecall (iio_device_reg_write 1 32 129) (mkResp (-1) [] []) []
                               :: skipn 7 h) by (vm_compute; reflexivity).
  destruct (H1 _ _ _ _ _ E) as [_ Hpost]; [reflexivity|reflexivity|].
  rewrite Forall_forall in Hpost.
  assert (Hin : In (Ecall (iio_device_reg_read 1 32) (mkResp 1 [] []) []) (skipn 7 h))
    by (vm_compute; left; reflexivity).
  apply Hpost in Hin. vm_compute in Hin. discriminate Hin.
Qed.

(** C1, amended: in every example, once a lookup (of a context, a device,
    a channel, the creation of a buffer) has returned NULL, or a read or
    a write of a channel attribute or the refill of a buffer has returned
    a negative code, the process ends, by an abort or by an exit, and
    until then makes no call into the IIO library but those that release
    a handle and, in adrv9002-iiostream.c, the write of the debug
    attribute; the values of [iio_device_reg_write], [iio_device_reg_read]
    and [iio_device_debug_attr_write] are not looked at, in the examples
    that make these calls (AD4630, AD4696, adrv9002-iiostream.c). *)
Theorem failures_end_the_run :
  fails_safe checked_call no_call AD4630.main ADC.globals0
  /\ fails_safe checked_call no_call AD4696.main ADC.globals0
  /\ fails_safe every_call no_call AD7768.main ADC.globals0
  /\ fails_safe checked_call is_debug_write ADRV9002.main ADRV.globals0
  /\ fails_safe every_call no_call ADRV9002_DDS.main ADRV.globals0
  /\ fails_safe_from checked_call is_debug_write ADRV9002.main_from_lo
  /\ fails_safe_from every_call no_call ADRV9002_DDS.main_from_lo.
Proof.
  repeat apply conj.
  - exact ad4630_fails_safe.
  - exact ad4696_fails_safe.
  - exact ad7768_fails_safe.
  - exact adrv9002_fails_safe.
  - exact adrv9002_dds_fails_safe.
  - exact adrv9002_fails_safe_from.
  - exact adrv9002_dds_fails_safe_from.
Qed.
(** ** The functions of the examples *)

(** The events a computation added, from its trace. *)
Lemma adds_trace {G : Type} (s s' : pstate G) ext :
  trace s' = ext ++ trace s -> adds s s' (rev ext).
Proof. intros H. unfold adds, history. rewrite H. apply rev_app_distr. Qed.

(** The trace of a leaf of a symbolic execution, as what was added. *)
Ltac added_events :=
  lazymatch goal with
  | |- exists added, adds ?s ?s' added /\ _ =>
      eexists; split;
      [ apply adds_trace; cbn [trace];
        repeat first [ exact (eq_refl : _ = [] ++ _)
                     | match goal with
                       | |- ?e :: ?tr = ?ext ++ ?tr0 =>
                           let ext' := fresh "ext" in
                           evar (ext' : list event);
                           unify ext (e :: ext'); subst ext'; cbn [app]; f_equal
                       end ]
      | cbn [rev app calls] ]
  end.

(** X1: [shutdown] never returns: whatever the state it is called in, the
    process exits with status 0 after the three messages and the
    releases of the buffer, the channel and the context, in this order,
    each one made only if the handle is not NULL; the globals are left
    as they were. *)
Theorem shutdown_exits_releasing {A : Type} (w : world) (s : pstate ADC.globals) :
  let out := @ADC.shutdown A w s in
  fst out = Stop (Exited 0)
  /\ glob (snd out) = glob s
  /\ exists added, adds s (snd out) added /\ calls added = shutdown_calls (glob s).
Proof.
  apply (wp_elim w (@ADC.shutdown A) s
           (fun r s' => r = Stop (Exited 0) /\ glob s' = glob s
                        /\ exists added, adds s s' added
                                         /\ calls added = shutdown_calls (glob s))).
  destruct s as [g st hd tr cl]. go.
  all: split; [reflexivity|split; [reflexivity|]]; added_events;
    unfold shutdown_calls, release; cbn [glob]; use_tests; reflexivity.
Qed.

(** X2: [cleanup] returns after it has destroyed the two buffers that are
    not NULL, disabled the channels of [rx_chan] and [tx_chan] that are not
    NULL, index by index, and destroyed the context, which it does not
    compare to NULL; it makes no other call and leaves the globals as they
    were. *)
Theorem cleanup_releases (line : Z) (w : world) (s : pstate ADRV.globals) :
  let out := ADRV.cleanup line w s in
  fst out = Val tt
  /\ glob (snd out) = glob s
  /\ exists added, adds s (snd out) added /\ calls added = adrv_released (glob s).
Proof.
  apply (wp_elim w (ADRV.cleanup line) s
           (fun r s' => r = Val tt /\ glob s' = glob s
                        /\ exists added, adds s s' added
                                         /\ calls added = adrv_released (glob s))).
  destruct s as [g st hd tr cl]. go.
  all: split; [reflexivity|split; [reflexivity|]]; added_events;
    unfold adrv_released, release; cbn [glob]; use_tests; reflexivity.
Qed.

(** X3: [rd_ch_lli] returns the value the library stored when the read of
    the attribute returned a code that is not negative, after printing it;
    when the code is negative the process prints the message of [errchk],
    releases its handles as [shutdown] does, and exits with status 0. *)
Theorem rd_ch_lli_reads_or_exits (chn : Z) (what : string) (w : world)
    (s : pstate ADC.globals) :
  let read := iio_channel_attr_read_longlong chn what in
  let r := w (clock s) read in
  let out := ADC.rd_ch_lli chn what w s in
  (0 <= r_ret r ->
   fst out = Val (nth 0 (r_out r) 0)
   /\ exists added,
        adds s (snd out) added
        /\ calls added
           = [read; printf "\t %s: %lld\n" [PStr what; PInt (nth 0 (r_out r) 0)]])
  /\ (r_ret r < 0 ->
      fst out = Stop (Exited 0)
      /\ exists added,
           adds s (snd out) added
           /\ calls added
              = read :: errchk_message (r_ret r) what :: shutdown_calls (glob s))
  /\ glob (snd out) = glob s.
Proof.
  cbv zeta.
  apply (wp_elim w (ADC.rd_ch_lli chn what) s
           (fun res s' =>
              (0 <= r_ret (w (clock s) (iio_channel_attr_read_longlong chn what)) ->
               res = Val (nth 0 (r_out (w (clock s)
                                          (iio_channel_attr_read_longlong chn what))) 0)
               /\ exists added,
                    adds s s' added
                    /\ calls added
                       = [iio_channel_attr_read_longlong chn what;
                          printf "\t %s: %lld\n"
                            [PStr what;
                             PInt (nth 0 (r_out (w (clock s)
                                      (iio_channel_attr_read_longlong chn what))) 0)]])
              /\ (r_ret (w (clock s) (iio_channel_attr_read_longlong chn what)) < 0 ->
                  res = Stop (Exited 0)
                  /\ exists added,
                       adds s s' added
                       /\ calls added
                          = iio_channel_attr_read_longlong chn what
                            :: errchk_message
                                 (r_ret (w (clock s)
                                           (iio_channel_attr_read_longlong chn what))) what
                            :: shutdown_calls (glob s))
              /\ glob s' = glob s)).
  destruct s as [g st hd tr cl]. go_at.
  all: cbn [clock glob] in *; (split; [intros ?|split; [intros ?|reflexivity]]).
  all: try solve [exfalso; bool_facts; lia].
  all: split; [reflexivity|]; added_events;
    unfold shutdown_calls, release, errchk_message; use_tests; reflexivity.
Qed.

(** X4: [register_signals] returns 0 when the two calls of [sigaction]
    returned a value that is not negative and [sigprocmask] returned 0,
    and then the handler is installed for SIGTERM and SIGINT; otherwise
    it returns -1.  It makes no call into the IIO library and leaves the
    globals as they were. *)
Theorem register_signals_result (line l1 l2 l3 : Z) (w : world)
    (s : pstate ADRV.globals) :
  let out := ADRV.register_signals line l1 l2 l3 w s in
  (registration_succeeds w (clock s) ->
   fst out = Val 0 /\ handled (snd out) = SIGINT :: SIGTERM :: handled s)
  /\ (~ registration_succeeds w (clock s) -> fst out = Val (-1))
  /\ glob (snd out) = glob s
  /\ exists added, adds s (snd out) added /\ iio_calls added = [].
Proof.
  cbv zeta.
  apply (wp_elim w (ADRV.register_signals line l1 l2 l3) s
           (fun r s' =>
              (registration_succeeds w (clock s) ->
               r = Val 0 /\ handled s' = SIGINT :: SIGTERM :: handled s)
              /\ (~ registration_succeeds w (clock s) -> r = Val (-1))
              /\ glob s' = glob s
              /\ exists added, adds s s' added /\ iio_calls added = [])).
  destruct s as [g st hd tr cl]. go_at.
  all: cbn [clock glob handled] in *;
    unfold registration_succeeds, sigterm_answer, sigint_answer, unblock_answer.
  all: repeat apply conj; try reflexivity.
  all: try solve [intros; split; reflexivity].
  all: try solve [intros; exfalso; bool_facts; lia].
  all: try solve [intros H; exfalso; apply H; bool_facts; lia].
  all: added_events; reflexivity.
Qed.

(** X5: [stream_channels_get_enable] looks the two channels up in turn,
    stores each result in the array, also when it is NULL, and enables
    each channel it found; it returns [-ENODEV] at the first channel that
    is missing, without looking the next one up, and 0 when both were
    found. *)
Theorem stream_channels_get_enable_result (hline line dev : Z) (chan : ADRV.chan_array)
    (tx : bool) (w : world) (s : pstate ADRV.globals) :
  let find c := iio_device_find_channel dev (stream_channel_name tx c) tx in
  let missing c :=
    ADRV.error "stream_channels_get_enable" line "Could not find %s channel tx=%d\n"
               [PStr (stream_channel_name tx c); PInt (if tx then 1 else 0)] in
  let p0 := r_ret (w (clock s) (find 0%nat)) in
  let p1 := r_ret (w (S (S (clock s))) (find 1%nat)) in
  let out := ADRV.stream_channels_get_enable hline line dev chan tx w s in
  (p0 = NULL ->
   fst out = Val (- ENODEV)
   /\ glob (snd out) = ADRV.set_chan chan 0 NULL (glob s)
   /\ exists added, adds s (snd out) added /\ calls added = [find 0%nat; missing 0%nat])
  /\ (p0 <> NULL -> p1 = NULL ->
      fst out = Val (- ENODEV)
      /\ glob (snd out) = ADRV.set_chan chan 1 NULL (ADRV.set_chan chan 0 p0 (glob s))
      /\ exists added,
           adds s (snd out) added
           /\ calls added = [find 0%nat; iio_channel_enable p0; find 1%nat; missing 1%nat])
  /\ (p0 <> NULL -> p1 <> NULL ->
      fst out = Val 0
      /\ glob (snd out) = ADRV.set_chan chan 1 p1 (ADRV.set_chan chan 0 p0 (glob s))
      /\ exists added,
           adds s (snd out) added
           /\ calls added
              = [find 0%nat; iio_channel_enable p0; find 1%nat; iio_channel_enable p1]).
Proof.
  cbv zeta.
  set (find := fun c => iio_device_find_channel dev (stream_channel_name tx c) tx).
  set (p0 := r_ret (w (clock s) (find 0%nat))).
  set (p1 := r_ret (w (S (S (clock s))) (find 1%nat))).
  apply (wp_elim w (ADRV.stream_channels_get_enable hline line dev chan tx) s
           (fun r s' =>
              (p0 = NULL ->
               r = Val (- ENODEV)
               /\ glob s' = ADRV.set_chan chan 0 NULL (glob s)
               /\ exists added,
                    adds s s' added
                    /\ calls added
                       = [find 0%nat;
                          ADRV.error "stream_channels_get_enable" line
                            "Could not find %s channel tx=%d\n"
                            [PStr (stream_channel_name tx 0); PInt (if tx then 1 else 0)]])
              /\ (p0 <> NULL -> p1 = NULL ->
                  r = Val (- ENODEV)
                  /\ glob s' = ADRV.set_chan chan 1 NULL (ADRV.set_chan chan 0 p0 (glob s))
                  /\ exists added,
                       adds s s' added
                       /\ calls added
                          = [find 0%nat; iio_channel_enable p0; find 1%nat;
                             ADRV.error "stream_channels_get_enable" line
                               "Could not find %s channel tx=%d\n"
                               [PStr (stream_channel_name tx 1);
                                PInt (if tx then 1 else 0)]])
              /\ (p0 <> NULL -> p1 <> NULL ->
                  r = Val 0
                  /\ glob s' = ADRV.set_chan chan 1 p1 (ADRV.set_chan chan 0 p0 (glob s))
                  /\ exists added,
                       adds s s' added
                       /\ calls added
                          = [find 0%nat; iio_channel_enable p0; find 1%nat;
                             iio_channel_enable p1]))).
  subst find p0 p1. unfold stream_channel_name.
  destruct s as [g st hd tr cl]. go_at.
  all: cbn [clock glob] in *; repeat apply conj; intros.
  all: try solve [exfalso; bool_facts; congruence].
  all: repeat apply conj; try reflexivity.
  all: try solve [bool_facts; repeat match goal with H : r_ret _ = NULL |- _ =>
                                     rewrite H end; reflexivity].
  all: try solve [added_events; reflexivity].
Qed.

(** ** Functions that return at the first failure *)

Lemma follow_lookup_failed w n c msg rest :
  (r_ret (w n c) =? NULL) = true ->
  follow w n (Lookup c msg :: rest) = (Some (- ENODEV), [c; msg]).
Proof. intros H. cbn [follow]. rewrite H. reflexivity. Qed.

Lemma follow_lookup w n c msg rest :
  (r_ret (w n c) =? NULL) = false ->
  follow w n (Lookup c msg :: rest) = after c (follow w (S n) rest).
Proof. intros H. cbn [follow]. rewrite H. reflexivity. Qed.

Lemma follow_access_failed w n c rest :
  negb (r_ret (w n c) =? 0) = true ->
  follow w n (Access c :: rest) = (Some (r_ret (w n c)), [c]).
Proof. intros H. cbn [follow]. rewrite H. reflexivity. Qed.

Lemma follow_access w n c rest :
  negb (r_ret (w n c) =? 0) = false ->
  follow w n (Access c :: rest) = after c (follow w (S n) rest).
Proof. intros H. cbn [follow]. rewrite H. reflexivity. Qed.

Lemma follow_plain w n c rest :
  follow w n (Plain c :: rest) = after c (follow w (S n) rest).
Proof. reflexivity. Qed.

Lemma follow_end w n : follow w n [] = (None, []).
Proof. reflexivity. Qed.

(** A failure gives a value that is not 0. *)
Lemma follow_failure w plan : forall n v,
  fst (follow w n plan) = Some v -> v <> 0.
Proof.
  induction plan as [|[c msg|c|c] plan IH]; intros n v; cbn [follow].
  - discriminate.
  - destruct (r_ret (w n c) =? NULL); cbn [after fst]; [|apply IH].
    intros H. injection H as <-. discriminate.
  - destruct (r_ret (w n c) =? 0) eqn:E; cbn [negb after fst]; [apply IH|].
    intros H. injection H as <-. apply Z.eqb_neq, E.
  - cbn [after fst]. apply IH.
Qed.

(** The plan of a function, followed by the tests of a leaf of its
    symbolic execution. *)
Ltac followed :=
  answers;
  cbv beta delta [single_tone_plan dual_tone_plan tx_dds_plan dds_steps trx_lo_plan
                  trx_lo_dds_plan lo_steps lo_lookup tone_steps dds_step find_dds
                  find_phy phase_write];
  cbn beta iota delta [app];
  repeat first [ rewrite follow_lookup_failed by assumption
               | rewrite follow_lookup by assumption
               | rewrite follow_access_failed by assumption
               | rewrite follow_access by assumption
               | rewrite follow_plain
               | rewrite follow_end ];
  lazymatch goal with
  | |- context [follow] => fail "a step is not decided"
  | _ => idtac
  end;
  cbn beta iota delta [after fst snd]; reflexivity.

Ltac plan_leaf :=
  match goal with
  | |- context [follow ?w ?n ?plan] =>
      let E := fresh "E" in
      eassert (E : follow w n plan = _) by (try unfold plan; followed);
      rewrite E; clear E; cbn beta iota delta [fst snd status_of]
  end;
  split; [answers; reflexivity|split; [reflexivity|]];
  added_events; answers;
  first [ split; [reflexivity|];
          first [reflexivity | intros H; exfalso; apply H; reflexivity]
        | reflexivity ].

Lemma tone_names_cases channel :
  (tone_names channel = ("altvoltage0", "altvoltage2")
   /\ tone_lines channel = (422, 437) /\ (channel =? 0) = true)
  \/ (tone_names channel = ("altvoltage4", "altvoltage6")
      /\ tone_lines channel = (454, 469) /\ (channel =? 0) = false).
Proof.
  unfold tone_names, tone_lines. destruct (channel =? 0); [left|right]; repeat split.
Qed.

(** X6: [dds_single_tone] takes the steps of its plan in the order of the
    source, with the device and the channels the library answered to its
    lookups (of the channels of channel 0, or of the other ones): the
    lookup of the device, then for I and for Q the lookup of the channel
    and the writes of its frequency and of its scale, then the enabling
    of the two channels.  It stops at the first lookup that returns NULL,
    prints the message and returns [-ENODEV], or at the first write that
    returns another code than 0, and returns that code; it returns 0 when
    no step failed, and it has enabled a channel only then.  The globals
    are left as they were. *)
Theorem dds_single_tone_result (freq_val scale_val channel : Z) (w : world)
    (s : pstate ADRV.globals) :
  let names := tone_names channel in
  let tx := r_ret (w (clock s) (find_dds (ADRV.ctx (glob s)))) in
  let chan_i :=
    r_ret (w (1 + clock s)%nat (iio_device_find_channel tx (fst names) true)) in
  let chan_q :=
    r_ret (w (4 + clock s)%nat (iio_device_find_channel tx (snd names) true)) in
  let plan :=
    single_tone_plan names (tone_lines channel) (ADRV.ctx (glob s)) tx chan_i chan_q
                     freq_val scale_val in
  let out := ADRV9002.dds_single_tone freq_val scale_val channel w s in
  fst out = Val (status_of (fst (follow w (clock s) plan)))
  /\ glob (snd out) = glob s
  /\ exists added,
       adds s (snd out) added
       /\ calls added = snd (follow w (clock s) plan)
       /\ (fst (follow w (clock s) plan) <> None -> select is_enable added = []).
Proof.
  destruct s as [g st hd tr cl]. cbn beta iota delta [clock glob].
  destruct (tone_names_cases channel) as [[E1 [E2 Hch]]|[E1 [E2 Hch]]]; rewrite E1, E2;
    clear E1 E2; intros names tx chan_i chan_q plan out; subst out.
  all: apply (wp_elim w _ _
           (fun r s' =>
              r = Val (status_of (fst (follow w cl plan)))
              /\ glob s' = g
              /\ exists added,
                   adds (mkState g st hd tr cl) s' added
                   /\ calls added = snd (follow w cl plan)
                   /\ (fst (follow w cl plan) <> None -> select is_enable added = []))).
  all: go_eq.
  all: plan_leaf.
Qed.

Lemma dual_names_cases channel :
  (dual_names channel = (("altvoltage0", "altvoltage2"), ("altvoltage1", "altvoltage3"))
   /\ dual_lines channel = ((530, 545), (565, 580)) /\ (channel =? 0) = true)
  \/ (dual_names channel = (("altvoltage4", "altvoltage6"), ("altvoltage5", "altvoltage7"))
      /\ dual_lines channel = ((601, 616), (635, 650)) /\ (channel =? 0) = false).
Proof.
  unfold dual_names, dual_lines. destruct (channel =? 0); [left|right]; repeat split.
Qed.

Lemma dds_names_cases channel :
  (tone_names channel = ("altvoltage0", "altvoltage2")
   /\ dds_lines channel = ((230, 247, 253), (258, 275, 281)) /\ (channel =? 0) = true)
  \/ (tone_names channel = ("altvoltage4", "altvoltage6")
      /\ dds_lines channel = ((287, 304, 310), (315, 332, 338))
      /\ (channel =? 0) = false).
Proof.
  unfold tone_names, dds_lines. destruct (channel =? 0); [left|right]; repeat split.
Qed.

(** X8: [dds_dual_tone], which no function of the file calls, takes the
    steps of its plan in the order of the source, with the device and the
    channels the library answered to its lookups: for the channels I and
    Q of the first tone and then for those of the second one, the lookup
    and the writes of the frequency and of the scale, and of the phase
    90000 for each channel Q; at the end it enables the two channels of
    the second tone only, the ones its variables hold then.  It stops at
    the first lookup that returns NULL, prints the message and returns
    [-ENODEV], or at the first write that returns another code than 0,
    and returns that code; it returns 0 when no step failed, and it has
    enabled a channel only then. *)
Theorem dds_dual_tone_result (freq_val1 scale_val1 freq_val2 scale_val2 channel : Z)
    (w : world) (s : pstate ADRV.globals) :
  let names := dual_names channel in
  let tx := r_ret (w (clock s) (find_dds (ADRV.ctx (glob s)))) in
  let find name := iio_device_find_channel tx name true in
  let i1 := r_ret (w (1 + clock s)%nat (find (fst (fst names)))) in
  let q1 := r_ret (w (4 + clock s)%nat (find (snd (fst names)))) in
  let i2 := r_ret (w (8 + clock s)%nat (find (fst (snd names)))) in
  let q2 := r_ret (w (11 + clock s)%nat (find (snd (snd names)))) in
  let plan :=
    dual_tone_plan names (dual_lines channel) (ADRV.ctx (glob s)) tx i1 q1 i2 q2
                   freq_val1 scale_val1 freq_val2 scale_val2 in
  let out :=
    ADRV9002.dds_dual_tone freq_val1 scale_val1 freq_val2 scale_val2 channel w s in
  fst out = Val (status_of (fst (follow w (clock s) plan)))
  /\ glob (snd out) = glob s
  /\ exists added,
       adds s (snd out) added
       /\ calls added = snd (follow w (clock s) plan)
       /\ (fst (follow w (clock s) plan) <> None -> select is_enable added = []).
Proof.
  destruct s as [g st hd tr cl]. cbn beta iota delta [clock glob].
  destruct (dual_names_cases channel) as [[E1 [E2 Hch]]|[E1 [E2 Hch]]]; rewrite E1, E2;
    clear E1 E2; intros names tx find i1 q1 i2 q2 plan out; subst out.
  all: apply (wp_elim w _ _
           (fun r s' =>
              r = Val (status_of (fst (follow w cl plan)))
              /\ glob s' = g
              /\ exists added,
                   adds (mkState g st hd tr cl) s' added
                   /\ calls added = snd (follow w cl plan)
                   /\ (fst (follow w cl plan) <> None -> select is_enable added = []))).
  all: unfold ADRV9002.dds_dual_tone, ADRV9002.dual_channels, ADRV9002.dual_part.
  all: go_eq.
  all: plan_leaf.
Qed.

(** X7: [configure_tx_dds] takes the steps of its plan in the order of
    the source, with the device and the channels the library answered to
    its lookups: for the channel I the writes of the frequency and of the
    scale it was called with, and the reads of both, which are printed;
    for the channel Q the same, but the values written are those the
    library gave back for the channel I, not the ones the function was
    called with.  It stops at the first lookup that returns NULL, prints
    the message and returns [-ENODEV], or at the first access that
    returns another code than 0, and returns that code; it returns 0 when
    no step failed, and it has enabled the two channels only then. *)
Theorem configure_tx_dds_result (freq_val scale_val channel : Z) (w : world)
    (s : pstate ADRV.globals) :
  let names := tone_names channel in
  let tx := r_ret (w (clock s) (find_dds (ADRV.ctx (glob s)))) in
  let chan_i :=
    r_ret (w (1 + clock s)%nat (iio_device_find_channel tx (fst names) true)) in
  let freq_i :=
    stored w (4 + clock s) (iio_channel_attr_read_longlong chan_i "frequency") in
  let scale_i :=
    stored w (6 + clock s) (iio_channel_attr_read_double chan_i "scale") in
  let chan_q :=
    r_ret (w (8 + clock s)%nat (iio_device_find_channel tx (snd names) true)) in
  let freq_q :=
    stored w (11 + clock s) (iio_channel_attr_read_longlong chan_q "frequency") in
  let scale_q :=
    stored w (13 + clock s) (iio_channel_attr_read_double chan_q "scale") in
  let plan :=
    tx_dds_plan names (dds_lines channel) (ADRV.ctx (glob s)) tx chan_i chan_q
                freq_val scale_val freq_i scale_i freq_q scale_q in
  let out := ADRV9002_DDS.configure_tx_dds freq_val scale_val channel w s in
  fst out = Val (status_of (fst (follow w (clock s) plan)))
  /\ glob (snd out) = glob s
  /\ exists added,
       adds s (snd out) added
       /\ calls added = snd (follow w (clock s) plan)
       /\ (fst (follow w (clock s) plan) <> None -> select is_enable added = []).
Proof.
  destruct s as [g st hd tr cl]. cbn beta iota delta [clock glob].
  destruct (dds_names_cases channel) as [[E1 [E2 Hch]]|[E1 [E2 Hch]]]; rewrite E1, E2;
    clear E1 E2;
    intros names tx chan_i freq_i scale_i chan_q freq_q scale_q plan out; subst out.
  all: apply (wp_elim w _ _
           (fun r s' =>
              r = Val (status_of (fst (follow w cl plan)))
              /\ glob s' = g
              /\ exists added,
                   adds (mkState g st hd tr cl) s' added
                   /\ calls added = snd (follow w cl plan)
                   /\ (fst (follow w cl plan) <> None -> select is_enable added = []))).
  all: go_eq.
  all: plan_leaf.
Qed.

(** In an environment where the library gives back 1234 and 77 for the
    channel I, these are the values written to the channel Q. *)
Example configure_tx_dds_writes_back :
  let out := ADRV9002_DDS.configure_tx_dds 5000 ADRV.double_0_4 0 reading_back
               with_context in
  fst out = Val 0
  /\ calls (history (snd out))
     = [iio_context_find_device 1 "axi-adrv9002-tx-lpc";
        iio_device_find_channel 1 "altvoltage0" true;
        iio_channel_attr_write_longlong 1 "frequency" 5000;
        iio_channel_attr_write_double 1 "scale" ADRV.double_0_4;
        iio_channel_attr_read_longlong 1 "frequency";
        ADRV.info "configure_tx_dds" 247 "adrv9002 altvoltage0 frequency: %lld\n"
          [PInt 1234];
        iio_channel_attr_read_double 1 "scale";
        ADRV.info "configure_tx_dds" 253 "adrv9002 altvoltage0 scale: %lf\n" [PDbl 77];
        iio_device_find_channel 1 "altvoltage2" true;
        iio_channel_attr_write_longlong 1 "frequency" 1234;
        iio_channel_attr_write_double 1 "scale" 77;
        iio_channel_attr_read_longlong 1 "frequency";
        ADRV.info "configure_tx_dds" 275 "adrv9002 altvoltage2 frequency: %lld\n"
          [PInt 1234];
        iio_channel_attr_read_double 1 "scale";
        ADRV.info "configure_tx_dds" 281 "adrv9002 altvoltage2 scale: %lf\n" [PDbl 77];
        iio_channel_enable 1; iio_channel_enable 1].
Proof. split; vm_compute; reflexivity. Qed.

(** The plan of [dds_single_tone] followed in an environment where no
    device is found, and in one where everything is found. *)
Example single_tone_plan_followed :
  follow no_device 0 (single_tone_plan ("altvoltage0", "altvoltage2") (422, 437)
                        1 0 0 0 5000 ADRV.double_0_4)
  = (Some (- ENODEV),
     [find_dds 1;
      ADRV.error "dds_single_tone" 414 "Could not find axi-adrv9002-tx-lpc\n" []])
  /\ follow all_found 0 (single_tone_plan ("altvoltage0", "altvoltage2") (422, 437)
                           1 1 1 1 5000 ADRV.double_0_4)
     = (None,
        [find_dds 1;
         iio_device_find_channel 1 "altvoltage0" true;
         iio_channel_attr_write_longlong 1 "frequency" 5000;
         iio_channel_attr_write_double 1 "scale" ADRV.double_0_4;
         iio_device_find_channel 1 "altvoltage2" true;
         iio_channel_attr_write_longlong 1 "frequency" 5000;
         iio_channel_attr_write_double 1 "scale" ADRV.double_0_4;
         iio_channel_enable 1; iio_channel_enable 1]).
Proof. split; vm_compute; reflexivity. Qed.


(** ** The samples of the AD4696 example *)

Section AD4696Samples.
Variable w : world.
Variable block : Mem.buffer.
Variable count : Z.
Variable raw : Z -> Z.
Hypothesis Hraw : forall k, 0 <= k < count -> Mem.load 2 block (2 * k) = Some (raw k).

Lemma ad4696_print_samples_from n : forall i room (s : pstate ADC.globals),
  count = i + Z.of_nat n -> 0 <= i ->
  Z.of_nat (List.length block) <= Z.of_nat room + i ->
  wp (AD4696.print_samples room i count block) w s
     (fun r s' =>
        r = Val tt /\
        exists ext, trace s' = ext ++ trace s /\
                    calls (rev ext)
                    = map (ad4696_line raw) (map (fun j => i + Z.of_nat j) (seq 0 n))).
Proof.
  induction n as [|n IH]; intros i room s Hcount Hi Hroom.
  - replace (AD4696.print_samples room i count block) with (@ret ADC.globals _ tt).
    + apply wp_ret. split; [reflexivity|]. exists []. split; reflexivity.
    + destruct room; cbn [AD4696.print_samples];
        destruct (Z.ltb_spec i count); try lia; reflexivity.
  - assert (Hload : Mem.load 2 block (2 * i) = Some (raw i)) by (apply Hraw; lia).
    pose proof (load_inside _ _ _ _ Hload) as Hin.
    destruct room as [|room]; [lia|].
    cbn [AD4696.print_samples].
    destruct (Z.ltb_spec i count); [|lia].
    rewrite Hload. go.
    eapply wp_consequence.
    + apply (IH (i + 1) room); lia.
    + cbn beta. intros res s' [Hres [ext [Htr Hcalls]]]. cbn [trace] in Htr.
      split; [exact Hres|].
      eexists (ext ++ [_]). split.
      * rewrite Htr, <- app_assoc. reflexivity.
      * rewrite rev_app_distr. cbn [rev app calls]. rewrite Hcalls, range_succ.
        reflexivity.
Qed.

End AD4696Samples.

(** X9: in the AD4696 example, when the block holds [count] samples of 16
    bits, the loop prints, for each sample in turn, its index, the channel
    number 0 and its raw little-endian word taken as a signed 16-bit
    integer, without any shift; the loop makes no other call and ends
    normally. *)
Theorem ad4696_printed_samples (w : world) (s : pstate ADC.globals)
    (block : Mem.buffer) (count : Z) (raw : Z -> Z) :
  0 <= count ->
  (forall k, 0 <= k < count -> Mem.load 2 block (2 * k) = Some (raw k)) ->
  let out := AD4696.print_samples (List.length block) 0 count block w s in
  fst out = Val tt
  /\ exists added,
       adds s (snd out) added
       /\ calls added
          = map (fun k => printf "Buffer Sample: %ld\tCH%d Data: 0x%x\n"
                            [PInt k; PInt AD4696.CHANNEL_NUMBER;
                             PInt (Int.signed 16 (raw k))])
                (indices count).
Proof.
  intros Hcount Hraw out.
  pose proof (ad4696_print_samples_from w block count raw Hraw (Z.to_nat count)
                0 (List.length block) s) as H.
  apply wp_elim in H; try lia.
  fold out in H. destruct H as [Hres [ext [Htr Hcalls]]].
  split; [exact Hres|].
  exists (rev ext). split.
  - apply adds_trace, Htr.
  - rewrite Hcalls. unfold indices. rewrite !map_map.
    apply map_ext. intros j. reflexivity.
Qed.

Lemma ad4696_printed_samples_witness :
  0 <= 2
  /\ (forall k, 0 <= k < 2 -> Mem.load 2 two_samples16 (2 * k) = Some (two_words16 k))
  /\ let out := AD4696.print_samples (List.length two_samples16) 0 2 two_samples16
                  (quiet_world 0) (initial ADC.globals0) in
     fst out = Val tt
     /\ exists added,
          adds (initial ADC.globals0) (snd out) added
          /\ calls added
             = map (fun k => printf "Buffer Sample: %ld\tCH%d Data: 0x%x\n"
                               [PInt k; PInt AD4696.CHANNEL_NUMBER;
                                PInt (Int.signed 16 (two_words16 k))])
                   (indices 2).
Proof.
  assert (H1 : 0 <= 2) by lia.
  assert (H2 : forall k, 0 <= k < 2 ->
                         Mem.load 2 two_samples16 (2 * k) = Some (two_words16 k)).
  { intros k Hk. assert (Hcase : k = 0 \/ k = 1) by lia.
    destruct Hcase as [-> | ->]; reflexivity. }
  split; [exact H1|split; [exact H2|]].
  exact (ad4696_printed_samples (quiet_world 0) (initial ADC.globals0)
           two_samples16 2 two_words16 H1 H2).
Defined.

Example ad4696_two_samples_printed :
  calls (history (snd (AD4696.print_samples (List.length two_samples16) 0 2 two_samples16
                         (quiet_world 0) (initial ADC.globals0))))
  = [printf "Buffer Sample: %ld\tCH%d Data: 0x%x\n" [PInt 0; PInt 0; PInt 513];
     printf "Buffer Sample: %ld\tCH%d Data: 0x%x\n" [PInt 1; PInt 0; PInt (-32768)]].
Proof. reflexivity. Qed.

(** ** Reads beyond the block in the AD4630 example *)

Lemma ad4630_print_samples_overrun room : forall sample count buf w s,
  0 <= sample < count ->
  Z.of_nat (List.length buf) < 8 * count ->
  wp (AD4630.print_samples room sample count buf) w s (fun r _ => r = Stop Undefined).
Proof.
  induction room as [|room IH]; intros sample count buf w [g st hd tr cl] Hs Hlen;
    cbn [AD4630.print_samples].
  - destruct (Z.ltb_spec sample count); [|lia]. apply wp_halt. reflexivity.
  - destruct (Z.ltb_spec sample count); [|lia].
    destruct (Mem.load 8 buf (8 * sample)) as [raw|] eqn:Hload;
      [|apply wp_halt; reflexivity].
    apply load_inside in Hload.
    destruct (Mem.store 4 buf (4 * sample) _) as [buf'|] eqn:Hstore;
      [|apply wp_halt; reflexivity].
    destruct (Mem.load 4 buf' (4 * sample)) as [v|] eqn:Hv;
      [|apply wp_halt; reflexivity].
    go. apply IH; [lia|]. rewrite (store_length _ _ _ _ _ Hstore). exact Hlen.
Qed.

(** X10: the loop of the AD4630 example reads every sample as a word of
    64 bits, whatever the size of the samples: when the block has fewer
    than 8 bytes for each of the [count] samples the loop is to print, as
    with samples of 32 bits, a read falls outside of the block before the
    loop ends, and the run has no defined behaviour. *)
Theorem ad4630_reads_past_block (room : nat) (sample count : Z) (buf : Mem.buffer)
    (w : world) (s : pstate ADC.globals) :
  0 <= sample < count ->
  Z.of_nat (List.length buf) < 8 * count ->
  fst (AD4630.print_samples room sample count buf w s) = Stop Undefined.
Proof.
  intros Hs Hlen.
  exact (wp_elim w _ s _ (ad4630_print_samples_overrun room sample count buf w s Hs Hlen)).
Qed.

Lemma ad4630_reads_past_block_witness :
  0 <= 0 < ADC.sample_count 8 4
  /\ Z.of_nat (List.length two_samples32) < 8 * ADC.sample_count 8 4
  /\ fst (AD4630.print_samples (List.length two_samples32) 0 (ADC.sample_count 8 4)
            two_samples32 (quiet_world 0) (initial ADC.globals0))
     = Stop Undefined.
Proof.
  assert (H1 : 0 <= 0 < ADC.sample_count 8 4) by (vm_compute; split; congruence).
  assert (H2 : Z.of_nat (List.length two_samples32) < 8 * ADC.sample_count 8 4)
    by reflexivity.
  split; [exact H1|split; [exact H2|]].
  exact (ad4630_reads_past_block (List.length two_samples32) 0 (ADC.sample_count 8 4)
           two_samples32 (quiet_world 0) (initial ADC.globals0) H1 H2).
Defined.

(** ** The loop over the samples of the ADRV9002 examples *)

Lemma unsigned64_small x : 0 <= x < 2 ^ 64 -> Int.unsigned 64 x = x.
Proof. intros H. apply Z.mod_small, H. Qed.

Lemma swap_samples_stuck fuel : forall p_dat p_end w s,
  0 <= p_dat < p_end -> p_dat < 2 ^ 64 ->
  wp (ADRV9002.swap_samples fuel p_dat p_end 0) w s (fun r _ => r = Stop OutOfFuel).
Proof.
  induction fuel as [|fuel IH]; intros p_dat p_end w [g st hd tr cl] Hp Hmax;
    cbn [ADRV9002.swap_samples]; (destruct (Z.ltb_spec p_dat p_end); [|lia]).
  - apply wp_halt. reflexivity.
  - go. rewrite Z.add_0_r, unsigned64_small by lia. apply IH; assumption.
Qed.

Lemma swap_samples_dds_stuck fuel : forall p_dat p_end w s,
  0 <= p_dat < p_end -> p_dat < 2 ^ 64 ->
  wp (ADRV9002_DDS.swap_samples fuel p_dat p_end 0) w s (fun r _ => r = Stop OutOfFuel).
Proof.
  induction fuel as [|fuel IH]; intros p_dat p_end w [g st hd tr cl] Hp Hmax;
    cbn [ADRV9002_DDS.swap_samples]; (destruct (Z.ltb_spec p_dat p_end); [|lia]).
  - apply wp_halt. reflexivity.
  - go. rewrite Z.add_0_r, unsigned64_small by lia. apply IH; assumption.
Qed.

(** X11: in the two ADRV9002 examples the loop over the samples advances
    by [p_inc / sizeof( *p_dat)] elements: when that step is 0, the step of
    the buffer being 0 or 1 byte, and the buffer is not empty, the pointer
    never moves and the loop never ends, whatever the number of
    iterations it is given; the flag [stop] is not looked at there. *)
Theorem swap_samples_never_ends (fuel : nat) (p_dat p_end : Z) (w : world)
    (s : pstate ADRV.globals) :
  0 <= p_dat < p_end -> p_dat < 2 ^ 64 ->
  fst (ADRV9002.swap_samples fuel p_dat p_end 0 w s) = Stop OutOfFuel
  /\ fst (ADRV9002_DDS.swap_samples fuel p_dat p_end 0 w s) = Stop OutOfFuel.
Proof.
  intros Hp Hmax. split.
  - exact (wp_elim w _ s _ (swap_samples_stuck fuel p_dat p_end w s Hp Hmax)).
  - exact (wp_elim w _ s _ (swap_samples_dds_stuck fuel p_dat p_end w s Hp Hmax)).
Qed.

Lemma swap_samples_never_ends_witness :
  0 <= 4096 < 4104 /\ 4096 < 2 ^ 64
  /\ fst (ADRV9002.swap_samples 1000 4096 4104 (Int.unsigned 64 1 / 2) (quiet_world 0)
            (initial ADRV.globals0)) = Stop OutOfFuel
  /\ fst (ADRV9002_DDS.swap_samples 1000 4096 4104 (Int.unsigned 64 1 / 2) (quiet_world 0)
            (initial ADRV.globals0)) = Stop OutOfFuel.
Proof.
  assert (H1 : 0 <= 4096 < 4104) by lia.
  assert (H2 : 4096 < 2 ^ 64) by reflexivity.
  split; [exact H1|split; [exact H2|]].
  exact (swap_samples_never_ends 1000 4096 4104 (quiet_world 0) (initial ADRV.globals0)
           H1 H2).
Defined.

Lemma samples_between_none p p_end step :
  0 < step -> samples_between p p_end step = O -> p_end <= p.
Proof.
  unfold samples_between. intros Hs H.
  assert (Hd : (p_end - p + 2 * step - 1) / (2 * step) <= 0) by lia.
  destruct (Z.le_gt_cases p_end p) as [Hle|Hgt]; [exact Hle|].
  assert (1 <= (p_end - p + 2 * step - 1) / (2 * step));
    [apply Z.div_le_lower_bound|]; lia.
Qed.

Lemma samples_between_some p p_end step n :
  0 < step -> samples_between p p_end step = S n ->
  p < p_end /\ samples_between (p + 2 * step) p_end step = n.
Proof.
  unfold samples_between. intros Hs H.
  assert (Hp : p < p_end).
  { destruct (Z.lt_ge_cases p p_end) as [Hlt|Hge]; [exact Hlt|].
    assert ((p_end - p + 2 * step - 1) / (2 * step) <= 0);
      [apply Z.lt_succ_r, Z.div_lt_upper_bound|]; lia. }
  split; [exact Hp|].
  replace (p_end - (p + 2 * step) + 2 * step - 1)
    with (p_end - p + 2 * step - 1 + (-1) * (2 * step)) by lia.
  rewrite Z.div_add by lia. lia.
Qed.

Lemma swap_samples_runs n : forall fuel p p_end step w s,
  0 < step -> 0 <= p -> p_end + 2 * step <= 2 ^ 64 ->
  samples_between p p_end step = n -> (n <= fuel)%nat ->
  wp (ADRV9002.swap_samples fuel p p_end step) w s
     (fun r s' => r = Val tt
                  /\ exists ext, trace s' = ext ++ trace s /\ swapped n p step (rev ext)).
Proof.
  induction n as [|n IH]; intros fuel p p_end step w [g st hd tr cl] Hs Hp Hmax Hn Hfuel.
  - apply samples_between_none in Hn; [|exact Hs].
    replace (ADRV9002.swap_samples fuel p p_end step) with (@ret ADRV.globals _ tt).
    + apply wp_ret. split; [reflexivity|]. exists []. split; reflexivity.
    + destruct fuel; cbn [ADRV9002.swap_samples];
        destruct (Z.ltb_spec p p_end); try lia; reflexivity.
  - apply samples_between_some in Hn as [Hlt Hn]; [|exact Hs].
    destruct fuel as [|fuel]; [lia|].
    cbn [ADRV9002.swap_samples]. destruct (Z.ltb_spec p p_end); [|lia].
    go. rewrite unsigned64_small by lia.
    eapply wp_consequence.
    + apply (IH fuel (p + 2 * step) p_end step); try assumption; lia.
    + cbn beta. intros res s' [Hres [ext [Htr Hsw]]]. cbn [trace] in Htr.
      split; [exact Hres|].
      eexists (ext ++ [_; _; _; _; _; _; _]). split.
      * rewrite Htr, <- app_assoc. reflexivity.
      * rewrite rev_app_distr. cbn [rev app swapped].
        do 15 eexists. split; [reflexivity|exact Hsw].
Qed.

Lemma swap_samples_dds_runs n : forall fuel p p_end step w s,
  0 < step -> 0 <= p -> p_end + 2 * step <= 2 ^ 64 ->
  samples_between p p_end step = n -> (n <= fuel)%nat ->
  wp (ADRV9002_DDS.swap_samples fuel p p_end step) w s
     (fun r s' => r = Val tt
                  /\ exists ext, trace s' = ext ++ trace s
                                 /\ swapped_dds n p step (rev ext)).
Proof.
  induction n as [|n IH]; intros fuel p p_end step w [g st hd tr cl] Hs Hp Hmax Hn Hfuel.
  - apply samples_between_none in Hn; [|exact Hs].
    replace (ADRV9002_DDS.swap_samples fuel p p_end step) with (@ret ADRV.globals _ tt).
    + apply wp_ret. split; [reflexivity|]. exists []. split; reflexivity.
    + destruct fuel; cbn [ADRV9002_DDS.swap_samples];
        destruct (Z.ltb_spec p p_end); try lia; reflexivity.
  - apply samples_between_some in Hn as [Hlt Hn]; [|exact Hs].
    destruct fuel as [|fuel]; [lia|].
    cbn [ADRV9002_DDS.swap_samples]. destruct (Z.ltb_spec p p_end); [|lia].
    go. rewrite unsigned64_small by lia.
    eapply wp_consequence.
    + apply (IH fuel (p + 2 * step) p_end step); try assumption; lia.
    + cbn beta. intros res s' [Hres [ext [Htr Hsw]]]. cbn [trace] in Htr.
      split; [exact Hres|].
      eexists (ext ++ [_; _; _; _]). split.
      * rewrite Htr, <- app_assoc. reflexivity.
      * rewrite rev_app_distr. cbn [rev app swapped_dds].
        do 9 eexists. split; [reflexivity|exact Hsw].
Qed.

(** X12: when its step is positive and the pointer does not wrap around,
    the loop over the samples of the two ADRV9002 examples ends after one
    pass over each sample below [p_end], the samples being [step] elements
    of 16 bits apart: for each one it reads the two words I and Q and
    stores each in the place of the other; adrv9002-iiostream.c then reads
    the two places again and prints them, adrv9002-iiostream-dds.c does
    nothing more.  The loop makes no other call. *)
Theorem swap_samples_swaps (fuel : nat) (p p_end step : Z) (w : world)
    (s : pstate ADRV.globals) :
  0 < step -> 0 <= p -> p_end + 2 * step <= 2 ^ 64 ->
  (samples_between p p_end step <= fuel)%nat ->
  let out := ADRV9002.swap_samples fuel p p_end step w s in
  let out_dds := ADRV9002_DDS.swap_samples fuel p p_end step w s in
  (fst out = Val tt
   /\ exists added, adds s (snd out) added
                    /\ swapped (samples_between p p_end step) p step added)
  /\ (fst out_dds = Val tt
      /\ exists added, adds s (snd out_dds) added
                       /\ swapped_dds (samples_between p p_end step) p step added).
Proof.
  intros Hs Hp Hmax Hfuel out out_dds. split.
  - destruct (wp_elim w _ s _
                (swap_samples_runs _ fuel p p_end step w s Hs Hp Hmax eq_refl Hfuel))
      as [Hres [ext [Htr Hsw]]].
    split; [exact Hres|]. exists (rev ext). split; [apply adds_trace, Htr|exact Hsw].
  - destruct (wp_elim w _ s _
                (swap_samples_dds_runs _ fuel p p_end step w s Hs Hp Hmax eq_refl Hfuel))
      as [Hres [ext [Htr Hsw]]].
    split; [exact Hres|]. exists (rev ext). split; [apply adds_trace, Htr|exact Hsw].
Qed.

Lemma swap_samples_swaps_witness :
  0 < 2 /\ 0 <= 4096 /\ 4104 + 2 * 2 <= 2 ^ 64
  /\ (samples_between 4096 4104 2 <= 2)%nat
  /\ let out := ADRV9002.swap_samples 2 4096 4104 2 (quiet_world 7)
                  (initial ADRV.globals0) in
     let out_dds := ADRV9002_DDS.swap_samples 2 4096 4104 2 (quiet_world 7)
                      (initial ADRV.globals0) in
     (fst out = Val tt
      /\ exists added, adds (initial ADRV.globals0) (snd out) added
                       /\ swapped (samples_between 4096 4104 2) 4096 2 added)
     /\ (fst out_dds = Val tt
         /\ exists added, adds (initial ADRV.globals0) (snd out_dds) added
                          /\ swapped_dds (samples_between 4096 4104 2) 4096 2 added).
Proof.
  assert (H1 : 0 < 2) by lia.
  assert (H2 : 0 <= 4096) by lia.
  assert (H3 : 4104 + 2 * 2 <= 2 ^ 64) by (vm_compute; congruence).
  assert (H4 : (samples_between 4096 4104 2 <= 2)%nat) by (vm_compute; lia).
  split; [exact H1|split; [exact H2|split; [exact H3|split; [exact H4|]]]].
  exact (swap_samples_swaps 2 4096 4104 2 (quiet_world 7) (initial ADRV.globals0)
           H1 H2 H3 H4).
Defined.
(** ** The streaming loop *)

Lemma existsb_rev_list {A : Type} (f : A -> bool) (l : list A) :
  existsb f (rev l) = existsb f l.
Proof.
  induction l as [|x l IH]; cbn [rev existsb]; [reflexivity|].
  rewrite existsb_app, IH. cbn [existsb]. rewrite orb_false_r. apply orb_comm.
Qed.

(** Events without a call into the IIO library or a test of the flag
    leave the phase; the flag is set when the handler set it. *)
Lemma lseen_inert ph set ext :
  forallb inert ext = true ->
  seen lstep (ph, set) ext = (ph, flagged ext || set).
Proof.
  induction ext as [|[c r ran|b] ext IH]; cbn [forallb inert flagged existsb];
    [reflexivity| |discriminate].
  intros H. apply andb_true_iff in H as [Hc Hext].
  rewrite seen_cons, (IH Hext). cbn [lstep]. unfold flagged. rewrite orb_assoc. f_equal.
  destruct c; cbn in Hc; try discriminate Hc; reflexivity.
Qed.

(** Events allowed after a failure, with no other call than those that
    release a handle: the phase changes with the destruction of a buffer. *)
Lemma lseen_teardown ph set ext :
  forallb (after_failure no_call) ext = true ->
  seen lstep (ph, set) ext = (torn_by (select is_iio ext) ph, flagged ext || set).
Proof.
  revert ph set.
  induction ext as [|[c r ran|b] ext IH]; intros ph set;
    cbn [forallb after_failure flagged existsb select];
    [destruct ph; reflexivity| |discriminate].
  intros H. apply andb_true_iff in H as [Hc Hext].
  rewrite seen_cons, (IH ph set Hext). cbn [lstep]. unfold flagged.
  rewrite orb_assoc. f_equal.
  unfold no_call in Hc. rewrite orb_false_r in Hc.
  destruct c; cbn in Hc; try discriminate Hc; cbn [is_iio select torn_by];
    try reflexivity; destruct ph; reflexivity.
Qed.

Lemma torn_by_adc g ph :
  (ADC.rxbuf g =? NULL) = false ->
  torn_by (rev (adc_released g)) ph
  = match ph with Stopped _ => Stopped true | _ => ph end.
Proof.
  intros H. destruct ph; try reflexivity. cbn [torn_by].
  rewrite existsb_rev_list. unfold adc_released, release. rewrite H. reflexivity.
Qed.

Lemma torn_by_adrv g ph :
  (ADRV.rxbuf g =? NULL) = false ->
  torn_by (rev (adrv_released g)) ph
  = match ph with Stopped _ => Stopped true | _ => ph end.
Proof.
  intros H. destruct ph; try reflexivity. cbn [torn_by].
  rewrite existsb_rev_list. unfold adrv_released, release. rewrite H. reflexivity.
Qed.

Lemma torn_by_idle l : torn_by l Idle = Idle.
Proof. reflexivity. Qed.

Lemma lstep_call ph set c r ran :
  lstep (ph, set) (Ecall c r ran) = (call_phase c ph, sets_stop ran || set).
Proof. reflexivity. Qed.

Lemma lstep_test ph set b :
  lstep (ph, set) (Etest_stop b) = (test_phase set b ph, set).
Proof.
  cbn [lstep]. unfold test_phase. destruct (set && negb b); [reflexivity|].
  destruct ph; reflexivity.
Qed.

(** The state of the machine of the loop after the events of a trace. *)
Ltac loop_machine :=
  repeat first [rewrite seen_cons | rewrite seen_nil | rewrite seen_app];
  unfold loop_start in *;
  repeat first
    [ match goal with
      | H : seen lstep (Idle, false) _ = _ |- _ => rewrite H
      end
    | rewrite lstep_call;
      cbn [call_phase ADRV.info ADRV.error]
    | rewrite lstep_test; cbn [test_phase andb negb]
    | rewrite lseen_inert by assumption
    | rewrite lseen_teardown by assumption;
      match goal with
      | H : select is_iio ?ext = _ |- context [select is_iio ?ext] => rewrite H
      end;
      first [ rewrite torn_by_idle
            | rewrite torn_by_adc by (cbn; assumption)
            | rewrite torn_by_adrv by (cbn; assumption) ] ].

Ltac ad_loop_leaf :=
  cbn [trace stop glob]; split; [reflexivity|];
  cbn [ad_loop_post trace stop]; loop_machine;
  cbn [loop_respected fst]; first [exact I | reflexivity | split; reflexivity].

(** The loop again, from a state where the machine is before a test. *)
Ltac loop_once_more IH :=
  apply IH; cbn [trace stop]; loop_machine; reflexivity.

Lemma ad4630_streaming_loop fuel : forall w s,
  seen lstep loop_start (trace s) = (Idle, stop s) ->
  wp (AD4630.streaming fuel) w s (fun r s' => glob s' = glob s /\ ad_loop_post r s').
Proof.
  induction fuel as [|fuel IH]; intros w [g st hd tr cl] Hm; cbn [trace stop] in Hm;
    cbn [AD4630.streaming].
  all: sym; try solve [ad_loop_leaf]; loop_once_more IH.
Qed.

Lemma ad4696_streaming_loop fuel : forall w s,
  seen lstep loop_start (trace s) = (Idle, stop s) ->
  wp (AD4696.streaming fuel) w s (fun r s' => glob s' = glob s /\ ad_loop_post r s').
Proof.
  induction fuel as [|fuel IH]; intros w [g st hd tr cl] Hm; cbn [trace stop] in Hm;
    cbn [AD4696.streaming].
  all: sym; try solve [ad_loop_leaf]; loop_once_more IH.
Qed.

Lemma ad7768_streaming_loop fuel : forall w s,
  seen lstep loop_start (trace s) = (Idle, stop s) ->
  wp (AD7768.streaming fuel) w s (fun r s' => glob s' = glob s /\ ad_loop_post r s').
Proof.
  induction fuel as [|fuel IH]; intros w [g st hd tr cl] Hm; cbn [trace stop] in Hm;
    cbn [AD7768.streaming].
  all: sym; try solve [ad_loop_leaf]; loop_once_more IH.
Qed.


Ltac loop_leaf :=
  cbn [trace]; loop_machine; cbn [loop_respected fst];
  first [exact I | split; reflexivity].

(** The loop of [main], by the lemma [loop] on it, and what follows it. *)
Ltac ad_loop_main loop :=
  eapply wp_consequence; [apply loop; cbn [trace stop]; loop_machine; reflexivity|];
  cbn beta; intros [?u|?o] [?g' ?st' ?hd' ?tr' ?cl'] [?Hglob ?Hloop];
  cbn [glob] in Hglob; subst; cbn [ad_loop_post trace stop] in Hloop;
  [sym; loop_leaf|exact Hloop].

Lemma ad4630_loop_respected : loop_discipline AD4630.main ADC.globals0.
Proof.
  intros w fuel argc argv. cbv zeta. unfold history. rewrite observe_seen.
  apply (run_post (AD4630.main fuel argc argv) ADC.globals0 w
           (fun o s => loop_respected (seen lstep loop_start (trace s)) o)).
  unfold AD4630.main. sym; try solve [loop_leaf].
  all: ad_loop_main ad4630_streaming_loop.
Qed.

Lemma ad4696_loop_respected : loop_discipline AD4696.main ADC.globals0.
Proof.
  intros w fuel argc argv. cbv zeta. unfold history. rewrite observe_seen.
  apply (run_post (AD4696.main fuel argc argv) ADC.globals0 w
           (fun o s => loop_respected (seen lstep loop_start (trace s)) o)).
  unfold AD4696.main. sym; try solve [loop_leaf].
  all: ad_loop_main ad4696_streaming_loop.
Qed.

Lemma ad7768_loop_respected : loop_discipline AD7768.main ADC.globals0.
Proof.
  intros w fuel argc argv. cbv zeta. unfold history. rewrite observe_seen.
  apply (run_post (AD7768.main fuel argc argv) ADC.globals0 w
           (fun o s => loop_respected (seen lstep loop_start (trace s)) o)).
  unfold AD7768.main. sym; try solve [loop_leaf].
  all: ad_loop_main ad7768_streaming_loop.
Qed.

Ltac adrv_loop_leaf :=
  cbn [trace stop glob]; split; [reflexivity|];
  cbn [adrv_loop_post trace stop]; loop_machine;
  first [ left; reflexivity
        | right; reflexivity
        | split; [reflexivity|cbn [loop_respected fst]; exact I] ].

Lemma adrv9002_streaming_loop fuel : forall inner w s,
  seen lstep loop_start (trace s) = (Idle, stop s) ->
  wp (ADRV9002.streaming fuel inner) w s
     (fun r s' => glob s' = glob s /\ adrv_loop_post r s').
Proof.
  induction fuel as [|fuel IH]; intros inner w [g st hd tr cl] Hm; cbn [trace stop] in Hm;
    cbn [ADRV9002.streaming].
  all: sym; try solve [adrv_loop_leaf]; loop_once_more IH.
Qed.

Lemma adrv9002_dds_streaming_loop fuel : forall inner w s,
  seen lstep loop_start (trace s) = (Idle, stop s) ->
  wp (ADRV9002_DDS.streaming fuel inner) w s
     (fun r s' => glob s' = glob s /\ adrv_loop_post r s').
Proof.
  induction fuel as [|fuel IH]; intros inner w [g st hd tr cl] Hm; cbn [trace stop] in Hm;
    cbn [ADRV9002_DDS.streaming].
  all: sym; try solve [adrv_loop_leaf]; loop_once_more IH.
Qed.

(** The loop of [main], by the lemma [loop] on it, and what follows it. *)
Ltac adrv_loop_main loop :=
  eapply wp_consequence; [apply loop; cbn [trace stop]; loop_machine; reflexivity|];
  cbn beta; intros [?u|?o] [?g' ?st' ?hd' ?tr' ?cl'] [?Hglob ?Hloop];
  cbn [glob] in Hglob; subst; cbn [adrv_loop_post trace stop] in Hloop;
  [ destruct Hloop as [Hloop|Hloop]; sym; loop_leaf
  | destruct Hloop as [_ Hloop]; exact Hloop ].

Lemma adrv9002_loop_respected : loop_discipline_from ADRV9002.main_from_lo.
Proof.
  intros w [g st hd tr cl] fuel status Hm. cbv zeta.
  unfold history in *. rewrite observe_seen in *. cbn [trace stop] in Hm.
  apply (run_from_post (ADRV9002.main_from_lo fuel status) w _
           (fun o s => loop_respected (seen lstep loop_start (trace s)) o)).
  unfold ADRV9002.main_from_lo. sym; try solve [loop_leaf].
  all: adrv_loop_main adrv9002_streaming_loop.
Qed.

Lemma adrv9002_dds_loop_respected : loop_discipline_from ADRV9002_DDS.main_from_lo.
Proof.
  intros w [g st hd tr cl] fuel status Hm. cbv zeta.
  unfold history in *. rewrite observe_seen in *. cbn [trace stop] in Hm.
  apply (run_from_post (ADRV9002_DDS.main_from_lo fuel status) w _
           (fun o s => loop_respected (seen lstep loop_start (trace s)) o)).
  unfold ADRV9002_DDS.main_from_lo. sym; try solve [loop_leaf].
  all: adrv_loop_main adrv9002_dds_streaming_loop.
Qed.

(** ** The release of the handles in a run *)

Lemma teardown_is_iio c : is_teardown c = true -> is_iio c = true.
Proof. destruct c; cbn; congruence. Qed.

Lemma working_is_iio c : working c = true -> is_iio c = true.
Proof. unfold working. intros H. apply andb_true_iff in H. apply H. Qed.

Lemma working_not_teardown c :
  working c = true -> is_iio c = true /\ is_teardown c = false.
Proof.
  unfold working. intros H. apply andb_true_iff in H as [H1 H2].
  apply negb_true_iff in H2. auto.
Qed.

(** Among events allowed after a failure the calls into the IIO library
    are the releases. *)
Lemma select_teardown_after_failure ext :
  forallb (after_failure no_call) ext = true ->
  select is_teardown ext = select is_iio ext.
Proof.
  induction ext as [|[c r ran|b] ext IH]; cbn [forallb after_failure select];
    [reflexivity| |discriminate].
  intros H. apply andb_true_iff in H as [Hc Hext]. rewrite (IH Hext).
  unfold no_call in Hc. rewrite orb_false_r in Hc.
  destruct (is_teardown c) eqn:Et.
  - rewrite (teardown_is_iio c Et). reflexivity.
  - rewrite orb_false_r in Hc. apply negb_true_iff in Hc. rewrite Hc. reflexivity.
Qed.

(** Without a release, the calls into the IIO library are the working
    ones. *)
Lemma select_working_no_teardown tr :
  select is_teardown tr = [] -> select working tr = select is_iio tr.
Proof.
  induction tr as [|[c r ran|b] tr IH]; cbn [select]; [reflexivity| |exact IH].
  destruct (is_teardown c) eqn:Et; [discriminate|].
  intros H. unfold working at 1. rewrite Et, andb_true_r, (IH H). reflexivity.
Qed.

Lemma released_at_exit_history released o tr :
  released_at_exit released o tr ->
  releases_last (rev tr)
  /\ releases (rev tr) = match o with
                         | Exited _ => released
                         | Aborted | Undefined | OutOfFuel => []
                         end.
Proof.
  intros [H1 H2]. unfold releases_last, releases, iio_calls. rewrite !select_rev. split.
  - rewrite H1. apply rev_app_distr.
  - rewrite H2. destruct o; try reflexivity. apply rev_involutive.
Qed.

(** The calls a trace selects, segment by segment. *)
Ltac selections_once :=
  repeat first
    [ rewrite select_app
    | rewrite (select_inert is_iio) by (assumption || exact iio_is_iio)
    | rewrite (select_inert is_teardown) by (assumption || exact teardown_is_iio)
    | rewrite (select_inert working) by (assumption || exact working_is_iio)
    | rewrite (select_after_failure working) by (assumption || exact working_not_teardown)
    | rewrite select_teardown_after_failure by assumption
    | match goal with
      | H : select is_iio ?ext = rev _ |- context [select is_iio ?ext] => rewrite H
      end
    | match goal with
      | H : select is_teardown ?tr = [] |- context [select working ?tr] =>
          rewrite (select_working_no_teardown tr H)
      end
    | match goal with
      | H : select is_teardown ?tr = [] |- context [select is_teardown ?tr] => rewrite H
      end ];
  cbn [select is_iio is_teardown working andb negb app ADRV.info ADRV.error].

Ltac selections :=
  cbn [trace glob]; repeat progress selections_once;
  rewrite ?app_nil_r, <- ?app_assoc; cbn [app].

Ltac released_leaf :=
  unfold released_at_exit; selections; repeat apply conj; reflexivity.

Ltac ad_release_leaf :=
  split; [reflexivity|cbn [ad_release_post]; released_leaf].

(** The loop again, from a state reached without a release. *)
Ltac loop_unreleased IH :=
  apply IH; selections; reflexivity.

Lemma ad4630_streaming_releases fuel : forall w s,
  select is_teardown (trace s) = [] ->
  wp (AD4630.streaming fuel) w s (fun r s' => glob s' = glob s /\ ad_release_post r s').
Proof.
  induction fuel as [|fuel IH]; intros w [g st hd tr cl] Hm; cbn [trace] in Hm;
    cbn [AD4630.streaming].
  all: sym; try solve [ad_release_leaf]; loop_unreleased IH.
Qed.

Lemma ad4696_streaming_releases fuel : forall w s,
  select is_teardown (trace s) = [] ->
  wp (AD4696.streaming fuel) w s (fun r s' => glob s' = glob s /\ ad_release_post r s').
Proof.
  induction fuel as [|fuel IH]; intros w [g st hd tr cl] Hm; cbn [trace] in Hm;
    cbn [AD4696.streaming].
  all: sym; try solve [ad_release_leaf]; loop_unreleased IH.
Qed.

Lemma ad7768_streaming_releases fuel : forall w s,
  select is_teardown (trace s) = [] ->
  wp (AD7768.streaming fuel) w s (fun r s' => glob s' = glob s /\ ad_release_post r s').
Proof.
  induction fuel as [|fuel IH]; intros w [g st hd tr cl] Hm; cbn [trace] in Hm;
    cbn [AD7768.streaming].
  all: sym; try solve [ad_release_leaf]; loop_unreleased IH.
Qed.

(** The loop of [main], by the lemma [loop] on it, and what follows it. *)
Ltac ad_release_main loop :=
  eapply wp_consequence; [apply loop; selections; reflexivity|];
  cbn beta; intros [?u|?o] [?g' ?st' ?hd' ?tr' ?cl'] [?Hglob ?Hloop];
  cbn [glob] in Hglob; subst; cbn [ad_release_post trace glob] in Hloop;
  [sym; released_leaf|exact Hloop].

Lemma released_at_exit_run {G : Type} (released : G -> list call) (s : pstate G) o :
  released_at_exit (released (glob s)) o (trace s) ->
  releases_last (history s)
  /\ releases (history s) = match o with
                            | Exited _ => released (glob s)
                            | Aborted | Undefined | OutOfFuel => []
                            end.
Proof. apply released_at_exit_history. Qed.

Lemma ad4630_releases : releases_at_exit_ad AD4630.main.
Proof.
  intros w fuel argc argv. cbv zeta.
  apply (run_post (AD4630.main fuel argc argv) ADC.globals0 w
           (fun o s =>
              releases_last (history s)
              /\ releases (history s) = match o with
                                        | Exited _ => adc_released (glob s)
                                        | Aborted | Undefined | OutOfFuel => []
                                        end)).
  eapply wp_consequence
    with (P := fun r s => released_at_exit (adc_released (glob s))
                            (match r with Val v => Exited v | Stop o => o end) (trace s)).
  - unfold AD4630.main. sym; try solve [released_leaf].
    all: ad_release_main ad4630_streaming_releases.
  - intros r s H. apply (released_at_exit_run adc_released) in H. destruct r; exact H.
Qed.

Lemma ad4696_releases : releases_at_exit_ad AD4696.main.
Proof.
  intros w fuel argc argv. cbv zeta.
  apply (run_post (AD4696.main fuel argc argv) ADC.globals0 w
           (fun o s =>
              releases_last (history s)
              /\ releases (history s) = match o with
                                        | Exited _ => adc_released (glob s)
                                        | Aborted | Undefined | OutOfFuel => []
                                        end)).
  eapply wp_consequence
    with (P := fun r s => released_at_exit (adc_released (glob s))
                            (match r with Val v => Exited v | Stop o => o end) (trace s)).
  - unfold AD4696.main. sym; try solve [released_leaf].
    all: ad_release_main ad4696_streaming_releases.
  - intros r s H. apply (released_at_exit_run adc_released) in H. destruct r; exact H.
Qed.

Lemma ad7768_releases : releases_at_exit_ad AD7768.main.
Proof.
  intros w fuel argc argv. cbv zeta.
  apply (run_post (AD7768.main fuel argc argv) ADC.globals0 w
           (fun o s =>
              releases_last (history s)
              /\ releases (history s) = match o with
                                        | Exited _ => adc_released (glob s)
                                        | Aborted | Undefined | OutOfFuel => []
                                        end)).
  eapply wp_consequence
    with (P := fun r s => released_at_exit (adc_released (glob s))
                            (match r with Val v => Exited v | Stop o => o end) (trace s)).
  - unfold AD7768.main. sym; try solve [released_leaf].
    all: ad_release_main ad7768_streaming_releases.
  - intros r s H. apply (released_at_exit_run adc_released) in H. destruct r; exact H.
Qed.

Ltac adrv_release_leaf :=
  split; [reflexivity|unfold adrv_release_post; split;
                      [selections; reflexivity|first [exact I | reflexivity]]].

Lemma adrv9002_streaming_releases fuel : forall inner w s,
  select is_teardown (trace s) = [] ->
  wp (ADRV9002.streaming fuel inner) w s
     (fun r s' => glob s' = glob s /\ adrv_release_post r s').
Proof.
  induction fuel as [|fuel IH]; intros inner w [g st hd tr cl] Hm; cbn [trace] in Hm;
    cbn [ADRV9002.streaming].
  all: sym; try solve [adrv_release_leaf]; loop_unreleased IH.
Qed.

Lemma adrv9002_dds_streaming_releases fuel : forall inner w s,
  select is_teardown (trace s) = [] ->
  wp (ADRV9002_DDS.streaming fuel inner) w s
     (fun r s' => glob s' = glob s /\ adrv_release_post r s').
Proof.
  induction fuel as [|fuel IH]; intros inner w [g st hd tr cl] Hm; cbn [trace] in Hm;
    cbn [ADRV9002_DDS.streaming].
  all: sym; try solve [adrv_release_leaf]; loop_unreleased IH.
Qed.

Ltac from_release_leaf :=
  split; [reflexivity|cbn [adrv_released_from]; released_leaf].

(** The loop of [main], by the lemma [loop] on it, and what follows it. *)
Ltac adrv_release_main loop :=
  eapply wp_consequence; [apply loop; selections; reflexivity|];
  cbn beta; intros [?u|?o] [?g' ?st' ?hd' ?tr' ?cl'] [?Hglob [?Hloop ?Hend]];
  cbn [glob] in Hglob; subst; cbn [trace glob] in Hloop;
  [sym; from_release_leaf|subst; from_release_leaf].

Lemma adrv9002_main_from_lo_releases fuel status w s :
  select is_teardown (trace s) = [] ->
  wp (ADRV9002.main_from_lo fuel status) w s
     (fun r s' => ADRV.ctx (glob s') = ADRV.ctx (glob s) /\ adrv_released_from r s').
Proof.
  destruct s as [g st hd tr cl]. intros Hm. cbn [trace] in Hm.
  unfold ADRV9002.main_from_lo. sym; try solve [from_release_leaf].
  all: adrv_release_main adrv9002_streaming_releases.
Qed.

Lemma adrv9002_dds_main_from_lo_releases fuel status w s :
  select is_teardown (trace s) = [] ->
  wp (ADRV9002_DDS.main_from_lo fuel status) w s
     (fun r s' => ADRV.ctx (glob s') = ADRV.ctx (glob s) /\ adrv_released_from r s').
Proof.
  destruct s as [g st hd tr cl]. intros Hm. cbn [trace] in Hm.
  unfold ADRV9002_DDS.main_from_lo. sym; try solve [from_release_leaf].
  all: adrv_release_main adrv9002_dds_streaming_releases.
Qed.

Ltac main_release_leaf :=
  unfold adrv_released_main; cbn [trace glob ADRV.ctx ADRV.set_ctx ADRV.globals0];
  split;
  [ selections; reflexivity
  | first [ solve [selections; reflexivity]
          | left; repeat apply conj;
            [ first [reflexivity | bool_facts; assumption]
            | reflexivity
            | selections; reflexivity ]
          | right; split; [bool_facts; assumption|selections; reflexivity] ] ].

Lemma adrv9002_main_releases fuel argc argv w :
  wp (ADRV9002.main fuel argc argv) w (initial ADRV.globals0)
     (fun r s => adrv_released_main (match r with Val v => Exited v | Stop o => o end) s).
Proof.
  unfold ADRV9002.main, ADRV9002.main_from_lo. sym; main_release_leaf.
Qed.

Lemma adrv9002_dds_main_releases fuel argc argv w :
  wp (ADRV9002_DDS.main fuel argc argv) w (initial ADRV.globals0)
     (fun r s => adrv_released_main (match r with Val v => Exited v | Stop o => o end) s).
Proof.
  unfold ADRV9002_DDS.main, ADRV9002_DDS.main_from_lo. sym; main_release_leaf.
Qed.

Lemma adrv_released_main_history o (s : pstate ADRV.globals) :
  adrv_released_main o s ->
  releases_last (history s)
  /\ match o with
     | Exited v =>
         (ADRV.ctx (glob s) = NULL /\ v = EXIT_FAILURE /\ releases (history s) = [])
         \/ (ADRV.ctx (glob s) <> NULL /\ releases (history s) = adrv_released (glob s))
     | Aborted | Undefined | OutOfFuel => releases (history s) = []
     end.
Proof.
  intros [H1 H2]. unfold releases_last, releases, iio_calls, history.
  rewrite !select_rev. split; [rewrite H1; apply rev_app_distr|].
  destruct o; try (rewrite H2; reflexivity).
  destruct H2 as [[Hc [Hv Hr]]|[Hc Hr]]; rewrite Hr.
  - left. repeat split; assumption.
  - right. split; [assumption|apply rev_involutive].
Qed.

Lemma adrv9002_releases : releases_at_exit_adrv ADRV9002.main.
Proof.
  intros w fuel argc argv. cbv zeta.
  apply (run_post (ADRV9002.main fuel argc argv) ADRV.globals0 w
           (fun o s =>
              releases_last (history s)
              /\ match o with
                 | Exited v =>
                     (ADRV.ctx (glob s) = NULL /\ v = EXIT_FAILURE
                      /\ releases (history s) = [])
                     \/ (ADRV.ctx (glob s) <> NULL
                         /\ releases (history s) = adrv_released (glob s))
                 | Aborted | Undefined | OutOfFuel => releases (history s) = []
                 end)).
  eapply wp_consequence; [apply adrv9002_main_releases|].
  intros r s H. apply adrv_released_main_history in H. destruct r; exact H.
Qed.

Lemma adrv9002_dds_releases : releases_at_exit_adrv ADRV9002_DDS.main.
Proof.
  intros w fuel argc argv. cbv zeta.
  apply (run_post (ADRV9002_DDS.main fuel argc argv) ADRV.globals0 w
           (fun o s =>
              releases_last (history s)
              /\ match o with
                 | Exited v =>
                     (ADRV.ctx (glob s) = NULL /\ v = EXIT_FAILURE
                      /\ releases (history s) = [])
                     \/ (ADRV.ctx (glob s) <> NULL
                         /\ releases (history s) = adrv_released (glob s))
                 | Aborted | Undefined | OutOfFuel => releases (history s) = []
                 end)).
  eapply wp_consequence; [apply adrv9002_dds_main_releases|].
  intros r s H. apply adrv_released_main_history in H. destruct r; exact H.
Qed.

Lemma releases_none_trace {G : Type} (s : pstate G) :
  releases (history s) = [] -> select is_teardown (trace s) = [].
Proof.
  unfold releases, history. rewrite select_rev. intros H.
  apply (f_equal (@rev call)) in H. rewrite rev_involutive in H. exact H.
Qed.

Lemma adrv_released_from_history r (s : pstate ADRV.globals) :
  adrv_released_from r s ->
  releases_last (history s)
  /\ releases (history s)
     = match (match r with Val v => Exited v | Stop o => o end) with
       | Exited _ => adrv_released (glob s)
       | Aborted | Undefined | OutOfFuel => []
       end.
Proof.
  destruct r as [v|o]; cbn [adrv_released_from].
  - apply (released_at_exit_run adrv_released).
  - intros [_ H]. apply (released_at_exit_run adrv_released), H.
Qed.

Lemma adrv9002_releases_from : releases_at_exit_from ADRV9002.main_from_lo.
Proof.
  intros w s fuel status Hm. cbv zeta. apply releases_none_trace in Hm.
  apply (run_from_post (ADRV9002.main_from_lo fuel status) w s
           (fun o s' =>
              releases_last (history s')
              /\ ADRV.ctx (glob s') = ADRV.ctx (glob s)
              /\ releases (history s') = match o with
                                         | Exited _ => adrv_released (glob s')
                                         | Aborted | Undefined | OutOfFuel => []
                                         end)).
  eapply wp_consequence; [apply adrv9002_main_from_lo_releases, Hm|].
  intros r s' [Hc H]. apply adrv_released_from_history in H as [H1 H2].
  destruct r; (split; [exact H1|split; [exact Hc|exact H2]]).
Qed.

Lemma adrv9002_dds_releases_from : releases_at_exit_from ADRV9002_DDS.main_from_lo.
Proof.
  intros w s fuel status Hm. cbv zeta. apply releases_none_trace in Hm.
  apply (run_from_post (ADRV9002_DDS.main_from_lo fuel status) w s
           (fun o s' =>
              releases_last (history s')
              /\ ADRV.ctx (glob s') = ADRV.ctx (glob s)
              /\ releases (history s') = match o with
                                         | Exited _ => adrv_released (glob s')
                                         | Aborted | Undefined | OutOfFuel => []
                                         end)).
  eapply wp_consequence; [apply adrv9002_dds_main_from_lo_releases, Hm|].
  intros r s' [Hc H]. apply adrv_released_from_history in H as [H1 H2].
  destruct r; (split; [exact H1|split; [exact Hc|exact H2]]).
Qed.

(** ** The loop and the releases, for the five examples *)

(** The machine of the loop refuses a refill after a test that found the
    flag set, a second test without a refill, and a test that does not
    see the flag the handler has set. *)
Example loop_machine_refuses :
  fst (observe lstep loop_start
         [Etest_stop true; Ecall (iio_buffer_refill 1) (mkResp 0 [] []) []]) = Wrong
  /\ fst (observe lstep loop_start [Etest_stop false; Etest_stop false]) = Wrong
  /\ fst (observe lstep loop_start
            [Ecall (sleep 5) (mkResp 0 [] []) [(SIGINT, ADC.handle_sig SIGINT)];
             Etest_stop false]) = Wrong.
Proof. repeat split. Qed.

(** A run of the AD7768 example where SIGINT arrives during the first
    refill: the iteration goes on to its end, the next test finds the flag
    set, and the process releases its handles and exits. *)
Example ad7768_interrupted_run :
  let out := run (AD7768.main 2 1 ["a.out"]) ADC.globals0 interrupting in
  fst out = Exited 0
  /\ stop (snd out) = true
  /\ observe lstep loop_start (history (snd out)) = (Stopped true, true)
  /\ iio_calls (history (snd out))
     = [iio_create_default_context; iio_context_get_devices_count 1;
        iio_context_find_device 1 "axi-ad7768-adc";
        iio_context_find_device 1 "axi-ad7768-adc";
        iio_device_find_channel 1 "voltage4" false;
        iio_device_find_channel 1 "voltage4" false;
        iio_channel_enable 1; iio_device_create_buffer 1 400 false;
        iio_buffer_refill 1; iio_channel_get_data_format 1;
        iio_channel_read_raw 1 1 1 1600; iio_channel_get_id 1;
        iio_buffer_destroy 1; iio_channel_disable 1; iio_context_destroy 1].
Proof. vm_compute. repeat split. Qed.

(** X13: in every run of the AD4630, AD4696 and AD7768 examples, and in
    every run of the part of [main] that follows [configure_trx_lo] in the
    two ADRV9002 examples, the flag [stop] is tested once before each
    refill of the buffer and at no other time; a test made after the
    handler has set the flag finds it set; and after a test that found the
    flag set there is no other test and no refill: the buffer is
    destroyed and the process exits with status 0. *)
Theorem loop_tested_before_each_refill :
  loop_discipline AD4630.main ADC.globals0
  /\ loop_discipline AD4696.main ADC.globals0
  /\ loop_discipline AD7768.main ADC.globals0
  /\ loop_discipline_from ADRV9002.main_from_lo
  /\ loop_discipline_from ADRV9002_DDS.main_from_lo.
Proof.
  repeat apply conj.
  - exact ad4630_loop_respected.
  - exact ad4696_loop_respected.
  - exact ad7768_loop_respected.
  - exact adrv9002_loop_respected.
  - exact adrv9002_dds_loop_respected.
Qed.

Lemma loop_tested_before_each_refill_witness :
  observe lstep loop_start (history with_context) = (Idle, stop with_context)
  /\ let out := run_from (ADRV9002.main_from_lo 1 0) all_found with_context in
     loop_respected (observe lstep loop_start (history (snd out))) (fst out).
Proof.
  assert (H : observe lstep loop_start (history with_context) = (Idle, stop with_context))
    by reflexivity.
  split; [exact H|].
  exact (proj1 (proj2 (proj2 (proj2 loop_tested_before_each_refill)))
           all_found with_context 1%nat 0 H).
Defined.

(** X14: in every run of the five examples no call into the IIO library
    follows a release of a handle, but other releases.  A run of the
    AD4630, AD4696 and AD7768 examples that exits has released, since its
    start, exactly the handles its globals hold, as [shutdown] does: the
    buffer, the channel, the context, each if it is not NULL; a run that
    aborts releases nothing.  A run of an ADRV9002 example returns
    [EXIT_FAILURE] without a release while it has no context, and
    otherwise returns after the releases of [cleanup] for its globals,
    with a context that is not NULL. *)
Theorem handles_released_at_exit :
  releases_at_exit_ad AD4630.main
  /\ releases_at_exit_ad AD4696.main
  /\ releases_at_exit_ad AD7768.main
  /\ releases_at_exit_adrv ADRV9002.main
  /\ releases_at_exit_adrv ADRV9002_DDS.main
  /\ releases_at_exit_from ADRV9002.main_from_lo
  /\ releases_at_exit_from ADRV9002_DDS.main_from_lo.
Proof.
  repeat apply conj.
  - exact ad4630_releases.
  - exact ad4696_releases.
  - exact ad7768_releases.
  - exact adrv9002_releases.
  - exact adrv9002_dds_releases.
  - exact adrv9002_releases_from.
  - exact adrv9002_dds_releases_from.
Qed.

(** A run of the part of [main] that follows [configure_trx_lo] in which
    the refill fails: [main] returns 0 after the releases of [cleanup]. *)
Lemma handles_released_at_exit_witness :
  let out := run_from (ADRV9002.main_from_lo 1 0) refill_refused with_context in
  releases (history with_context) = []
  /\ fst out = Exited 0
  /\ releases (history (snd out))
     = [iio_buffer_destroy 1; iio_channel_disable 1; iio_channel_disable 1;
        iio_context_destroy 1]
  /\ releases_last (history (snd out))
  /\ ADRV.ctx (glob (snd out)) = ADRV.ctx (glob with_context)
  /\ releases (history (snd out))
     = match fst out with
       | Exited _ => adrv_released (glob (snd out))
       | Aborted | Undefined | OutOfFuel => []
       end.
Proof.
  cbv zeta.
  assert (H : releases (history with_context) = []) by reflexivity.
  split; [exact H|].
  split; [vm_compute; reflexivity|].
  split; [vm_compute; reflexivity|].
  exact (proj1 (proj2 (proj2 (proj2 (proj2 (proj2 handles_released_at_exit)))))
           refill_refused with_context 1%nat 0 H).
Defined.

(** A run of the part of [main] that follows [configure_trx_lo] in which
    the refill fails: the machine of the failures is in the state
    [Failed] at the end, and the process has exited. *)
Lemma failures_end_the_run_witness :
  let out := run_from (ADRV9002.main_from_lo 1 0) refill_refused with_context in
  observe (fstep checked_call is_debug_write) Clean (history with_context) = Clean
  /\ observe (fstep checked_call is_debug_write) Clean (history (snd out)) = Failed
  /\ fst out = Exited 0
  /\ stops_at_failures checked_call is_debug_write (history (snd out)) (fst out).
Proof.
  cbv zeta.
  assert (H : observe (fstep checked_call is_debug_write) Clean (history with_context)
              = Clean) by reflexivity.
  split; [exact H|].
  split; [vm_compute; reflexivity|].
  split; [vm_compute; reflexivity|].
  exact (proj1 (proj2 (proj2 (proj2 (proj2 (proj2 failures_end_the_run)))))
           refill_refused with_context 1%nat 0 H).
Defined.
(** ** The configuration of the streaming channel *)

Ltac go_known := repeat (st_simpl; first [known | wp_step_at | unfold_head]); st_simpl.

Ltac looks_up_leaf :=
  cbn [clock glob ADC.ctx ADC.rxchan ADC.rxbuf ADC.set_tmpstr] in *;
  repeat apply conj; intros;
  try solve [exfalso; bool_facts; congruence];
  repeat apply conj; try reflexivity;
  try solve [plain_tests; use_tests; reflexivity];
  try solve [added_events; reflexivity].

(** The function [cfg] for the port RX, and for the other port. *)
Ltac looks_up cfg banner device file line line_tx :=
  intros ctx chid w s Hlen; cbv zeta;
  assert (Hrx :
    (r_ret (w (S (clock s)) (iio_context_find_device ctx device)) = NULL ->
     fst (cfg ctx ADC.RX chid w s) = Stop Aborted
     /\ exists added,
          adds s (snd (cfg ctx ADC.RX chid w s)) added
          /\ calls added = [printf banner [PInt chid]; iio_context_find_device ctx device;
                            assertion_failed file line])
    /\ (r_ret (w (S (clock s)) (iio_context_find_device ctx device)) <> NULL ->
        fst (cfg ctx ADC.RX chid w s)
        = Val (negb (r_ret (w (S (S (clock s)))
                              (iio_device_find_channel
                                 (r_ret (w (S (clock s))
                                           (iio_context_find_device ctx device)))
                                 (voltage_name chid) false)) =? NULL))
        /\ exists added,
             adds s (snd (cfg ctx ADC.RX chid w s)) added
             /\ calls added
                = [printf banner [PInt chid]; iio_context_find_device ctx device;
                   iio_device_find_channel
                     (r_ret (w (S (clock s)) (iio_context_find_device ctx device)))
                     (voltage_name chid) false])
    /\ (ADC.ctx (glob (snd (cfg ctx ADC.RX chid w s))) = ADC.ctx (glob s)
        /\ ADC.rxchan (glob (snd (cfg ctx ADC.RX chid w s))) = ADC.rxchan (glob s)
        /\ ADC.rxbuf (glob (snd (cfg ctx ADC.RX chid w s))) = ADC.rxbuf (glob s)));
  [ apply (wp_elim w (cfg ctx ADC.RX chid) s
             (fun r s' =>
                (r_ret (w (S (clock s)) (iio_context_find_device ctx device)) = NULL ->
                 r = Stop Aborted
                 /\ exists added,
                      adds s s' added
                      /\ calls added
                         = [printf banner [PInt chid]; iio_context_find_device ctx device;
                            assertion_failed file line])
                /\ (r_ret (w (S (clock s)) (iio_context_find_device ctx device)) <> NULL ->
                    r = Val (negb (r_ret (w (S (S (clock s)))
                                            (iio_device_find_channel
                                               (r_ret (w (S (clock s))
                                                         (iio_context_find_device ctx device)))
                                               (voltage_name chid) false)) =? NULL))
                    /\ exists added,
                         adds s s' added
                         /\ calls added
                            = [printf banner [PInt chid]; iio_context_find_device ctx device;
                               iio_device_find_channel
                                 (r_ret (w (S (clock s))
                                           (iio_context_find_device ctx device)))
                                 (voltage_name chid) false])
                /\ (ADC.ctx (glob s') = ADC.ctx (glob s)
                    /\ ADC.rxchan (glob s') = ADC.rxchan (glob s)
                    /\ ADC.rxbuf (glob s') = ADC.rxbuf (glob s))));
    unfold voltage_name, assertion_failed;
    destruct s as [g st hd tr cl]; cbn [glob] in Hlen; go_known; looks_up_leaf
  | destruct Hrx as [Hnone [Hsome Hglob]];
    split; [exact Hnone|split; [exact Hsome|split; [exact Hglob|]]];
    apply (wp_elim w (cfg ctx ADC.TX chid) s
             (fun r s' =>
                r = Stop Aborted /\ glob s' = glob s
                /\ exists added,
                     adds s s' added
                     /\ calls added = [printf banner [PInt chid];
                                       assertion_failed file line_tx]));
    unfold assertion_failed;
    destruct s as [g st hd tr cl]; go_known; looks_up_leaf ].

Lemma ad4630_looks_up_only :
  looks_up_only AD4630.cfg_ad4630_streaming_ch "* Acquiring AD4630 channel %d\n"
                "ad4630" AD4630.file 152 177.
Proof.
  looks_up AD4630.cfg_ad4630_streaming_ch "* Acquiring AD4630 channel %d\n"
           "ad4630" AD4630.file 152 177.
Qed.

Lemma ad4696_looks_up_only :
  looks_up_only AD4696.cfg_ad4696_streaming_ch "* Acquiring AD4696 channel %d\n"
                "axi-ad469x-adc" AD4696.file 123 148.
Proof.
  looks_up AD4696.cfg_ad4696_streaming_ch "* Acquiring AD4696 channel %d\n"
           "axi-ad469x-adc" AD4696.file 123 148.
Qed.

Lemma ad7768_looks_up_only :
  looks_up_only AD7768.cfg_ad7768_streaming_ch "* Acquiring AD7768 channel %d\n"
                "axi-ad7768-adc" AD7768.file 126 151.
Proof.
  looks_up AD7768.cfg_ad7768_streaming_ch "* Acquiring AD7768 channel %d\n"
           "axi-ad7768-adc" AD7768.file 126 151.
Qed.

(** X17: the function of each example for an AD converter that is to apply
    the streaming configuration, [cfg_ad4630_streaming_ch] and the like,
    configures nothing: for the port RX it prints its message, looks up
    the device and, on it, the channel voltage<chid>, and returns whether
    that channel was found; it aborts on the assertion of [get_ad4630]
    when the device is missing.  It makes no other call, so it writes no
    attribute, and it keeps the channel it found nowhere: [ctx], [rxchan]
    and [rxbuf] are left as they were.  For the other port it aborts on
    the assertion of [get_channel] without any lookup. *)
Theorem cfg_streaming_ch_looks_up_only :
  looks_up_only AD4630.cfg_ad4630_streaming_ch "* Acquiring AD4630 channel %d\n"
                "ad4630" AD4630.file 152 177
  /\ looks_up_only AD4696.cfg_ad4696_streaming_ch "* Acquiring AD4696 channel %d\n"
                   "axi-ad469x-adc" AD4696.file 123 148
  /\ looks_up_only AD7768.cfg_ad7768_streaming_ch "* Acquiring AD7768 channel %d\n"
                   "axi-ad7768-adc" AD7768.file 126 151.
Proof.
  repeat apply conj.
  - exact ad4630_looks_up_only.
  - exact ad4696_looks_up_only.
  - exact ad7768_looks_up_only.
Qed.

Lemma cfg_streaming_ch_looks_up_only_witness :
  List.length (ADC.tmpstr (glob (initial ADC.globals0))) = 64%nat
  /\ fst (AD7768.cfg_ad7768_streaming_ch 1 ADC.RX 4 (quiet_world 1) (initial ADC.globals0))
     = Val true
  /\ calls (history (snd (AD7768.cfg_ad7768_streaming_ch 1 ADC.RX 4 (quiet_world 1)
                            (initial ADC.globals0))))
     = [printf "* Acquiring AD7768 channel %d\n" [PInt 4];
        iio_context_find_device 1 "axi-ad7768-adc";
        iio_device_find_channel 1 "voltage4" false].
Proof.
  assert (H : List.length (ADC.tmpstr (glob (initial ADC.globals0))) = 64%nat)
    by reflexivity.
  split; [exact H|].
  pose proof (proj2 (proj2 cfg_streaming_ch_looks_up_only) 1 4 (quiet_world 1)
                (initial ADC.globals0) H) as P.
  cbv zeta in P. destruct P as [_ [P _]].
  assert (Hdev : r_ret ((quiet_world 1) (S (clock (initial ADC.globals0)))
                          (iio_context_find_device 1 "axi-ad7768-adc")) <> NULL)
    by (vm_compute; discriminate).
  destruct (P Hdev) as [Hval [added [Hadds Hcalls]]].
  split; [exact Hval|].
  unfold adds in Hadds. rewrite Hadds. exact Hcalls.
Defined.

(** ** The start of a run without a context *)

Lemma ad4630_streaming_extends fuel : forall w s,
  wp (AD4630.streaming fuel) w s (fun _ s' => extends (trace s) (trace s')).
Proof.
  induction fuel as [|fuel IH]; intros w [g st hd tr cl]; cbn [AD4630.streaming].
  all: sym; try extension; into_loop IH; extension.
Qed.

Lemma ad4696_streaming_extends fuel : forall w s,
  wp (AD4696.streaming fuel) w s (fun _ s' => extends (trace s) (trace s')).
Proof.
  induction fuel as [|fuel IH]; intros w [g st hd tr cl]; cbn [AD4696.streaming].
  all: sym; try extension; into_loop IH; extension.
Qed.

Lemma ad7768_streaming_extends fuel : forall w s,
  wp (AD7768.streaming fuel) w s (fun _ s' => extends (trace s) (trace s')).
Proof.
  induction fuel as [|fuel IH]; intros w [g st hd tr cl]; cbn [AD7768.streaming].
  all: sym; try extension; into_loop IH; extension.
Qed.

Lemma started_history file line o tr :
  started_without_context file line o tr ->
  exists r1 ran1 r2 ran2 r3 ran3 rest,
    rev tr
    = Ecall (signal SIGINT) r1 ran1
      :: Ecall (printf "* Acquiring IIO context\n" []) r2 ran2
      :: Ecall (iio_context_get_devices_count NULL) r3 ran3 :: rest
    /\ (r_ret r3 <= 0 -> o = Aborted /\ calls rest = [assertion_failed file line]).
Proof.
  intros [r1 [ran1 [r2 [ran2 [r3 [ran3 [[ext Hext] Hend]]]]]]].
  exists r1, ran1, r2, ran2, r3, ran3, (rev ext). split.
  - rewrite Hext, rev_app_distr. reflexivity.
  - intros Hle. destruct (Hend Hle) as [Ho [r4 [ran4 Htr]]]. split; [exact Ho|].
    rewrite Hext in Htr.
    change (Ecall (assertion_failed file line) r4 ran4
            :: [Ecall (iio_context_get_devices_count NULL) r3 ran3;
                Ecall (printf "* Acquiring IIO context\n" []) r2 ran2;
                Ecall (signal SIGINT) r1 ran1])
      with ([Ecall (assertion_failed file line) r4 ran4]
            ++ [Ecall (iio_context_get_devices_count NULL) r3 ran3;
                Ecall (printf "* Acquiring IIO context\n" []) r2 ran2;
                Ecall (signal SIGINT) r1 ran1]) in Htr.
    apply app_inv_tail in Htr. rewrite Htr. reflexivity.
Qed.

Ltac started_leaf :=
  unfold started_without_context, assertion_failed;
  do 6 eexists; cbv zeta; split;
  [ extension
  | intros ?Hle;
    first [ exfalso; bool_facts; lia
          | split; [reflexivity|do 2 eexists; reflexivity] ] ].

Lemma ad4630_starts_without_context :
  starts_without_context AD4630.main AD4630.file 225.
Proof.
  intros w fuel argc argv H1 H2. cbv zeta. unfold history.
  apply started_history.
  apply (run_post (AD4630.main fuel argc argv) ADC.globals0 w
           (fun o s => started_without_context AD4630.file 225 o (trace s))).
  unfold AD4630.main.
  sym; try started_leaf.
  all: into_loop ad4630_streaming_extends;
    match goal with r : res _ |- _ => destruct r end; [sym|]; started_leaf.
Qed.

Lemma ad4696_starts_without_context :
  starts_without_context AD4696.main AD4696.file 196.
Proof.
  intros w fuel argc argv H1 H2. cbv zeta. unfold history.
  apply started_history.
  apply (run_post (AD4696.main fuel argc argv) ADC.globals0 w
           (fun o s => started_without_context AD4696.file 196 o (trace s))).
  unfold AD4696.main.
  sym; try started_leaf.
  all: into_loop ad4696_streaming_extends;
    match goal with r : res _ |- _ => destruct r end; [sym|]; started_leaf.
Qed.

Lemma ad7768_starts_without_context :
  starts_without_context AD7768.main AD7768.file 197.
Proof.
  intros w fuel argc argv H1 H2. cbv zeta. unfold history.
  apply started_history.
  apply (run_post (AD7768.main fuel argc argv) ADC.globals0 w
           (fun o s => started_without_context AD7768.file 197 o (trace s))).
  unfold AD7768.main.
  sym; try started_leaf.
  all: into_loop ad7768_streaming_extends;
    match goal with r : res _ |- _ => destruct r end; [sym|]; started_leaf.
Qed.

(** X18: when [argc] is neither 1 nor 2, the [main] of the AD4630, AD4696
    and AD7768 examples creates no context and goes on all the same: after
    the call of [signal] and the first message, its first call into the
    IIO library is [iio_context_get_devices_count] on the context [NULL];
    when that call returns no positive number, the process aborts on the
    assertion that follows it, after the message of the assertion and
    nothing else. *)
Theorem main_starts_without_context :
  starts_without_context AD4630.main AD4630.file 225
  /\ starts_without_context AD4696.main AD4696.file 196
  /\ starts_without_context AD7768.main AD7768.file 197.
Proof.
  repeat apply conj.
  - exact ad4630_starts_without_context.
  - exact ad4696_starts_without_context.
  - exact ad7768_starts_without_context.
Qed.

Lemma main_starts_without_context_witness :
  3 <> 1 /\ 3 <> 2
  /\ let out := run (AD4696.main 1 3 ["a.out"; "usb:1.2.3"; "x"]) ADC.globals0
                    (quiet_world 0) in
     exists r1 ran1 r2 ran2 r3 ran3 rest,
       history (snd out)
       = Ecall (signal SIGINT) r1 ran1
         :: Ecall (printf "* Acquiring IIO context\n" []) r2 ran2
         :: Ecall (iio_context_get_devices_count NULL) r3 ran3 :: rest
       /\ (r_ret r3 <= 0 ->
           fst out = Aborted /\ calls rest = [assertion_failed AD4696.file 196]).
Proof.
  assert (H1 : 3 <> 1) by discriminate.
  assert (H2 : 3 <> 2) by discriminate.
  split; [exact H1|split; [exact H2|]].
  exact (proj1 (proj2 main_starts_without_context) (quiet_world 0) 1%nat 3
           ["a.out"; "usb:1.2.3"; "x"] H1 H2).
Defined.

(** ** The exit status after the streaming *)

Lemma refill_not_teardown c :
  is_refill c = true -> is_iio c = true /\ is_teardown c = false.
Proof. destruct c; cbn; intros; try discriminate; split; reflexivity. Qed.

Lemma refill_is_iio c : is_refill c = true -> is_iio c = true.
Proof. intros H. apply refill_not_teardown, H. Qed.

(** A trace without a refill. *)
Ltac refill_none :=
  cbn [select is_refill ADRV.error ADRV.info];
  repeat (rewrite select_app;
          first [ rewrite (select_inert is_refill) by (assumption || exact refill_is_iio)
                | rewrite (select_after_failure is_refill)
                    by (assumption || exact refill_not_teardown) ];
          cbn [app select is_refill ADRV.error ADRV.info]);
  assumption.

Ltac refilled_leaf :=
  unfold refilled_then_succeeded; intros ?Hsel;
  first [ left; f_equal; plain_tests; bool_facts; solve [assumption | lia]
        | right; reflexivity
        | exfalso; apply Hsel; refill_none ].

Lemma adrv9002_main_from_lo_refilled fuel status w s :
  select is_refill (trace s) = [] ->
  wp (ADRV9002.main_from_lo fuel status) w s
     (fun r s' => refilled_then_succeeded
                    (match r with Val v => Exited v | Stop o => o end) (trace s')).
Proof.
  destruct s as [g st hd tr cl]. cbn [trace]. intros Hpre. unfold ADRV9002.main_from_lo.
  sym; try refilled_leaf.
  all: into_loop adrv9002_streaming_status; destruct Hloop as [Hloop Hend].
  all: match goal with r : res unit |- _ => destruct r as [[]|o] end;
    cbn [out_of_fuel_or_val] in Hend; [sym|subst]; refilled_leaf.
Qed.

Lemma adrv9002_dds_main_from_lo_refilled fuel status w s :
  select is_refill (trace s) = [] ->
  wp (ADRV9002_DDS.main_from_lo fuel status) w s
     (fun r s' => refilled_then_succeeded
                    (match r with Val v => Exited v | Stop o => o end) (trace s')).
Proof.
  destruct s as [g st hd tr cl]. cbn [trace]. intros Hpre.
  unfold ADRV9002_DDS.main_from_lo.
  sym; try refilled_leaf.
  all: into_loop adrv9002_dds_streaming_status; destruct Hloop as [Hloop Hend].
  all: match goal with r : res unit |- _ => destruct r as [[]|o] end;
    cbn [out_of_fuel_or_val] in Hend; [sym|subst]; refilled_leaf.
Qed.

Lemma select_none_rev f (h : list event) : select f (rev h) = [] -> select f h = [].
Proof.
  rewrite select_rev. intros H. apply (f_equal (@rev call)) in H.
  rewrite rev_involutive in H. exact H.
Qed.

Lemma refilled_history o tr :
  refilled_then_succeeded o tr -> refilled_then_succeeded o (rev tr).
Proof.
  unfold refilled_then_succeeded. intros H Hsel. apply H. intros E. apply Hsel.
  rewrite select_rev, E. reflexivity.
Qed.

Lemma adrv9002_refills_then_succeeds : refills_then_succeeds ADRV9002.main_from_lo.
Proof.
  intros w s fuel status Hpre. cbv zeta. apply select_none_rev in Hpre.
  apply (refilled_history _ (trace _)).
  apply (run_from_post (ADRV9002.main_from_lo fuel status) w s
           (fun o s' => refilled_then_succeeded o (trace s'))).
  eapply wp_consequence; [apply adrv9002_main_from_lo_refilled, Hpre|].
  intros [v|o] s' H; exact H.
Qed.

Lemma adrv9002_dds_refills_then_succeeds :
  refills_then_succeeds ADRV9002_DDS.main_from_lo.
Proof.
  intros w s fuel status Hpre. cbv zeta. apply select_none_rev in Hpre.
  apply (refilled_history _ (trace _)).
  apply (run_from_post (ADRV9002_DDS.main_from_lo fuel status) w s
           (fun o s' => refilled_then_succeeded o (trace s'))).
  eapply wp_consequence; [apply adrv9002_dds_main_from_lo_refilled, Hpre|].
  intros [v|o] s' H; exact H.
Qed.

(** X19: in the two ADRV9002 examples a failure of [iio_buffer_refill] is
    not reported in the exit status: [stream] returns nothing, and a run
    of the part of [main] that follows [configure_trx_lo] in which the
    buffer was refilled, with success or not, returns 0 (unless it is cut
    inside a loop). *)
Theorem refill_failure_exits_zero :
  refills_then_succeeds ADRV9002.main_from_lo
  /\ refills_then_succeeds ADRV9002_DDS.main_from_lo.
Proof.
  split.
  - exact adrv9002_refills_then_succeeds.
  - exact adrv9002_dds_refills_then_succeeds.
Qed.

Lemma refill_failure_exits_zero_witness :
  let out := run_from (ADRV9002.main_from_lo 1 0) refill_refused with_context in
  select is_refill (history with_context) = []
  /\ select is_refill (history (snd out)) = [iio_buffer_refill 1]
  /\ failed (iio_buffer_refill 1) (refill_refused 0%nat (iio_buffer_refill 1)) = true
  /\ (fst out = Exited 0 \/ fst out = OutOfFuel).
Proof.
  cbv zeta.
  assert (H1 : select is_refill (history with_context) = []) by reflexivity.
  assert (H2 : select is_refill
                 (history (snd (run_from (ADRV9002.main_from_lo 1 0) refill_refused
                                         with_context)))
               = [iio_buffer_refill 1]) by (vm_compute; reflexivity).
  split; [exact H1|split; [exact H2|split; [reflexivity|]]].
  apply (proj1 refill_failure_exits_zero refill_refused with_context 1%nat 0 H1).
  rewrite H2. discriminate.
Defined.

(** ** The local oscillators *)

Ltac lo_leaf :=
  try change (ADRV.GHZ 2.5) with 2500000000 in *;
  try change (ADRV.GHZ 2.4) with 2400000000 in *;
  match goal with
  | |- context [follow ?w ?n ?plan] =>
      let E := fresh "E" in
      eassert (E : follow w n plan = _) by (try unfold plan; followed);
      rewrite E; clear E; cbn beta iota delta [fst snd]
  end;
  split; [answers; reflexivity|split; [reflexivity|]];
  added_events; answers; split; reflexivity.

(** X20: [configure_trx_lo] takes the steps of its plan in the order of
    the source, with the device and the channels the library answered to
    its lookups: the lookup of the device and of the channel voltage0
    (and then of voltage1 in adrv9002-iiostream-dds.c, which is the one
    read there), the reads of the bandwidth and of the sampling
    frequency, each printed as the library stored it, and for each
    oscillator the lookup of its channel and the write of its frequency,
    2.5 GHz, and 2.4 GHz in the DDS example.  It returns [-ENODEV] at the
    first lookup that returns NULL, after the message, or the code of the
    first access that returns another code than 0; when no step failed it
    reaches its closing brace without a value.  It never returns 0,
    enables no channel and leaves the globals as they were. *)
Theorem configure_trx_lo_result (w : world) (s : pstate ADRV.globals) :
  let n := clock s in
  let phy := r_ret (w n (find_phy (ADRV.ctx (glob s)))) in
  let find name := iio_device_find_channel phy name true in
  let read chan what := iio_channel_attr_read_longlong chan what in
  let chan := r_ret (w (1 + n)%nat (find "voltage0")) in
  let plan :=
    trx_lo_plan (ADRV.ctx (glob s)) phy chan
      (stored w (2 + n) (read chan "rf_bandwidth"))
      (stored w (4 + n) (read chan "sampling_frequency"))
      (r_ret (w (6 + n)%nat (find "altvoltage2")))
      (r_ret (w (8 + n)%nat (find "altvoltage0"))) in
  let chan_dds := r_ret (w (2 + n)%nat (find "voltage1")) in
  let plan_dds :=
    trx_lo_dds_plan (ADRV.ctx (glob s)) phy chan_dds
      (stored w (3 + n) (read chan_dds "rf_bandwidth"))
      (stored w (5 + n) (read chan_dds "sampling_frequency"))
      (r_ret (w (7 + n)%nat (find "altvoltage2")))
      (r_ret (w (9 + n)%nat (find "altvoltage0"))) in
  let out := ADRV9002.configure_trx_lo w s in
  let out_dds := ADRV9002_DDS.configure_trx_lo w s in
  (fst out = Val (fst (follow w n plan))
   /\ fst out <> Val (Some 0)
   /\ glob (snd out) = glob s
   /\ exists added,
        adds s (snd out) added
        /\ calls added = snd (follow w n plan)
        /\ select is_enable added = [])
  /\ (fst out_dds = Val (fst (follow w n plan_dds))
      /\ fst out_dds <> Val (Some 0)
      /\ glob (snd out_dds) = glob s
      /\ exists added,
           adds s (snd out_dds) added
           /\ calls added = snd (follow w n plan_dds)
           /\ select is_enable added = []).
Proof.
  destruct s as [g st hd tr cl]. cbn beta iota delta [clock glob].
  intros n phy find read chan plan chan_dds plan_dds out out_dds. subst n out out_dds.
  assert (Hnz : forall plan r, r = Val (fst (follow w cl plan)) -> r <> Val (Some 0)).
  { intros p r -> H. injection H as H. exact (follow_failure w p cl 0 H eq_refl). }
  split.
  - assert (H : fst (ADRV9002.configure_trx_lo w (mkState g st hd tr cl))
                = Val (fst (follow w cl plan))
                /\ glob (snd (ADRV9002.configure_trx_lo w (mkState g st hd tr cl))) = g
                /\ exists added,
                     adds (mkState g st hd tr cl)
                          (snd (ADRV9002.configure_trx_lo w (mkState g st hd tr cl))) added
                     /\ calls added = snd (follow w cl plan)
                     /\ select is_enable added = []).
    { apply (wp_elim w ADRV9002.configure_trx_lo _
               (fun r s' =>
                  r = Val (fst (follow w cl plan))
                  /\ glob s' = g
                  /\ exists added,
                       adds (mkState g st hd tr cl) s' added
                       /\ calls added = snd (follow w cl plan)
                       /\ select is_enable added = [])).
      unfold ADRV9002.configure_trx_lo. go_eq. all: lo_leaf. }
    destruct H as [H1 H2]. split; [exact H1|split; [exact (Hnz _ _ H1)|exact H2]].
  - assert (H : fst (ADRV9002_DDS.configure_trx_lo w (mkState g st hd tr cl))
                = Val (fst (follow w cl plan_dds))
                /\ glob (snd (ADRV9002_DDS.configure_trx_lo w (mkState g st hd tr cl))) = g
                /\ exists added,
                     adds (mkState g st hd tr cl)
                          (snd (ADRV9002_DDS.configure_trx_lo w (mkState g st hd tr cl)))
                          added
                     /\ calls added = snd (follow w cl plan_dds)
                     /\ select is_enable added = []).
    { apply (wp_elim w ADRV9002_DDS.configure_trx_lo _
               (fun r s' =>
                  r = Val (fst (follow w cl plan_dds))
                  /\ glob s' = g
                  /\ exists added,
                       adds (mkState g st hd tr cl) s' added
                       /\ calls added = snd (follow w cl plan_dds)
                       /\ select is_enable added = [])).
      unfold ADRV9002_DDS.configure_trx_lo. go_eq. all: lo_leaf. }
    destruct H as [H1 H2]. split; [exact H1|split; [exact (Hnz _ _ H1)|exact H2]].
Qed.

(** ** The block of the samples *)

Lemma mseen_quiet st ext :
  forallb untouched ext = true -> seen mstep st ext = st.
Proof.
  induction ext as [|e ext IH]; cbn [forallb]; [reflexivity|].
  intros H. apply andb_true_iff in H as [He Hext].
  rewrite seen_cons, (IH Hext).
  destruct e as [c r ran|b]; [|reflexivity].
  destruct c; cbn in He; try discriminate He; reflexivity.
Qed.

Lemma untouched_push ext c r ran :
  untouched (Ecall c r ran) = true -> forallb untouched ext = true ->
  forallb untouched (ext ++ [Ecall c r ran]) = true.
Proof.
  intros Hc Hext. rewrite forallb_app, Hext. cbn [forallb]. rewrite Hc. reflexivity.
Qed.

Ltac quiet_start :=
  lazymatch goal with
  | H : quietly _ _ _ |- _ =>
      apply (H []); [reflexivity|]
  end.

Ltac quiet_step IH :=
  lazymatch goal with
  | H : quietly _ _ ?Q |- wp _ _ _ ?Q =>
      apply IH; intros ext clk res Hext Hres; cbn [glob stop handled trace clock];
      repeat apply (frame_push (Q res));
      apply H; [|exact Hres];
      repeat (apply untouched_push; [reflexivity|]); exact Hext
  end.

Lemma ad4630_print_samples_quiet room : forall sample count buf w s Q,
  quietly undefined_or_val s Q ->
  wp (AD4630.print_samples room sample count buf) w s Q.
Proof.
  induction room as [|room IH]; intros sample count buf w [g st hd tr cl] Q H;
    cbn [AD4630.print_samples]; go; try (quiet_start; exact I || reflexivity).
  quiet_step IH.
Qed.

Lemma ad4696_print_samples_quiet room : forall sample count buf w s Q,
  quietly undefined_or_val s Q ->
  wp (AD4696.print_samples room sample count buf) w s Q.
Proof.
  induction room as [|room IH]; intros sample count buf w [g st hd tr cl] Q H;
    cbn [AD4696.print_samples]; go; try (quiet_start; exact I || reflexivity).
  quiet_step IH.
Qed.

Lemma ad7768_print_samples_quiet room : forall sample count buf w s Q,
  quietly undefined_or_val s Q ->
  wp (AD7768.print_samples room sample count buf) w s Q.
Proof.
  induction room as [|room IH]; intros sample count buf w [g st hd tr cl] Q H;
    cbn [AD7768.print_samples]; go; try (quiet_start; exact I || reflexivity).
  quiet_step IH.
Qed.

(** [shutdown] allocates and frees nothing. *)
Lemma wp_shutdown_quiet {A : Type} (w : world) (s : pstate ADC.globals)
    (Q : res A -> pstate ADC.globals -> Prop) :
  (forall ext clk,
      forallb untouched ext = true ->
      Q (Stop (Exited 0))
        (mkState (glob s) (flagged ext || stop s) (handled s) (ext ++ trace s) clk)) ->
  wp ADC.shutdown w s Q.
Proof.
  destruct s as [g st hd tr cl]. intros H. unfold ADC.shutdown. go.
  all: apply (frame_init (Q (Stop (Exited 0))));
    repeat apply (frame_push (Q (Stop (Exited 0))));
    apply H; reflexivity.
Qed.

(** The steps that have a lemma of their own. *)
Ltac quiet_known :=
  lazymatch goal with
  | |- wp (@ADC.shutdown _) _ _ _ =>
      apply wp_shutdown_quiet; intros ?ext ?clk ?Hext
  | |- wp (AD4630.print_samples _ _ _ _) _ _ _ =>
      apply ad4630_print_samples_quiet;
      intros ?ext ?clk [?v|?o] ?Hext ?Hres; cbn [undefined_or_val] in *; subst
  | |- wp (AD4696.print_samples _ _ _ _) _ _ _ =>
      apply ad4696_print_samples_quiet;
      intros ?ext ?clk [?v|?o] ?Hext ?Hres; cbn [undefined_or_val] in *; subst
  | |- wp (AD7768.print_samples _ _ _ _) _ _ _ =>
      apply ad7768_print_samples_quiet;
      intros ?ext ?clk [?v|?o] ?Hext ?Hres; cbn [undefined_or_val] in *; subst
  | _ => known
  end.

Ltac quiet_sym :=
  repeat (st_simpl; first [quiet_known | wp_step | unfold_head]); st_simpl.

(** The state of the machine of the block after the events of a trace. *)
Ltac block_machine :=
  repeat first [rewrite seen_cons | rewrite seen_nil | rewrite seen_app];
  repeat first
    [ match goal with
      | H : seen mstep Released _ = _ |- _ => rewrite H
      end
    | rewrite mseen_quiet by assumption
    | progress cbn [mstep]
    | rewrite Z.eqb_refl
    | rewrite Z.leb_refl
    | progress cbn [andb]
    | progress use_tests ].

Ltac block_leaf :=
  cbn [block_post trace]; block_machine; cbn [memory_respected];
  first [exact I | reflexivity].

Lemma ad4630_streaming_block fuel : forall w s,
  seen mstep Released (trace s) = Released ->
  wp (AD4630.streaming fuel) w s (fun r s' => block_post r s').
Proof.
  induction fuel as [|fuel IH]; intros w [g st hd tr cl] Hm; cbn [trace] in Hm;
    cbn [AD4630.streaming].
  all: quiet_sym; try solve [block_leaf].
  all: apply IH; cbn [trace]; block_machine; reflexivity.
Qed.

Lemma ad4696_streaming_block fuel : forall w s,
  seen mstep Released (trace s) = Released ->
  wp (AD4696.streaming fuel) w s (fun r s' => block_post r s').
Proof.
  induction fuel as [|fuel IH]; intros w [g st hd tr cl] Hm; cbn [trace] in Hm;
    cbn [AD4696.streaming].
  all: quiet_sym; try solve [block_leaf].
  all: apply IH; cbn [trace]; block_machine; reflexivity.
Qed.

Lemma ad7768_streaming_block fuel : forall w s,
  seen mstep Released (trace s) = Released ->
  wp (AD7768.streaming fuel) w s (fun r s' => block_post r s').
Proof.
  induction fuel as [|fuel IH]; intros w [g st hd tr cl] Hm; cbn [trace] in Hm;
    cbn [AD7768.streaming].
  all: quiet_sym; try solve [block_leaf].
  all: apply IH; cbn [trace]; block_machine; reflexivity.
Qed.

Ltac main_block_leaf :=
  cbn [trace]; block_machine; cbn [memory_respected]; first [exact I | reflexivity].

(** The loop of [main], by the lemma [loop] on it, and what follows it. *)
Ltac block_main loop :=
  eapply wp_consequence; [apply loop; cbn [trace]; block_machine; reflexivity|];
  cbn beta; intros [?u|?o] [?g' ?st' ?hd' ?tr' ?cl'] ?Hloop;
  cbn [block_post trace] in Hloop;
  [quiet_sym; main_block_leaf|exact Hloop].

Lemma ad4630_block_discipline : block_discipline AD4630.main.
Proof.
  intros w fuel argc argv. cbv zeta. unfold history. rewrite observe_seen.
  apply (run_post (AD4630.main fuel argc argv) ADC.globals0 w
           (fun o s => memory_respected (seen mstep Released (trace s)) o)).
  unfold AD4630.main. quiet_sym; try solve [main_block_leaf].
  all: block_main ad4630_streaming_block.
Qed.

Lemma ad4696_block_discipline : block_discipline AD4696.main.
Proof.
  intros w fuel argc argv. cbv zeta. unfold history. rewrite observe_seen.
  apply (run_post (AD4696.main fuel argc argv) ADC.globals0 w
           (fun o s => memory_respected (seen mstep Released (trace s)) o)).
  unfold AD4696.main. quiet_sym; try solve [main_block_leaf].
  all: block_main ad4696_streaming_block.
Qed.

Lemma ad7768_block_discipline : block_discipline AD7768.main.
Proof.
  intros w fuel argc argv. cbv zeta. unfold history. rewrite observe_seen.
  apply (run_post (AD7768.main fuel argc argv) ADC.globals0 w
           (fun o s => memory_respected (seen mstep Released (trace s)) o)).
  unfold AD7768.main. quiet_sym; try solve [main_block_leaf].
  all: block_main ad7768_streaming_block.
Qed.

(** A run of the AD7768 example interrupted during its first refill: the
    block is allocated, filled and freed. *)
Example ad7768_block_of_a_run :
  let out := run (AD7768.main 2 1 ["a.out"]) ADC.globals0 interrupting in
  fst out = Exited 0
  /\ calls (filter (fun e => negb (untouched e)) (history (snd out)))
     = [malloc 1600; iio_channel_read_raw 1 1 1 1600; free 1]
  /\ observe mstep Released (history (snd out)) = Released.
Proof. repeat split; vm_compute; reflexivity. Qed.

(** The machine refuses a block freed twice, and a block filled with more
    bytes than it has. *)
Example block_machine_refuses :
  observe mstep Released
    [Ecall (malloc 16) (mkResp 4096 [] []) []; Ecall (free 4096) (mkResp 0 [] []) [];
     Ecall (free 4096) (mkResp 0 [] []) []] = Misused
  /\ observe mstep Released
       [Ecall (malloc 16) (mkResp 4096 [] []) [];
        Ecall (iio_channel_read_raw 1 1 4096 32) (mkResp 32 [] []) []] = Misused.
Proof. split; reflexivity. Qed.

(** X21: in every run of the AD4630, AD4696 and AD7768 examples the block
    of the samples is handled in order: [malloc] is called only while no
    block is held; [iio_channel_read_raw] is given the block held, and no
    more bytes than were allocated; [free] is called once for each block,
    with the pointer [malloc] returned, and never on [NULL]; and no block
    is held at the end of a run, unless the run has no defined behaviour
    (a sample size of 0, or a read outside of the block or of bytes that
    were not written). *)
Theorem block_freed_once :
  block_discipline AD4630.main
  /\ block_discipline AD4696.main
  /\ block_discipline AD7768.main.
Proof.
  repeat apply conj.
  - exact ad4630_block_discipline.
  - exact ad4696_block_discipline.
  - exact ad7768_block_discipline.
Qed.
